(** * seekr-app: the indexing-and-search engine

    A shallow embedding of the Electron main-process services

      - [electron/services/search.ts]      (SearchService)
      - [electron/services/database.ts]    (DatabaseService, sqlite3 and
                                            better-sqlite3 variants)
      - [electron/services/indexer.ts]     (FileIndexer)
      - [electron/services/file-watcher.ts] (FileWatcher)
      - [electron/services/ipc-handlers.ts] (IpcHandlers)

    and of the state three hooks of the renderer keep

      - [hooks/useSearchCache.ts]   (the cache in front of a search)
      - [hooks/useSearchHistory.ts] (the queries searched)
      - [hooks/useFileSearch.ts]    (the request for a page, the pager)

    Conventions of the embedding.

      - A JavaScript string is a list of ASCII code units ([str]).
      - A JavaScript number is an exact integer ([Z]) where the code only
        ever holds integers (sizes, timestamps, limits), and an exact
        rational ([Q]) where it multiplies by 0.9 / 1.1 or parses a decimal
        literal; rounding of doubles is not modelled.
      - A [Date] is its [getTime()] value, milliseconds since the epoch,
        read in UTC.
      - [async] functions are modelled by their result; a rejected promise
        and a thrown exception are both the [inl] side of a sum. *)

From Stdlib Require Import Ascii String DecimalString.
From Stdlib Require Import List ZArith QArith Lia Bool Arith.
From Stdlib Require Import Sorting.Sorted Sorting.Permutation.
Import ListNotations.

Set Implicit Arguments.

Definition str := list ascii.

Definition lit (s : string) : str := list_ascii_of_string s.
Arguments lit s%_string.

(** ** JavaScript string and array primitives *)

Module Js.

Definition code (c : ascii) : N := N_of_ascii c.

Definition in_range (lo hi : N) (c : ascii) : bool :=
  (N.leb lo (code c) && N.leb (code c) hi)%bool.

Definition is_upper (c : ascii) : bool := in_range 65 90 c.
Definition is_lower (c : ascii) : bool := in_range 97 122 c.
Definition is_digit (c : ascii) : bool := in_range 48 57 c.

(** [\w] *)
Definition is_word (c : ascii) : bool :=
  is_upper c || is_lower c || is_digit c || Ascii.eqb c "_"%char.

(** [\s], restricted to ASCII: TAB, LF, VT, FF, CR, SPACE. *)
Definition is_space (c : ascii) : bool :=
  in_range 9 13 c || Ascii.eqb c " "%char.

Definition lower_char (c : ascii) : ascii :=
  if is_upper c then ascii_of_N (code c + 32) else c.

Definition upper_char (c : ascii) : ascii :=
  if is_lower c then ascii_of_N (code c - 32) else c.

Definition toLowerCase (s : str) : str := map lower_char s.
Definition toUpperCase (s : str) : str := map upper_char s.

Fixpoint str_eqb (a b : str) : bool :=
  match a, b with
  | [], [] => true
  | x :: a', y :: b' => Ascii.eqb x y && str_eqb a' b'
  | _, _ => false
  end.

Fixpoint startsWith (s p : str) {struct p} : bool :=
  match p, s with
  | [], _ => true
  | x :: p', y :: s' => Ascii.eqb x y && startsWith s' p'
  | _ :: _, [] => false
  end.

Fixpoint includes (s sub : str) : bool :=
  startsWith s sub ||
  match s with
  | [] => false
  | _ :: s' => includes s' sub
  end.

Fixpoint trimStart (s : str) : str :=
  match s with
  | c :: s' => if is_space c then trimStart s' else s
  | [] => []
  end.

Definition trimEnd (s : str) : str := rev (trimStart (rev s)).

Definition trim (s : str) : str := trimEnd (trimStart s).

(** [Array.prototype.includes] on an array of strings. *)
Definition arr_includes (l : list str) (x : str) : bool :=
  existsb (str_eqb x) l.

(** [s.split(c)] for a one-character separator. *)
Fixpoint split_on (c : ascii) (s : str) : list str :=
  match s with
  | [] => [[]]
  | x :: s' =>
      if Ascii.eqb x c then [] :: split_on c s'
      else match split_on c s' with
           | w :: ws => (x :: w) :: ws
           | [] => [[x]]
           end
  end.

(** [s.split(/\s+/)]: a run of white space is one separator. *)
Fixpoint split_ws_aux (in_sep : bool) (s : str) : list str :=
  match s with
  | [] => [[]]
  | x :: s' =>
      if is_space x then
        if in_sep then split_ws_aux true s' else [] :: split_ws_aux true s'
      else match split_ws_aux false s' with
           | w :: ws => (x :: w) :: ws
           | [] => [[x]]
           end
  end.

Definition split_ws (s : str) : list str := split_ws_aux false s.

(** [parts.join(sep)] *)
Fixpoint join (sep : str) (l : list str) : str :=
  match l with
  | [] => []
  | [w] => w
  | w :: ws => w ++ sep ++ join sep ws
  end.

(** [parseInt] of a string of decimal digits. *)
Definition digit_val (c : ascii) : Z := Z.of_N (code c) - 48.

Definition parseInt (ds : str) : Z :=
  fold_left (fun acc c => 10 * acc + digit_val c)%Z ds 0%Z.

(** [parseFloat] of a decimal literal [ddd] or [ddd.ddd], exactly. *)
Definition parseFloat (s : str) : Q :=
  match split_on "."%char s with
  | [ip] => inject_Z (parseInt ip)
  | ip :: fp :: _ =>
      (inject_Z (parseInt ip)
       + inject_Z (parseInt fp) / inject_Z (10 ^ Z.of_nat (List.length fp)))%Q
  | [] => 0%Q
  end.

(** [String(n)] for a natural number. *)
Definition numberToString (n : nat) : str :=
  list_ascii_of_string (NilZero.string_of_uint (Nat.to_uint n)).

(** [a.slice(start, end)] with JavaScript's treatment of negative and
    out-of-range indices. *)
Definition clamp_index (len i : Z) : Z :=
  if (i <? 0)%Z then Z.max (len + i) 0 else Z.min i len.

Definition slice {A} (l : list A) (start stop : Z) : list A :=
  let len := Z.of_nat (length l) in
  let a := clamp_index len start in
  let b := clamp_index len stop in
  firstn (Z.to_nat (b - a)) (skipn (Z.to_nat a) l).

End Js.

(** A stable sort: insertion from the right keeps elements that compare
    equal in their input order.  It stands for [Array.prototype.sort(cmp)]
    (stable since ES2019), with [le a b] the test [cmp(a, b) <= 0], and for
    the sorter behind SQLite's [ORDER BY]. *)
Module Stable.
Section Sort.
Variable A : Type.
Variable le : A -> A -> bool.

Fixpoint insert (x : A) (l : list A) : list A :=
  match l with
  | [] => [x]
  | y :: l' => if le x y then x :: l else y :: insert x l'
  end.

Fixpoint sort (l : list A) : list A :=
  match l with
  | [] => []
  | x :: l' => insert x (sort l')
  end.
End Sort.
End Stable.


(** ** Regular-expression matching

    The regular expressions of the sources all begin with a literal
    keyword, so a match is never empty.  A [matcher] tries the expression
    at the head of its input and returns the length of the match. *)

Module Re.

Definition matcher := str -> option nat.

(** [p] matched case-insensitively (flag [i]) at the head of [s]:
    the rest of the input after it. *)
Fixpoint prefix_ci (p s : str) : option str :=
  match p, s with
  | [], _ => Some s
  | x :: p', y :: s' =>
      if Ascii.eqb (Js.lower_char x) (Js.lower_char y) then prefix_ci p' s'
      else None
  | _ :: _, [] => None
  end.

(** The longest prefix of characters in a class (a greedy [c*]). *)
Fixpoint span (f : ascii -> bool) (s : str) : str * str :=
  match s with
  | c :: s' =>
      if f c then let (a, b) := span f s' in (c :: a, b) else ([], s)
  | [] => ([], [])
  end.

(** [s.match(/re/g)]: all matches, left to right, each search resuming
    where the previous match ended.  [skip] counts the characters of the
    current match still to be passed over. *)
Fixpoint match_all (m : matcher) (skip : nat) (s : str) : list str :=
  match s with
  | [] => []
  | _ :: s' =>
      match skip with
      | S k => match_all m k s'
      | O =>
          match m s with
          | Some (S n) => firstn (S n) s :: match_all m n s'
          | _ => match_all m 0 s'
          end
      end
  end.

(** [s.replace(/re/g, '')] *)
Fixpoint replace_all (m : matcher) (skip : nat) (s : str) : str :=
  match s with
  | [] => []
  | c :: s' =>
      match skip with
      | S k => replace_all m k s'
      | O =>
          match m s with
          | Some (S n) => replace_all m n s'
          | _ => c :: replace_all m 0 s'
          end
      end
  end.

(** [s.match(/re/)] without [g]: the groups of the leftmost match. *)
Fixpoint exec {G} (m : str -> option G) (s : str) : option G :=
  match m s with
  | Some g => Some g
  | None => match s with
            | [] => None
            | _ :: s' => exec m s'
            end
  end.

End Re.

(** ** Dates

    [Date] values are milliseconds since the epoch; the calendar fields are
    read in UTC (the proleptic Gregorian calendar of ECMAScript). *)

Module JsDate.
Local Open Scope Z_scope.

Definition msPerDay : Z := 1000 * 60 * 60 * 24.

(** Day number (days since 1970-01-01) of the civil date [y]-[m]-[d],
    [m] in 1..12; [d] may lie outside the month. *)
Definition days_from_civil (y m d : Z) : Z :=
  let y' := if m <=? 2 then y - 1 else y in
  let era := y' / 400 in
  let yoe := y' - era * 400 in
  let doy := (153 * (m + (if 2 <? m then -3 else 9)) + 2) / 5 + d - 1 in
  let doe := yoe * 365 + yoe / 4 - yoe / 100 + doy in
  era * 146097 + doe - 719468.

(** Year, month (1..12) and day of a day number. *)
Definition civil_from_days (z : Z) : Z * Z * Z :=
  let z := z + 719468 in
  let era := z / 146097 in
  let doe := z - era * 146097 in
  let yoe := (doe - doe / 1460 + doe / 36524 - doe / 146096) / 365 in
  let doy := doe - (365 * yoe + yoe / 4 - yoe / 100) in
  let mp := (5 * doy + 2) / 153 in
  let d := doy - (153 * mp + 2) / 5 + 1 in
  let m := if mp <? 10 then mp + 3 else mp - 9 in
  (yoe + era * 400 + (if m <=? 2 then 1 else 0), m, d).

Definition getFullYear (t : Z) : Z := fst (fst (civil_from_days (t / msPerDay))).
(** [getMonth()] is 0-based. *)
Definition getMonth (t : Z) : Z := snd (fst (civil_from_days (t / msPerDay))) - 1.
Definition getDate (t : Z) : Z := snd (civil_from_days (t / msPerDay)).
Definition timeInDay (t : Z) : Z := t mod msPerDay.

(** MakeDate(MakeDay(year, month, date), time): [month] is 0-based and,
    like [date], may be out of range. *)
Definition make (year month date time : Z) : Z :=
  let ym := year + month / 12 in
  let mn := month mod 12 in
  (days_from_civil ym (mn + 1) 1 + date - 1) * msPerDay + time.

(** [new Date(year, month, date)] *)
Definition ofYMD (year month date : Z) : Z := make year month date 0.

Definition setDate (t date : Z) : Z :=
  make (getFullYear t) (getMonth t) date (timeInDay t).
Definition setMonth (t month : Z) : Z :=
  make (getFullYear t) month (getDate t) (timeInDay t).
Definition setFullYear (t year : Z) : Z :=
  make year (getMonth t) (getDate t) (timeInDay t).

End JsDate.

(** ** The data model: [src/types/index.ts] *)

(** [enum FileType]: the values are strings at run time. *)
Module FileType.
Definition DOCUMENT : str := lit "document".
Definition IMAGE : str := lit "image".
Definition VIDEO : str := lit "video".
Definition AUDIO : str := lit "audio".
Definition ARCHIVE : str := lit "archive".
Definition CODE : str := lit "code".
Definition DIRECTORY : str := lit "directory".
Definition OTHER : str := lit "other".
End FileType.

Record FileItem := mkFileItem {
  id : str;
  name : str;
  path : str;
  fullPath : str;
  extension : str;
  size : Z;
  dateModified : Z;
  dateCreated : Z;
  isDirectory : bool;
  type : str
}.

(** A number that may be [Infinity]. *)
Inductive QInf := Fin (q : Q) | Infinity.

Record SearchFilters := mkSearchFilters {
  fileTypes : option (list str);
  extensions : option (list str);
  sizeMin : option Q;
  sizeMax : option Q;
  dateModifiedFrom : option Z;
  dateModifiedTo : option Z;
  includeDirectories : option bool
}.

Definition no_filters : SearchFilters :=
  mkSearchFilters None None None None None None None.

(** [SearchResult] without [executionTime], which is wall-clock time. *)
Record SearchResult := mkSearchResult {
  items : list FileItem;
  totalCount : Z;
  query : str
}.

Record IpcResponse (T : Type) := mkIpcResponse {
  success : bool;
  data : option T;
  error : option str
}.

(** A thrown exception or rejected promise: its message. *)
Inductive Exn := Error (message : str) | TypeError (message : str).

(** ** The SQLite engine, as far as the services use it

    One table, [files].  The statements the services prepare are
    [SELECT * FROM files [WHERE c1 AND ... AND cn] ORDER BY CASE WHEN
    isDirectory = 1 THEN 0 ELSE 1 END, name COLLATE NOCASE LIMIT ? OFFSET ?]
    with the conditions below, [INSERT OR REPLACE INTO files], and
    [DELETE FROM files].  The [files_fts] mirror is written but never read
    by these services and is left out. *)

Module Sqlite.

Record Row := mkRow {
  col_id : str;
  col_name : str;
  col_path : str;
  col_fullPath : str;
  col_extension : str;
  col_size : Z;
  col_dateModified : Z;
  col_dateCreated : Z;
  col_isDirectory : Z;
  col_type : str
}.

(** An open database handle.  [fault = Some msg] is a handle on which
    every statement fails with [msg] (I/O error, corrupt file). *)
Record Connection := mkConnection {
  files : list Row;
  fault : option str
}.

Inductive Value := Text (s : str) | Integer (z : Z) | Real (q : Q).

Inductive SizeOp := Gt | Ge | Lt | Le | EqOp.

(** The condition strings pushed onto [whereConditions]. *)
Inductive Cond :=
| TypeEq                 (* 'type = ?' *)
| ExtensionEq            (* 'extension = ?' *)
| SizeCmp (op : SizeOp)  (* 'size > ?', 'size >= ?', ... *)
| NameOrPathLike.        (* '(name LIKE ? OR path LIKE ? OR fullPath LIKE ?)' *)

Definition arity (c : Cond) : nat :=
  match c with
  | NameOrPathLike => 3
  | _ => 1
  end.

(** [x LIKE p] with SQLite's defaults: [%] matches any run of
    characters, [_] any one character, letters match regardless of
    ASCII case; there is no escape character. *)
Fixpoint like (p s : str) : bool :=
  match p with
  | [] => match s with [] => true | _ => false end
  | c :: p' =>
      if Ascii.eqb c "%"%char then
        (fix any (s : str) : bool :=
           like p' s || match s with
                        | [] => false
                        | _ :: s' => any s'
                        end) s
      else
        match s with
        | [] => false
        | d :: s' =>
            (Ascii.eqb c "_"%char
             || Ascii.eqb (Js.lower_char c) (Js.lower_char d))
            && like p' s'
        end
  end.

Definition num_of (v : Value) : option Q :=
  match v with
  | Integer z => Some (inject_Z z)
  | Real q => Some q
  | Text _ => None
  end.

Definition size_cmp (op : SizeOp) (sz : Z) (q : Q) : bool :=
  match op, (inject_Z sz ?= q)%Q with
  | Gt, Datatypes.Gt => true
  | Ge, (Datatypes.Gt | Datatypes.Eq) => true
  | Lt, Datatypes.Lt => true
  | Le, (Datatypes.Lt | Datatypes.Eq) => true
  | EqOp, Datatypes.Eq => true
  | _, _ => false
  end.

Definition text_eq (col : str) (v : Value) : bool :=
  match v with
  | Text s => Js.str_eqb col s
  | _ => false
  end.

Definition text_like (col : str) (v : Value) : bool :=
  match v with
  | Text p => like p col
  | _ => false
  end.

(** One condition against one row, with its bound parameters. *)
Definition eval_cond (c : Cond) (ps : list Value) (r : Row) : bool :=
  match c, ps with
  | TypeEq, [v] => text_eq (col_type r) v
  | ExtensionEq, [v] => text_eq (col_extension r) v
  | SizeCmp op, [v] =>
      match num_of v with
      | Some q => size_cmp op (col_size r) q
      | None => false
      end
  | NameOrPathLike, [a; b; c] =>
      text_like (col_name r) a || text_like (col_path r) b
      || text_like (col_fullPath r) c
  | _, _ => false
  end.

(** The conjunction of the conditions; parameters are bound in order. *)
Fixpoint eval_where (cs : list Cond) (ps : list Value) (r : Row) : bool :=
  match cs with
  | [] => true
  | c :: cs' =>
      eval_cond c (firstn (arity c) ps) r
      && eval_where cs' (skipn (arity c) ps) r
  end.

(** [COLLATE NOCASE]: bytewise order after folding ASCII upper case. *)
Fixpoint nocase_le (a b : str) : bool :=
  match a, b with
  | [], _ => true
  | _ :: _, [] => false
  | x :: a', y :: b' =>
      let x' := Js.code (Js.lower_char x) in
      let y' := Js.code (Js.lower_char y) in
      if N.ltb x' y' then true
      else if N.ltb y' x' then false
      else nocase_le a' b'
  end.

Definition dir_rank (r : Row) : Z :=
  if (col_isDirectory r =? 1)%Z then 0%Z else 1%Z.

(** [ORDER BY CASE WHEN isDirectory = 1 THEN 0 ELSE 1 END,
    name COLLATE NOCASE] *)
Definition order_le (a b : Row) : bool :=
  if (dir_rank a <? dir_rank b)%Z then true
  else if (dir_rank b <? dir_rank a)%Z then false
  else nocase_le (col_name a) (col_name b).

(** [LIMIT n OFFSET k]: a negative limit is no limit, a negative offset
    is 0. *)
Definition limit_offset {A} (l : list A) (limit offset : Z) : list A :=
  let l' := skipn (Z.to_nat offset) l in
  if (limit <? 0)%Z then l' else firstn (Z.to_nat limit) l'.

Definition placeholders (cs : list Cond) : nat :=
  fold_right (fun c n => arity c + n)%nat 2%nat cs.

(** Running the SELECT with the given conditions and parameters, the
    last two parameters being the limit and the offset. *)
Definition all (c : Connection) (cs : list Cond) (params : list Value)
  : Exn + list Row :=
  match fault c with
  | Some msg => inl (Error msg)
  | None =>
      if negb (Nat.eqb (List.length params) (placeholders cs)) then
        inl (Error (lit "SQLITE_RANGE: column index out of range"))
      else
        let n := (List.length params - 2)%nat in
        match skipn n params with
        | [Integer limit; Integer offset] =>
            let hits := filter (eval_where cs (firstn n params)) (files c) in
            inr (limit_offset (Stable.sort order_le hits) limit offset)
        | _ => inl (Error (lit "SQLITE_MISMATCH: datatype mismatch"))
        end
  end.

(** [INSERT OR REPLACE]: rows that collide on the primary key [id] or
    on the unique column [fullPath] are deleted, the new row is
    appended. *)
Definition insert_or_replace (r : Row) (t : list Row) : list Row :=
  filter (fun x => negb (Js.str_eqb (col_id x) (col_id r)
                         || Js.str_eqb (col_fullPath x) (col_fullPath r))) t
  ++ [r].

Definition run_insert (c : Connection) (r : Row) : Exn + Connection :=
  match fault c with
  | Some msg => inl (Error msg)
  | None => inr (mkConnection (insert_or_replace r (files c)) None)
  end.

Definition run_delete_by_fullPath (c : Connection) (p : str)
  : Exn + Connection :=
  match fault c with
  | Some msg => inl (Error msg)
  | None =>
      inr (mkConnection
             (filter (fun x => negb (Js.str_eqb (col_fullPath x) p)) (files c))
             None)
  end.

Definition run_delete_all (c : Connection) : Exn + Connection :=
  match fault c with
  | Some msg => inl (Error msg)
  | None => inr (mkConnection [] None)
  end.

(** [SELECT COUNT( * ) as count FROM files] *)
Definition count (c : Connection) : Exn + Z :=
  match fault c with
  | Some msg => inl (Error msg)
  | None => inr (Z.of_nat (List.length (files c)))
  end.

End Sqlite.

(** ** DatabaseService, callback-based sqlite3 variant: [electron/services/database.ts] *)

Module DatabaseSqlite3.
Import Sqlite.

Record SearchTerms := mkSearchTerms {
  t_text : option str;
  t_type : option str;
  t_extension : option str;
  t_size : option str
}.

Definition typeAlias (typeValue : str) : str :=
  if Js.arr_includes [lit "image"; lit "img"; lit "picture"] typeValue
  then lit "IMAGE"
  else if Js.arr_includes [lit "video"; lit "movie"] typeValue
  then lit "VIDEO"
  else if Js.arr_includes [lit "audio"; lit "music"; lit "sound"] typeValue
  then lit "AUDIO"
  else if Js.arr_includes [lit "document"; lit "doc"; lit "text"] typeValue
  then lit "DOCUMENT"
  else if Js.arr_includes [lit "archive"; lit "zip"; lit "compressed"] typeValue
  then lit "ARCHIVE"
  else if Js.arr_includes [lit "folder"; lit "directory"; lit "dir"] typeValue
  then lit "DIRECTORY"
  else Js.toUpperCase typeValue.

(** The body of [for (const part of parts)]: the terms and the
    [textParts] collected so far. *)
Definition parsePart (acc : SearchTerms * list str) (part : str)
  : SearchTerms * list str :=
  let (terms, textParts) := acc in
  if Js.startsWith part (lit "type:") then
    (mkSearchTerms (t_text terms)
       (Some (typeAlias (Js.toLowerCase (skipn 5 part))))
       (t_extension terms) (t_size terms), textParts)
  else if Js.startsWith part (lit "ext:") then
    (mkSearchTerms (t_text terms) (t_type terms)
       (Some (skipn 4 part)) (t_size terms), textParts)
  else if Js.startsWith part (lit "size:") then
    (mkSearchTerms (t_text terms) (t_type terms) (t_extension terms)
       (Some (skipn 5 part)), textParts)
  else (terms, textParts ++ [part]).

Definition parseSearchQuery (query : str) : SearchTerms :=
  let parts := Js.split_ws query in
  let (terms, textParts) :=
    fold_left parsePart parts (mkSearchTerms None None None None, []) in
  match textParts with
  | [] => terms
  | _ => mkSearchTerms (Some (Js.join (lit " ") textParts))
           (t_type terms) (t_extension terms) (t_size terms)
  end.

(** The groups of
    [/^([<>]=?)?(\d+(?:\.\d+)?)(kb|mb|gb|tb)?$/i]. *)
Definition sizeQueryGroups (s : str) : option (option str * str * option str) :=
  let '(operator, r1) :=
    match s with
    | c :: r =>
        if Ascii.eqb c "<"%char || Ascii.eqb c ">"%char then
          match r with
          | e :: r' =>
              if Ascii.eqb e "="%char then (Some [c; e], r') else (Some [c], r)
          | [] => (Some [c], r)
          end
        else (None, s)
    | [] => (None, s)
    end in
  let '(ip, r2) := Re.span Js.is_digit r1 in
  match ip with
  | [] => None
  | _ =>
      let '(value, r3) :=
        match r2 with
        | d :: r =>
            if Ascii.eqb d "."%char then
              let '(fp, r') := Re.span Js.is_digit r in
              match fp with
              | [] => (ip, r2)
              | _ => (ip ++ d :: fp, r')
              end
            else (ip, r2)
        | [] => (ip, r2)
        end in
      match r3 with
      | [] => Some (operator, value, None)
      | _ =>
          if Js.arr_includes [lit "kb"; lit "mb"; lit "gb"; lit "tb"]
               (Js.toLowerCase r3)
          then Some (operator, value, Some r3)
          else None
      end
  end.

Definition multipliers (unit : str) : Q :=
  if Js.str_eqb unit (lit "kb") then inject_Z 1024
  else if Js.str_eqb unit (lit "mb") then inject_Z (1024 * 1024)
  else if Js.str_eqb unit (lit "gb") then inject_Z (1024 * 1024 * 1024)
  else if Js.str_eqb unit (lit "tb") then inject_Z (1024 * 1024 * 1024 * 1024)
  else 1%Q.

Definition parseSizeQuery (sizeQuery : str) : option (Cond * list Value) :=
  match sizeQueryGroups sizeQuery with
  | None => None
  | Some (operator, value, unit) =>
      let operator := match operator with Some o => o | None => lit "=" end in
      let unit := match unit with Some u => u | None => lit "b" end in
      let bytes := (Js.parseFloat value * multipliers (Js.toLowerCase unit))%Q in
      let condition :=
        if Js.str_eqb operator (lit ">") then SizeCmp Gt
        else if Js.str_eqb operator (lit ">=") then SizeCmp Ge
        else if Js.str_eqb operator (lit "<") then SizeCmp Lt
        else if Js.str_eqb operator (lit "<=") then SizeCmp Le
        else SizeCmp EqOp in
      Some (condition, [Real bytes])
  end.

(** [if (x)] on an optional string: defined and not empty. *)
Definition truthy (x : option str) : option str :=
  match x with
  | Some ((_ :: _) as v) => Some v
  | _ => None
  end.

Definition rowToFileItem (row : Row) : FileItem :=
  mkFileItem (col_id row) (col_name row) (col_path row) (col_fullPath row)
    (col_extension row) (col_size row) (col_dateModified row)
    (col_dateCreated row) (col_isDirectory row =? 1)%Z (col_type row).

(** The WHERE conditions and their parameters. *)
Definition whereClause (searchTerms : SearchTerms) : list Cond * list Value :=
  let w0 : list Cond * list Value := ([], []) in
  let w1 :=
    match truthy (t_type searchTerms) with
    | Some ty => (fst w0 ++ [TypeEq], snd w0 ++ [Text ty])
    | None => w0
    end in
  let w2 :=
    match truthy (t_extension searchTerms) with
    | Some ext =>
        (fst w1 ++ [ExtensionEq],
         snd w1 ++ [Text (if Js.startsWith ext (lit ".") then ext
                          else lit "." ++ ext)])
    | None => w1
    end in
  let w3 :=
    match truthy (t_size searchTerms) with
    | Some sz =>
        match parseSizeQuery sz with
        | Some (condition, params) => (fst w2 ++ [condition], snd w2 ++ params)
        | None => w2
        end
    | None => w2
    end in
  match truthy (t_text searchTerms) with
  | Some txt =>
      let likeQuery := Text (lit "%" ++ txt ++ lit "%") in
      (fst w3 ++ [NameOrPathLike], snd w3 ++ [likeQuery; likeQuery; likeQuery])
  | None => w3
  end.

(** [searchFiles]: the promise settles from the callback of [db.all]. *)
Definition searchFiles (db : option Connection) (query : str)
    (limit offset : Z) : Exn + list FileItem :=
  match db with
  | None => inl (Error (lit "Database not initialized"))
  | Some conn =>
      let searchTerms := parseSearchQuery query in
      let (whereConditions, sqlParams) := whereClause searchTerms in
      let params :=
        match whereConditions with
        | _ :: _ => sqlParams ++ [Integer limit; Integer offset]
        | [] => [Integer limit; Integer offset]
        end in
      (* db.all(sql, params, (err, rows) => err ? reject(err)
                                              : resolve(rows.map(...))) *)
      match all conn whereConditions params with
      | inl err => inl err
      | inr rows => inr (map rowToFileItem rows)
      end
  end.

Definition fileParams (file : FileItem) : Row :=
  mkRow (id file) (name file) (path file) (fullPath file) (extension file)
    (size file) (dateModified file) (dateCreated file)
    (if isDirectory file then 1%Z else 0%Z) (type file).

(** The parameters of [insertFiles], with its [|| ''], [|| 0] and
    [|| 'unknown'] defaults. *)
Definition batchParams (file : FileItem) : Row :=
  mkRow (id file) (name file) (path file) (fullPath file) (extension file)
    (size file) (dateModified file) (dateCreated file)
    (if isDirectory file then 1%Z else 0%Z)
    (match type file with [] => lit "unknown" | t => t end).

Definition insertFile (db : option Connection) (file : FileItem)
  : Exn + option Connection :=
  match db with
  | None => inl (Error (lit "Database not initialized"))
  | Some conn =>
      match run_insert conn (fileParams file) with
      | inl err => inl err
      | inr conn' => inr (Some conn')
      end
  end.

(** One transaction: every row is written, or none is. *)
Definition insertFiles (db : option Connection) (files : list FileItem)
  : Exn + option Connection :=
  match db with
  | None => inl (Error (lit "Database not initialized"))
  | Some conn =>
      match files with
      | [] => inr db
      | _ =>
          match fault conn with
          | Some msg => inl (Error msg)
          | None =>
              inr (Some (mkConnection
                           (fold_left (fun t f => insert_or_replace (batchParams f) t)
                              files (Sqlite.files conn))
                           None))
          end
      end
  end.

Definition deleteFile (db : option Connection) (fullPath : str)
  : Exn + option Connection :=
  match db with
  | None => inl (Error (lit "Database not initialized"))
  | Some conn =>
      match run_delete_by_fullPath conn fullPath with
      | inl err => inl err
      | inr conn' => inr (Some conn')
      end
  end.

Definition clearAll (db : option Connection) : Exn + option Connection :=
  match db with
  | None => inl (Error (lit "Database not initialized"))
  | Some conn =>
      match run_delete_all conn with
      | inl err => inl err
      | inr conn' => inr (Some conn')
      end
  end.

Definition getFileCount (db : option Connection) : Exn + Z :=
  match db with
  | None => inl (Error (lit "Database not initialized"))
  | Some conn => count conn
  end.

End DatabaseSqlite3.

(** ** DatabaseService, synchronous better-sqlite3 variant: [src/unnamed/part_000] *)

Module DatabaseBetterSqlite3.
Import Sqlite.

Record SearchTerms := mkSearchTerms {
  t_text : option str;
  t_type : option str;
  t_extension : option str;
  t_size : option str
}.

Definition typeAlias (typeValue : str) : str :=
  if Js.arr_includes [lit "image"; lit "img"; lit "picture"] typeValue
  then lit "IMAGE"
  else if Js.arr_includes [lit "video"; lit "movie"] typeValue
  then lit "VIDEO"
  else if Js.arr_includes [lit "audio"; lit "music"; lit "sound"] typeValue
  then lit "AUDIO"
  else if Js.arr_includes [lit "document"; lit "doc"; lit "text"] typeValue
  then lit "DOCUMENT"
  else if Js.arr_includes [lit "archive"; lit "zip"; lit "compressed"] typeValue
  then lit "ARCHIVE"
  else if Js.arr_includes [lit "folder"; lit "directory"; lit "dir"] typeValue
  then lit "DIRECTORY"
  else Js.toUpperCase typeValue.

(** The body of [for (const part of parts)]: the terms and the
    [textParts] collected so far. *)
Definition parsePart (acc : SearchTerms * list str) (part : str)
  : SearchTerms * list str :=
  let (terms, textParts) := acc in
  if Js.startsWith part (lit "type:") then
    (mkSearchTerms (t_text terms)
       (Some (typeAlias (Js.toLowerCase (skipn 5 part))))
       (t_extension terms) (t_size terms), textParts)
  else if Js.startsWith part (lit "ext:") then
    (mkSearchTerms (t_text terms) (t_type terms)
       (Some (skipn 4 part)) (t_size terms), textParts)
  else if Js.startsWith part (lit "size:") then
    (mkSearchTerms (t_text terms) (t_type terms) (t_extension terms)
       (Some (skipn 5 part)), textParts)
  else (terms, textParts ++ [part]).

Definition parseSearchQuery (query : str) : SearchTerms :=
  let parts := Js.split_ws query in
  let (terms, textParts) :=
    fold_left parsePart parts (mkSearchTerms None None None None, []) in
  match textParts with
  | [] => terms
  | _ => mkSearchTerms (Some (Js.join (lit " ") textParts))
           (t_type terms) (t_extension terms) (t_size terms)
  end.

(** The groups of
    [/^([<>]=?)?(\d+(?:\.\d+)?)(kb|mb|gb|tb)?$/i]. *)
Definition sizeQueryGroups (s : str) : option (option str * str * option str) :=
  let '(operator, r1) :=
    match s with
    | c :: r =>
        if Ascii.eqb c "<"%char || Ascii.eqb c ">"%char then
          match r with
          | e :: r' =>
              if Ascii.eqb e "="%char then (Some [c; e], r') else (Some [c], r)
          | [] => (Some [c], r)
          end
        else (None, s)
    | [] => (None, s)
    end in
  let '(ip, r2) := Re.span Js.is_digit r1 in
  match ip with
  | [] => None
  | _ =>
      let '(value, r3) :=
        match r2 with
        | d :: r =>
            if Ascii.eqb d "."%char then
              let '(fp, r') := Re.span Js.is_digit r in
              match fp with
              | [] => (ip, r2)
              | _ => (ip ++ d :: fp, r')
              end
            else (ip, r2)
        | [] => (ip, r2)
        end in
      match r3 with
      | [] => Some (operator, value, None)
      | _ =>
          if Js.arr_includes [lit "kb"; lit "mb"; lit "gb"; lit "tb"]
               (Js.toLowerCase r3)
          then Some (operator, value, Some r3)
          else None
      end
  end.

Definition multipliers (unit : str) : Q :=
  if Js.str_eqb unit (lit "kb") then inject_Z 1024
  else if Js.str_eqb unit (lit "mb") then inject_Z (1024 * 1024)
  else if Js.str_eqb unit (lit "gb") then inject_Z (1024 * 1024 * 1024)
  else if Js.str_eqb unit (lit "tb") then inject_Z (1024 * 1024 * 1024 * 1024)
  else 1%Q.

Definition parseSizeQuery (sizeQuery : str) : option (Cond * list Value) :=
  match sizeQueryGroups sizeQuery with
  | None => None
  | Some (operator, value, unit) =>
      let operator := match operator with Some o => o | None => lit "=" end in
      let unit := match unit with Some u => u | None => lit "b" end in
      let bytes := (Js.parseFloat value * multipliers (Js.toLowerCase unit))%Q in
      let condition :=
        if Js.str_eqb operator (lit ">") then SizeCmp Gt
        else if Js.str_eqb operator (lit ">=") then SizeCmp Ge
        else if Js.str_eqb operator (lit "<") then SizeCmp Lt
        else if Js.str_eqb operator (lit "<=") then SizeCmp Le
        else SizeCmp EqOp in
      Some (condition, [Real bytes])
  end.

(** [if (x)] on an optional string: defined and not empty. *)
Definition truthy (x : option str) : option str :=
  match x with
  | Some ((_ :: _) as v) => Some v
  | _ => None
  end.

Definition rowToFileItem (row : Row) : FileItem :=
  mkFileItem (col_id row) (col_name row) (col_path row) (col_fullPath row)
    (col_extension row) (col_size row) (col_dateModified row)
    (col_dateCreated row) (col_isDirectory row =? 1)%Z (col_type row).

(** The WHERE conditions and their parameters. *)
Definition whereClause (searchTerms : SearchTerms) : list Cond * list Value :=
  let w0 : list Cond * list Value := ([], []) in
  let w1 :=
    match truthy (t_type searchTerms) with
    | Some ty => (fst w0 ++ [TypeEq], snd w0 ++ [Text ty])
    | None => w0
    end in
  let w2 :=
    match truthy (t_extension searchTerms) with
    | Some ext =>
        (fst w1 ++ [ExtensionEq],
         snd w1 ++ [Text (if Js.startsWith ext (lit ".") then ext
                          else lit "." ++ ext)])
    | None => w1
    end in
  let w3 :=
    match truthy (t_size searchTerms) with
    | Some sz =>
        match parseSizeQuery sz with
        | Some (condition, params) => (fst w2 ++ [condition], snd w2 ++ params)
        | None => w2
        end
    | None => w2
    end in
  match truthy (t_text searchTerms) with
  | Some txt =>
      let likeQuery := Text (lit "%" ++ txt ++ lit "%") in
      (fst w3 ++ [NameOrPathLike], snd w3 ++ [likeQuery; likeQuery; likeQuery])
  | None => w3
  end.

(** [searchFiles]: the statement runs synchronously inside a
    [try] whose [catch] logs and rethrows. *)
Definition searchFiles (db : option Connection) (query : str)
    (limit offset : Z) : Exn + list FileItem :=
  match db with
  | None => inl (Error (lit "Database not initialized"))
  | Some conn =>
      let searchTerms := parseSearchQuery query in
      let (whereConditions, sqlParams) := whereClause searchTerms in
      let params :=
        match whereConditions with
        | _ :: _ => sqlParams ++ [Integer limit; Integer offset]
        | [] => [Integer limit; Integer offset]
        end in
      (* try { rows = db.prepare(sql).all(params); return rows.map(...) }
         catch (error) { throw error } *)
      let attempt :=
        match all conn whereConditions params with
        | inl err => inl err
        | inr rows => inr (map rowToFileItem rows)
        end in
      match attempt with
      | inl error => inl error
      | inr files => inr files
      end
  end.

Definition fileParams (file : FileItem) : Row :=
  mkRow (id file) (name file) (path file) (fullPath file) (extension file)
    (size file) (dateModified file) (dateCreated file)
    (if isDirectory file then 1%Z else 0%Z) (type file).

(** The parameters of [insertFiles], with its [|| ''], [|| 0] and
    [|| 'unknown'] defaults. *)
Definition batchParams (file : FileItem) : Row :=
  mkRow (id file) (name file) (path file) (fullPath file) (extension file)
    (size file) (dateModified file) (dateCreated file)
    (if isDirectory file then 1%Z else 0%Z)
    (match type file with [] => lit "unknown" | t => t end).

Definition insertFile (db : option Connection) (file : FileItem)
  : Exn + option Connection :=
  match db with
  | None => inl (Error (lit "Database not initialized"))
  | Some conn =>
      match run_insert conn (fileParams file) with
      | inl err => inl err
      | inr conn' => inr (Some conn')
      end
  end.

(** One transaction: every row is written, or none is. *)
Definition insertFiles (db : option Connection) (files : list FileItem)
  : Exn + option Connection :=
  match db with
  | None => inl (Error (lit "Database not initialized"))
  | Some conn =>
      match files with
      | [] => inr db
      | _ =>
          match fault conn with
          | Some msg => inl (Error msg)
          | None =>
              inr (Some (mkConnection
                           (fold_left (fun t f => insert_or_replace (batchParams f) t)
                              files (Sqlite.files conn))
                           None))
          end
      end
  end.

Definition deleteFile (db : option Connection) (fullPath : str)
  : Exn + option Connection :=
  match db with
  | None => inl (Error (lit "Database not initialized"))
  | Some conn =>
      match run_delete_by_fullPath conn fullPath with
      | inl err => inl err
      | inr conn' => inr (Some conn')
      end
  end.

Definition clearAll (db : option Connection) : Exn + option Connection :=
  match db with
  | None => inl (Error (lit "Database not initialized"))
  | Some conn =>
      match run_delete_all conn with
      | inl err => inl err
      | inr conn' => inr (Some conn')
      end
  end.

Definition getFileCount (db : option Connection) : Exn + Z :=
  match db with
  | None => inl (Error (lit "Database not initialized"))
  | Some conn => count conn
  end.

End DatabaseBetterSqlite3.

(** ** SearchService: [electron/services/search.ts] *)

Module SearchService.

Record Operators := mkOperators {
  op_extensions : option (list str);
  op_sizeMin : option Q;
  op_sizeMax : option Q;
  op_dateModifiedFrom : option Z;
  op_dateModifiedTo : option Z;
  op_fileTypes : option (list str)
}.

Definition no_operators : Operators :=
  mkOperators None None None None None None.

(** *** The operator expressions, tried at the head of the input *)

(** [/ext:(\w+)/gi] and [/type:(\w+)/gi]: a keyword and a non-empty run
    of word characters. *)
Definition keyword_word_at (kw : str) (s : str) : option nat :=
  match Re.prefix_ci kw s with
  | None => None
  | Some r =>
      match fst (Re.span Js.is_word r) with
      | [] => None
      | w => Some (List.length kw + List.length w)%nat
      end
  end.

Definition ext_at : Re.matcher := keyword_word_at (lit "ext:").
Definition type_at : Re.matcher := keyword_word_at (lit "type:").

(** The groups of [/size:([><]?)(\d+)(kb|mb|gb)?/i] and the length of
    the match. *)
Record SizeGroups := mkSizeGroups {
  g_operator : str;
  g_value : str;
  g_unit : option str;
  g_length : nat
}.

Definition unit_at (r : str) : option str :=
  match Re.prefix_ci (lit "kb") r with
  | Some _ => Some (firstn 2 r)
  | None =>
      match Re.prefix_ci (lit "mb") r with
      | Some _ => Some (firstn 2 r)
      | None =>
          match Re.prefix_ci (lit "gb") r with
          | Some _ => Some (firstn 2 r)
          | None => None
          end
      end
  end.

Definition digits_unit_at (operator : str) (r : str) : option SizeGroups :=
  let (ds, r') := Re.span Js.is_digit r in
  match ds with
  | [] => None
  | _ =>
      let u := unit_at r' in
      Some (mkSizeGroups operator ds u
              (5 + List.length operator + List.length ds
               + match u with Some x => List.length x | None => 0 end))
  end.

Definition size_groups_at (s : str) : option SizeGroups :=
  match Re.prefix_ci (lit "size:") s with
  | None => None
  | Some r =>
      let with_operator :=
        match r with
        | c :: r' =>
            if Ascii.eqb c ">"%char || Ascii.eqb c "<"%char
            then digits_unit_at [c] r'
            else None
        | [] => None
        end in
      match with_operator with
      | Some g => Some g
      | None => digits_unit_at [] r
      end
  end.

Definition size_at : Re.matcher :=
  fun s => option_map g_length (size_groups_at s).

Definition dateWords : list str :=
  [lit "today"; lit "yesterday"; lit "week"; lit "month"; lit "year"].

(** [/date:(today|yesterday|week|month|year)/gi] *)
Definition date_at : Re.matcher :=
  fun s =>
    match Re.prefix_ci (lit "date:") s with
    | None => None
    | Some r =>
        match find (fun w => match Re.prefix_ci w r with
                             | Some _ => true
                             | None => false
                             end) dateWords with
        | Some w => Some (5 + List.length w)%nat
        | None => None
        end
    end.

(** [match.split(':')[1]] *)
Definition afterColon (m : str) : str := nth 1 (Js.split_on ":"%char m) [].

(** *** parseSearchOperators *)

Definition sizeOperator (ops : Operators) (m : str) : Operators :=
  match Re.exec size_groups_at m with
  | None => ops
  | Some parts =>
      let operator :=
        match g_operator parts with [] => lit "=" | o => o end in
      let value := Js.parseInt (g_value parts) in
      let unit :=
        Js.toLowerCase (match g_unit parts with Some u => u | None => lit "b" end) in
      let bytes :=
        if Js.str_eqb unit (lit "kb") then (value * 1024)%Z
        else if Js.str_eqb unit (lit "mb") then (value * (1024 * 1024))%Z
        else if Js.str_eqb unit (lit "gb") then (value * (1024 * 1024 * 1024))%Z
        else value in
      if Js.str_eqb operator (lit ">") then
        mkOperators (op_extensions ops) (Some (inject_Z bytes)) (op_sizeMax ops)
          (op_dateModifiedFrom ops) (op_dateModifiedTo ops) (op_fileTypes ops)
      else if Js.str_eqb operator (lit "<") then
        mkOperators (op_extensions ops) (op_sizeMin ops) (Some (inject_Z bytes))
          (op_dateModifiedFrom ops) (op_dateModifiedTo ops) (op_fileTypes ops)
      else
        mkOperators (op_extensions ops)
          (Some (inject_Z bytes * (9 # 10))%Q)
          (Some (inject_Z bytes * (11 # 10))%Q)
          (op_dateModifiedFrom ops) (op_dateModifiedTo ops) (op_fileTypes ops)
  end.

Definition dateOperator (now : Z) (ops : Operators) (dateType : str)
  : Operators :=
  let midnight :=
    JsDate.ofYMD (JsDate.getFullYear now) (JsDate.getMonth now)
      (JsDate.getDate now) in
  let set from to :=
    mkOperators (op_extensions ops) (op_sizeMin ops) (op_sizeMax ops)
      from to (op_fileTypes ops) in
  if Js.str_eqb dateType (lit "today") then
    set (Some midnight) (op_dateModifiedTo ops)
  else if Js.str_eqb dateType (lit "yesterday") then
    let yesterday := JsDate.setDate now (JsDate.getDate now - 1) in
    set (Some (JsDate.ofYMD (JsDate.getFullYear yesterday)
                 (JsDate.getMonth yesterday) (JsDate.getDate yesterday)))
        (Some midnight)
  else if Js.str_eqb dateType (lit "week") then
    set (Some (JsDate.setDate now (JsDate.getDate now - 7)))
        (op_dateModifiedTo ops)
  else if Js.str_eqb dateType (lit "month") then
    set (Some (JsDate.setMonth now (JsDate.getMonth now - 1)))
        (op_dateModifiedTo ops)
  else if Js.str_eqb dateType (lit "year") then
    set (Some (JsDate.setFullYear now (JsDate.getFullYear now - 1)))
        (op_dateModifiedTo ops)
  else ops.

Definition fileTypeAlias (type : str) : str :=
  if Js.arr_includes [lit "doc"; lit "document"; lit "documents"] type
  then FileType.DOCUMENT
  else if Js.arr_includes [lit "img"; lit "image"; lit "images"] type
  then FileType.IMAGE
  else if Js.arr_includes [lit "vid"; lit "video"; lit "videos"] type
  then FileType.VIDEO
  else if Js.arr_includes [lit "audio"; lit "music"] type
  then FileType.AUDIO
  else if Js.arr_includes [lit "archive"; lit "zip"] type
  then FileType.ARCHIVE
  else if Js.arr_includes [lit "code"; lit "source"] type
  then FileType.CODE
  else if Js.arr_includes [lit "folder"; lit "directory"; lit "dir"] type
  then FileType.DIRECTORY
  else type.

Definition parseSearchOperators (now : Z) (query : str) : str * Operators :=
  let operators := no_operators in
  let cleanQuery := query in
  (* ext:pdf *)
  let '(cleanQuery, operators) :=
    match Re.match_all ext_at 0 query with
    | [] => (cleanQuery, operators)
    | extMatch =>
        (Js.trim (Re.replace_all ext_at 0 cleanQuery),
         mkOperators
           (Some (map (fun m => lit "." ++ Js.toLowerCase (afterColon m)) extMatch))
           (op_sizeMin operators) (op_sizeMax operators)
           (op_dateModifiedFrom operators) (op_dateModifiedTo operators)
           (op_fileTypes operators))
    end in
  (* size:>100MB, size:<1GB *)
  let '(cleanQuery, operators) :=
    match Re.match_all size_at 0 query with
    | [] => (cleanQuery, operators)
    | sizeMatch =>
        (Js.trim (Re.replace_all size_at 0 cleanQuery),
         fold_left sizeOperator sizeMatch operators)
    end in
  (* date:today, date:week, date:month *)
  let '(cleanQuery, operators) :=
    match Re.match_all date_at 0 query with
    | [] => (cleanQuery, operators)
    | m0 :: _ =>
        (Js.trim (Re.replace_all date_at 0 cleanQuery),
         dateOperator now operators (Js.toLowerCase (afterColon m0)))
    end in
  (* type:image, type:document *)
  match Re.match_all type_at 0 query with
  | [] => (cleanQuery, operators)
  | typeMatch =>
      (Js.trim (Re.replace_all type_at 0 cleanQuery),
       mkOperators (op_extensions operators)
         (op_sizeMin operators) (op_sizeMax operators)
         (op_dateModifiedFrom operators) (op_dateModifiedTo operators)
         (Some (map (fun m => fileTypeAlias (Js.toLowerCase (afterColon m)))
                  typeMatch)))
  end.

(** *** combineFilters *)

(** The [filters] argument of [search]: absent (the default [{}]
    applies), [null], or an object. *)
Inductive FiltersArg :=
| FUndefined
| FNull
| FObject (f : SearchFilters).

(** The object [combineFilters] returns: every field is set. *)
Record Combined := mkCombined {
  c_fileTypes : list str;
  c_extensions : list str;
  c_sizeMin : Q;
  c_sizeMax : QInf;
  c_dateModifiedFrom : option Z;
  c_dateModifiedTo : option Z;
  c_includeDirectories : option bool
}.

Definition q_nonzero (q : Q) : bool := negb (Qeq_bool q 0).
Definition q_lt (a b : Q) : bool := negb (Qle_bool b a).

(** [x || 0] *)
Definition orZero (x : option Q) : Q :=
  match x with
  | Some q => if q_nonzero q then q else 0%Q
  | None => 0%Q
  end.

(** [x || Infinity] *)
Definition orInfinity (x : option Q) : QInf :=
  match x with
  | Some q => if q_nonzero q then Fin q else Infinity
  | None => Infinity
  end.

Definition math_max (a b : Q) : Q := if Qle_bool a b then b else a.

Definition math_min (a b : QInf) : QInf :=
  match a, b with
  | Infinity, _ => b
  | _, Infinity => a
  | Fin x, Fin y => if Qle_bool x y then Fin x else Fin y
  end.

Definition orElse {A} (x y : option A) : option A :=
  match x with
  | Some _ => x
  | None => y
  end.

Definition orEmpty (x : option (list str)) : list str :=
  match x with
  | Some l => l
  | None => []
  end.

Definition combineFilters (filters : FiltersArg) (operators : Operators)
  : Exn + Combined :=
  match filters with
  | FNull =>
      inl (TypeError (lit "Cannot read properties of null (reading 'extensions')"))
  | _ =>
      let filters :=
        match filters with FObject f => f | _ => no_filters end in
      inr (mkCombined
             (orEmpty (fileTypes filters) ++ orEmpty (op_fileTypes operators))
             (orEmpty (extensions filters) ++ orEmpty (op_extensions operators))
             (math_max (orZero (sizeMin filters)) (orZero (op_sizeMin operators)))
             (math_min (orInfinity (sizeMax filters))
                       (orInfinity (op_sizeMax operators)))
             (orElse (op_dateModifiedFrom operators) (dateModifiedFrom filters))
             (orElse (op_dateModifiedTo operators) (dateModifiedTo filters))
             (includeDirectories filters))
  end.

(** *** shouldUseFuzzySearch *)

(** [/[^a-zA-Z0-9\s\-_.]/] *)
Definition is_plain (c : ascii) : bool :=
  Js.is_lower c || Js.is_upper c || Js.is_digit c || Js.is_space c
  || Ascii.eqb c "-"%char || Ascii.eqb c "_"%char || Ascii.eqb c "."%char.

Definition shouldUseFuzzySearch (query : str) : bool :=
  (3 <? List.length query)%nat
  && (Js.includes query (lit "*")
      || Js.includes query (lit "?")
      || existsb (fun c => negb (is_plain c)) query).

(** *** applyFilters *)

Definition keep (filters : Combined) (file : FileItem) : bool :=
  if match c_fileTypes filters with
     | _ :: _ => negb (Js.arr_includes (c_fileTypes filters) (type file))
     | [] => false
     end then false
  else if match c_extensions filters with
          | _ :: _ => negb (Js.arr_includes (c_extensions filters) (extension file))
          | [] => false
          end then false
  else if q_nonzero (c_sizeMin filters)
          && q_lt (inject_Z (size file)) (c_sizeMin filters) then false
  else if match c_sizeMax filters with
          | Fin m => q_nonzero m && q_lt m (inject_Z (size file))
          | Infinity => false
          end then false
  else if match c_dateModifiedFrom filters with
          | Some from => (dateModified file <? from)%Z
          | None => false
          end then false
  else if match c_dateModifiedTo filters with
          | Some to => (to <? dateModified file)%Z
          | None => false
          end then false
  else if match c_includeDirectories filters with
          | Some false => isDirectory file
          | _ => false
          end then false
  else true.

Definition applyFilters (files : list FileItem) (filters : Combined)
  : list FileItem :=
  filter (keep filters) files.

(** *** calculateRelevanceScore and sortResults *)

Definition calculateRelevanceScore (now : Z) (file : FileItem) (query : str)
  : Z :=
  let queryLower := Js.toLowerCase query in
  let nameLower := Js.toLowerCase (name file) in
  let pathLower := Js.toLowerCase (path file) in
  let score := 0%Z in
  let score :=
    if Js.str_eqb nameLower queryLower then (score + 100)%Z
    else if Js.startsWith nameLower queryLower then (score + 80)%Z
    else if Js.includes nameLower queryLower then (score + 60)%Z
    else score in
  let score :=
    if Js.includes pathLower queryLower then (score + 20)%Z else score in
  (* daysSinceModified < 7, on the milliseconds *)
  let sinceModified := (now - dateModified file)%Z in
  let score :=
    if (sinceModified <? 7 * JsDate.msPerDay)%Z then (score + 10)%Z
    else if (sinceModified <? 30 * JsDate.msPerDay)%Z then (score + 5)%Z
    else score in
  let score :=
    if (size file <? 1024 * 1024)%Z then (score + 5)%Z else score in
  score.

Definition sortResults (now : Z) (files : list FileItem) (query : str)
  : list FileItem :=
  match Js.trim query with
  | [] =>
      (* b.dateModified - a.dateModified *)
      Stable.sort (fun a b => (dateModified b <=? dateModified a)%Z) files
  | _ =>
      (* bScore - aScore *)
      Stable.sort
        (fun a b => (calculateRelevanceScore now b query
                     <=? calculateRelevanceScore now a query)%Z)
        files
  end.

(** *** The fuzzy index *)

Record FuseOptions := mkFuseOptions {
  keys : list (str * Q);
  threshold : Q;
  distance : Z;
  includeScore : bool;
  includeMatches : bool
}.

Definition fuseOptions : FuseOptions :=
  mkFuseOptions
    [(lit "name", 7 # 10); (lit "path", 2 # 10); (lit "extension", 1 # 10)]
    (4 # 10) 100 true true.

(** [new Fuse(docs, options)] *)
Record Fuse := mkFuse {
  docs : list FileItem;
  options : FuseOptions
}.

(** The fields of a [SearchService] instance besides [db]. *)
Record State := mkState {
  fuseIndex : option Fuse;
  lastIndexUpdate : Z
}.

Definition initial : State := mkState None 0.

Definition indexUpdateThreshold : Z := 5 * 60 * 1000.

(** The calls a search makes to its two back ends. *)
Inductive Call :=
| DbSearchFiles (query : str) (limit offset : Z)
| FuseSearch (query : str) (limit : Z).

Section WithBackends.

(** The store, shared with the indexer and the watcher. *)
Variable db : option Sqlite.Connection.

(** Fuse.js: the items [index.search(query, { limit })] returns, best
    match first. *)
Variable fuse_search : Fuse -> str -> Z -> list FileItem.

Definition databaseSearch (query : str) (limit offset : Z)
  : (Exn + list FileItem) * list Call :=
  (DatabaseSqlite3.searchFiles db query (limit * 2) offset,
   [DbSearchFiles query (limit * 2) offset]).

Definition searchWithFilters (limit offset : Z)
  : (Exn + list FileItem) * list Call :=
  (DatabaseSqlite3.searchFiles db [] (limit * 2) offset,
   [DbSearchFiles [] (limit * 2) offset]).

Definition updateFuseIndex (st : State) (now : Z) : State * list Call :=
  let fresh :=
    match fuseIndex st with
    | Some _ => (now - lastIndexUpdate st <? indexUpdateThreshold)%Z
    | None => false
    end in
  if fresh then (st, [])
  else
    match DatabaseSqlite3.searchFiles db [] 10000 0 with
    | inr allFiles =>
        (mkState (Some (mkFuse allFiles fuseOptions)) now,
         [DbSearchFiles [] 10000 0])
    | inl _ =>
        (* catch: the failure is logged, the old index stays *)
        (st, [DbSearchFiles [] 10000 0])
    end.

Definition fuzzySearch (st : State) (now : Z) (query : str) (limit : Z)
  : list FileItem * State * list Call :=
  let (st', calls) := updateFuseIndex st now in
  match fuseIndex st' with
  | None => ([], st', calls)
  | Some index =>
      (fuse_search index query (limit * 2), st',
       calls ++ [FuseSearch query (limit * 2)])
  end.

(** The body of the [try] block of [search]. *)
Definition search_try (st : State) (now : Z) (query : str)
    (filters : FiltersArg) (limit offset : Z)
  : (Exn + SearchResult) * State * list Call :=
  let (cleanQuery, operators) := parseSearchOperators now query in
  match combineFilters filters operators with
  | inl e => (inl e, st, [])
  | inr combinedFilters =>
      let '(retrieved, st', calls) :=
        match Js.trim cleanQuery with
        | [] =>
            let (r, calls) := searchWithFilters limit offset in (r, st, calls)
        | _ =>
            if shouldUseFuzzySearch cleanQuery then
              let '(r, st', calls) := fuzzySearch st now cleanQuery limit in
              (inr r, st', calls)
            else
              let (r, calls) := databaseSearch cleanQuery limit offset in
              (r, st, calls)
        end in
      match retrieved with
      | inl e => (inl e, st', calls)
      | inr results =>
          let results := applyFilters results combinedFilters in
          let results := sortResults now results cleanQuery in
          let paginatedResults := Js.slice results offset (offset + limit) in
          (inr (mkSearchResult paginatedResults
                  (Z.of_nat (List.length results)) query),
           st', calls)
      end
  end.

Definition search (st : State) (now : Z) (query : str)
    (filters : FiltersArg) (limit offset : Z)
  : SearchResult * State * list Call :=
  match search_try st now query filters limit offset with
  | (inr result, st', calls) => (result, st', calls)
  | (inl _, st', calls) => (mkSearchResult [] 0 query, st', calls)
  end.

End WithBackends.

End SearchService.

(** ** The platform: Node's [path] module and [process.platform]

    [path.sep] and the [path] functions differ between platforms, so the
    services are parameterised by them.  [Posix] is Node's [path.posix]
    with the working directory at the root. *)

Record Platform := mkPlatform {
  platform : str;
  sep : ascii;
  normalize : str -> str;
  join : str -> str -> str;
  dirname : str -> str;
  basename : str -> str;
  extname : str -> str;
  relative : str -> str -> str
}.

Module Posix.

Definition slash : ascii := "/"%char.
Definition is_slash (c : ascii) : bool := Ascii.eqb c slash.

(** [normalizeString]: drop empty and [.] segments, resolve [..]
    against the segments kept so far ([acc] is reversed). *)
Fixpoint normalizeSegments (allowAboveRoot : bool) (segs : list str)
    (acc : list str) : list str :=
  match segs with
  | [] => rev acc
  | seg :: segs' =>
      if Js.str_eqb seg [] || Js.str_eqb seg (lit ".") then
        normalizeSegments allowAboveRoot segs' acc
      else if Js.str_eqb seg (lit "..") then
        match acc with
        | top :: acc' =>
            if Js.str_eqb top (lit "..")
            then normalizeSegments allowAboveRoot segs' (seg :: acc)
            else normalizeSegments allowAboveRoot segs' acc'
        | [] =>
            if allowAboveRoot
            then normalizeSegments allowAboveRoot segs' [seg]
            else normalizeSegments allowAboveRoot segs' []
        end
      else normalizeSegments allowAboveRoot segs' (seg :: acc)
  end.

Definition isAbsolute (p : str) : bool :=
  match p with
  | c :: _ => is_slash c
  | [] => false
  end.

Definition normalize (p : str) : str :=
  match p with
  | [] => lit "."
  | _ =>
      let absolute := isAbsolute p in
      let trailingSeparator :=
        match rev p with
        | c :: _ => is_slash c
        | [] => false
        end in
      let body :=
        Js.join [slash]
          (normalizeSegments (negb absolute) (Js.split_on slash p) []) in
      match body with
      | [] =>
          if absolute then [slash]
          else if trailingSeparator then lit "./" else lit "."
      | _ =>
          let body := if trailingSeparator then body ++ [slash] else body in
          if absolute then slash :: body else body
      end
  end.

Definition join (a b : str) : str :=
  match a, b with
  | [], [] => lit "."
  | [], _ => normalize b
  | _, [] => normalize a
  | _, _ => normalize (a ++ slash :: b)
  end.

Fixpoint dropSlashes (r : str) : str :=
  match r with
  | c :: r' => if is_slash c then dropSlashes r' else r
  | [] => []
  end.

(** The last segment, trailing separators ignored. *)
Definition basename (p : str) : str :=
  rev (fst (Re.span (fun c => negb (is_slash c)) (dropSlashes (rev p)))).

(** The scan of [dirname] from the end of the path down to index 1:
    the index of the separator that ends the directory part. *)
Fixpoint dirnameEnd (r : str) (i : nat) (matchedSlash : bool) : option nat :=
  match r, i with
  | c :: r', S i' =>
      if is_slash c then
        if matchedSlash then dirnameEnd r' i' true else Some i
      else dirnameEnd r' i' false
  | _, _ => None
  end.

Definition dirname (p : str) : str :=
  match p with
  | [] => lit "."
  | _ =>
      match dirnameEnd (rev p) (List.length p - 1) true with
      | None => if isAbsolute p then [slash] else lit "."
      | Some e =>
          if isAbsolute p && Nat.eqb e 1 then lit "//" else firstn e p
      end
  end.

(** From the last [.] of the base name to its end; empty when there is
    no dot, when the only dot leads the name, and for [..]. *)
Definition extname (p : str) : str :=
  let base := basename p in
  let (afterDot, r) := Re.span (fun c => negb (Ascii.eqb c "."%char)) (rev base) in
  match r with
  | [] => []
  | _ :: [] => []
  | _ :: _ =>
      if Js.str_eqb base (lit "..") then []
      else "."%char :: rev afterDot
  end.

Fixpoint dropCommon (a b : list str) : list str * list str :=
  match a, b with
  | x :: a', y :: b' =>
      if Js.str_eqb x y then dropCommon a' b' else (a, b)
  | _, _ => (a, b)
  end.

Definition resolveSegments (p : str) : list str :=
  normalizeSegments false (Js.split_on slash p) [].

Definition relative (from to : str) : str :=
  let (up, down) := dropCommon (resolveSegments from) (resolveSegments to) in
  Js.join [slash] (map (fun _ => lit "..") up ++ down).

Definition linux : Platform :=
  mkPlatform (lit "linux") slash normalize join dirname basename extname
    relative.

End Posix.

(** ** The file system, as the scanner and the watcher read it *)

(** The fields of [fs.Stats] the services use. *)
Record Stats := mkStats {
  st_size : Z;
  st_mtime : Z;
  st_birthtime : Z;
  st_isDirectory : bool
}.

(** A directory entry returned by [fs.readdir(dir, { withFileTypes: true })],
    together with what the later calls on its full path return:
    [fs.stat] for an entry whose [isDirectory()] is false, [fs.readdir]
    for one whose [isDirectory()] is true. *)
#[warnings="-register-all"]
Inductive Dirent :=
| FileEntry (entryName : str) (stat : Exn + Stats)
| DirEntry (entryName : str) (listing : Exn + list Dirent).

Definition entryName (e : Dirent) : str :=
  match e with
  | FileEntry n _ => n
  | DirEntry n _ => n
  end.

(** [getFileType], the same function in [FileIndexer] and [FileWatcher]. *)
Definition getFileType (P : Platform) (fileName : str) (isDirectory : bool)
  : str :=
  if isDirectory then FileType.DIRECTORY
  else
    let extension := Js.toLowerCase (extname P fileName) in
    if Js.arr_includes
         [lit ".pdf"; lit ".doc"; lit ".docx"; lit ".txt"; lit ".rtf";
          lit ".odt"; lit ".xls"; lit ".xlsx"; lit ".ppt"; lit ".pptx"]
         extension then FileType.DOCUMENT
    else if Js.arr_includes
         [lit ".jpg"; lit ".jpeg"; lit ".png"; lit ".gif"; lit ".bmp";
          lit ".svg"; lit ".webp"; lit ".ico"; lit ".tiff"]
         extension then FileType.IMAGE
    else if Js.arr_includes
         [lit ".mp4"; lit ".avi"; lit ".mkv"; lit ".mov"; lit ".wmv";
          lit ".flv"; lit ".webm"; lit ".m4v"]
         extension then FileType.VIDEO
    else if Js.arr_includes
         [lit ".mp3"; lit ".wav"; lit ".flac"; lit ".aac"; lit ".ogg";
          lit ".wma"; lit ".m4a"]
         extension then FileType.AUDIO
    else if Js.arr_includes
         [lit ".zip"; lit ".rar"; lit ".7z"; lit ".tar"; lit ".gz";
          lit ".bz2"; lit ".xz"]
         extension then FileType.ARCHIVE
    else if Js.arr_includes
         [lit ".js"; lit ".ts"; lit ".jsx"; lit ".tsx"; lit ".py";
          lit ".java"; lit ".c"; lit ".cpp"; lit ".cs"; lit ".php";
          lit ".rb"; lit ".go"; lit ".rs"; lit ".html"; lit ".css";
          lit ".scss"; lit ".json"; lit ".xml"; lit ".yaml"; lit ".yml"]
         extension then FileType.CODE
    else FileType.OTHER.

(** [relativePath || '.'] *)
Definition orDot (relativePath : str) : str :=
  match relativePath with
  | [] => lit "."
  | _ => relativePath
  end.

(** ** FileIndexer: [electron/services/indexer.ts] *)

Module FileIndexer.

Record IndexingProgress := mkProgress {
  p_isIndexing : bool;
  p_currentPath : option str;
  p_filesProcessed : Z;
  p_progress : Q
}.

Inductive Event :=
| EvProgress (p : IndexingProgress)
| EvComplete
| EvError (e : Exn).

(** The fields of a [FileIndexer], the events it has emitted, and the
    number of identifiers drawn from [uuidv4] so far. *)
Record State := mkState {
  isIndexing : bool;
  shouldStop : bool;
  currentProgress : IndexingProgress;
  emitted : list Event;
  uuids : nat
}.

Definition initial : State :=
  mkState false false (mkProgress false None 0 0) [] 0.

Definition emit (st : State) (e : Event) : State :=
  mkState (isIndexing st) (shouldStop st) (currentProgress st)
    (emitted st ++ [e]) (uuids st).

Definition setProgress (st : State) (p : IndexingProgress) : State :=
  mkState (isIndexing st) (shouldStop st) p (emitted st) (uuids st).

Definition defaultExclusions : list str :=
  [lit "node_modules"; lit ".git"; lit ".svn"; lit ".hg"; lit "temp";
   lit "tmp"; lit "$recycle.bin"; lit "system volume information";
   lit "windows"; lit "appdata"; lit ".cache"; lit ".npm"; lit ".yarn";
   lit "cache"; lit "logs"; lit ".vscode"; lit ".idea"; lit "build";
   lit "dist"; lit "out"; lit "target"].

Definition systemFiles : list str :=
  [lit "pagefile.sys"; lit "hiberfil.sys"; lit "swapfile.sys"].

Section WithPlatform.

Variable P : Platform.

(** The [n]-th identifier [uuidv4()] generates. *)
Variable uuidv4 : nat -> str.

Definition shouldExcludePath (currentPath : str) (excludePaths : list str)
  : bool :=
  let normalizedPath := Js.toLowerCase (normalize P currentPath) in
  let pathParts := Js.split_on (sep P) normalizedPath in
  if existsb
       (fun exclusion =>
          let normalizedExclusion := Js.toLowerCase exclusion in
          Js.arr_includes pathParts normalizedExclusion
          || Js.includes normalizedPath normalizedExclusion)
       (defaultExclusions ++ excludePaths)
  then true
  else if (20 <? List.length pathParts)%nat then true
  else false.

(** The entries the first loop of [scanDirectory] passes over without
    looking at their kind. *)
Definition skipped (entry : Dirent) : bool :=
  Js.startsWith (entryName entry) (lit ".")
  || Js.startsWith (entryName entry) (lit "$")
  || (Js.str_eqb (platform P) (lit "win32")
      && Js.arr_includes systemFiles (Js.toLowerCase (entryName entry))).

(** One iteration of [for (const entry of entries)]: the collected
    [files] and the indexer's state. *)
Definition processEntry (currentPath rootPath : str)
    (acc : list FileItem * State) (entry : Dirent) : list FileItem * State :=
  let (files, st) := acc in
  if shouldStop st then acc
  else
    let fullPath := join P currentPath (entryName entry) in
    if skipped entry then acc
    else
      match entry with
      | DirEntry _ _ => acc      (* directories.push(fullPath) *)
      | FileEntry entryName (inl _) => acc   (* fs.stat threw *)
      | FileEntry entryName (inr stats) =>
          let relativePath := relative P rootPath (dirname P fullPath) in
          let fileItem :=
            mkFileItem (uuidv4 (uuids st)) entryName (orDot relativePath)
              fullPath (Js.toLowerCase (extname P entryName))
              (st_size stats) (st_mtime stats) (st_birthtime stats)
              false (getFileType P entryName false) in
          let progress := currentProgress st in
          let progress :=
            mkProgress (p_isIndexing progress) (p_currentPath progress)
              (p_filesProcessed progress + 1) (p_progress progress) in
          let st :=
            mkState (isIndexing st) (shouldStop st) progress (emitted st)
              (S (uuids st)) in
          let st :=
            if (p_filesProcessed progress mod 50 =? 0)%Z then
              let progress :=
                mkProgress (p_isIndexing progress) (Some fullPath)
                  (p_filesProcessed progress) (p_progress progress) in
              emit (setProgress st progress) (EvProgress progress)
            else st in
          (files ++ [fileItem], st)
      end.

(** [scanDirectory(currentPath, rootPath, excludePaths, files)] where
    [dir] is the entry found at [currentPath].  The second loop runs
    over the sub-directories the first loop collected, that is, over
    the directory entries that were not [skipped]. *)
Fixpoint scanDirectory (dir : Dirent) (currentPath rootPath : str)
    (excludePaths : list str) (acc : list FileItem * State)
  : list FileItem * State :=
  if shouldStop (snd acc) then acc
  else if shouldExcludePath currentPath excludePaths then acc
  else
    match dir with
    | FileEntry _ _ => acc     (* readdir on a non-directory throws *)
    | DirEntry _ (inl _) => acc
    | DirEntry _ (inr entries) =>
        let acc := fold_left (processEntry currentPath rootPath) entries acc in
        (fix directories (es : list Dirent) (acc : list FileItem * State)
           : list FileItem * State :=
           match es with
           | [] => acc
           | e :: es' =>
               let acc :=
                 match e with
                 | DirEntry n _ =>
                     if skipped e || shouldStop (snd acc) then acc
                     else scanDirectory e (join P currentPath n) rootPath
                            excludePaths acc
                 | FileEntry _ _ => acc
                 end in
               directories es' acc
           end) entries acc
    end.

Definition batchSize : nat := 500.

(** The batches [files.slice(i, i + batchSize)], [i = 0, 500, ...]. *)
Fixpoint batches (fuel : nat) (files : list FileItem) : list (list FileItem) :=
  match fuel, files with
  | _, [] => []
  | O, _ => []
  | S fuel', _ => firstn batchSize files :: batches fuel' (skipn batchSize files)
  end.

(** One batch of [indexPath]: written in one transaction; a failed
    write is logged and the loop goes on. *)
Definition insertBatch (total : nat)
    (acc : option Sqlite.Connection * State * nat) (batch : list FileItem)
  : option Sqlite.Connection * State * nat :=
  let '(db, st, totalProcessed) := acc in
  if shouldStop st then acc
  else
    match DatabaseSqlite3.insertFiles db batch with
    | inl _ => acc
    | inr db' =>
        let totalProcessed := (totalProcessed + List.length batch)%nat in
        let pct := (inject_Z (Z.of_nat totalProcessed)
                    / inject_Z (Z.of_nat total) * 100)%Q in
        let progress :=
          mkProgress (p_isIndexing (currentProgress st))
            (Some (lit "Indexed " ++ Js.numberToString totalProcessed
                   ++ lit "/" ++ Js.numberToString total ++ lit " files"))
            (Z.of_nat totalProcessed)
            (if Qle_bool 95 pct then 95 else pct) in
        (db', emit (setProgress st progress) (EvProgress progress),
         totalProcessed)
    end.

Definition indexPath (root : Dirent) (rootPath : str)
    (excludePaths : list str) (db : option Sqlite.Connection) (st : State)
  : option Sqlite.Connection * State :=
  let (files, st) := scanDirectory root rootPath rootPath excludePaths ([], st) in
  match files with
  | [] => (db, st)
  | _ =>
      let '(db, st, _) :=
        fold_left (insertBatch (List.length files))
          (batches (List.length files) files) (db, st, 0%nat) in
      (db, st)
  end.

(** The synchronous head of [startIndexing], up to its first [await]. *)
Definition startIndexing_begin (st : State) : Exn + State :=
  if isIndexing st then inl (Error (lit "Indexing already in progress"))
  else
    let progress := mkProgress true None 0 0 in
    inr (emit (mkState true false progress (emitted st) (uuids st))
           (EvProgress progress)).

(** The rest of [startIndexing]: the store is cleared and every root
    is indexed.  [roots] pairs each root path with the directory
    found there. *)
Definition startIndexing_run (roots : list (str * Dirent))
    (excludePaths : list str) (db : option Sqlite.Connection) (st : State)
  : option Sqlite.Connection * State :=
  let finish (st : State) : State :=
    mkState false (shouldStop st) (currentProgress st) (emitted st)
      (uuids st) in
  match DatabaseSqlite3.clearAll db with
  | inl error =>
      let progress := currentProgress st in
      let progress :=
        mkProgress false (p_currentPath progress)
          (p_filesProcessed progress) (p_progress progress) in
      (db, finish (emit (setProgress st progress) (EvError error)))
  | inr db =>
      let (db, st) :=
        fold_left
          (fun (acc : option Sqlite.Connection * State) (r : str * Dirent) =>
             let (db, st) := acc in
             if shouldStop st then acc
             else indexPath (snd r) (fst r) excludePaths db st)
          roots (db, st) in
      let progress := currentProgress st in
      let progress :=
        mkProgress false (p_currentPath progress)
          (p_filesProcessed progress) 100 in
      let st := emit (setProgress st progress) (EvProgress progress) in
      (db, finish (emit st EvComplete))
  end.

Definition startIndexing (roots : list (str * Dirent))
    (excludePaths : list str) (db : option Sqlite.Connection) (st : State)
  : Exn + option Sqlite.Connection * State :=
  match startIndexing_begin st with
  | inl e => inl e
  | inr st => inr (startIndexing_run roots excludePaths db st)
  end.

End WithPlatform.

Definition stopIndexing (st : State) : State :=
  mkState (isIndexing st) true (currentProgress st) (emitted st) (uuids st).

Definition getProgress (st : State) : IndexingProgress := currentProgress st.

Definition isCurrentlyIndexing (st : State) : bool := isIndexing st.

End FileIndexer.

(** ** FileWatcher: [electron/services/file-watcher.ts] *)

Module FileWatcher.

Inductive Event :=
| FileAdded (file : FileItem)
| FileChanged (file : FileItem)
| FileRemoved (filePath : str)
| DirectoryAdded (file : FileItem)
| DirectoryRemoved (dirPath : str)
| WatcherReady (watchPath : str)
| WatchingStopped.

(** The events chokidar delivers for one watched root. *)
Inductive FsEvent :=
| add (filePath : str)
| change (filePath : str)
| unlink (filePath : str)
| addDir (dirPath : str)
| unlinkDir (dirPath : str).

(** The keys of the [watchers] map, the [isWatching] flag, the events
    emitted, and the number of identifiers drawn from [uuidv4]. *)
Record State := mkState {
  watchers : list str;
  isWatching : bool;
  emitted : list Event;
  uuids : nat
}.

Definition initial : State := mkState [] false [] 0.

Section WithPlatform.

Variable P : Platform.
Variable uuidv4 : nat -> str.

(** [createFileItem(filePath, rootPath)], given what [fs.stat(filePath)]
    returns. *)
Definition createFileItem (n : nat) (stat : Exn + Stats)
    (filePath rootPath : str) : Exn + FileItem :=
  match stat with
  | inl e => inl e
  | inr stats =>
      let fileName := basename P filePath in
      let relativePath := relative P rootPath (dirname P filePath) in
      inr (mkFileItem (uuidv4 n) fileName (orDot relativePath) filePath
             (if st_isDirectory stats then []
              else Js.toLowerCase (extname P fileName))
             (st_size stats) (st_mtime stats) (st_birthtime stats)
             (st_isDirectory stats)
             (getFileType P fileName (st_isDirectory stats)))
  end.

(** The handlers of [add], [change] and [addDir]: the record is built,
    written with [insertFile], and announced; any failure is logged and
    nothing else happens. *)
Definition upsert (announce : FileItem -> Event) (stat : Exn + Stats)
    (filePath watchPath : str) (db : option Sqlite.Connection) (st : State)
  : option Sqlite.Connection * State :=
  match createFileItem (uuids st) stat filePath watchPath with
  | inl _ => (db, st)
  | inr fileItem =>
      let st := mkState (watchers st) (isWatching st) (emitted st) (S (uuids st)) in
      match DatabaseSqlite3.insertFile db fileItem with
      | inl _ => (db, st)
      | inr db' =>
          (db', mkState (watchers st) (isWatching st)
                  (emitted st ++ [announce fileItem]) (uuids st))
      end
  end.

(** The handlers of [unlink] and [unlinkDir]. *)
Definition remove (announce : str -> Event) (filePath : str)
    (db : option Sqlite.Connection) (st : State)
  : option Sqlite.Connection * State :=
  match DatabaseSqlite3.deleteFile db filePath with
  | inl _ => (db, st)
  | inr db' =>
      (db', mkState (watchers st) (isWatching st)
              (emitted st ++ [announce filePath]) (uuids st))
  end.

(** One event of the watcher of [watchPath]; [stat] is what [fs.stat]
    returns for the event's path when the handler runs. *)
Definition handle (watchPath : str) (ev : FsEvent) (stat : Exn + Stats)
    (db : option Sqlite.Connection) (st : State)
  : option Sqlite.Connection * State :=
  match ev with
  | add filePath => upsert FileAdded stat filePath watchPath db st
  | change filePath => upsert FileChanged stat filePath watchPath db st
  | unlink filePath => remove FileRemoved filePath db st
  | addDir dirPath => upsert DirectoryAdded stat dirPath watchPath db st
  | unlinkDir dirPath => remove DirectoryRemoved dirPath db st
  end.

(** [/^[A-Z]:\\?$/] *)
Definition isDriveRoot (watchPath : str) : bool :=
  match watchPath with
  | [d; c] => Js.is_upper d && Ascii.eqb c ":"%char
  | [d; c; b] =>
      Js.is_upper d && Ascii.eqb c ":"%char && Ascii.eqb b "\"%char
  | _ => false
  end.

(** [watchers.set(watchPath, watcher)] on the keys. *)
Definition setWatcher (keys : list str) (watchPath : str) : list str :=
  if Js.arr_includes keys watchPath then keys else keys ++ [watchPath].

Definition startWatching (paths : list str) (st : State) : State :=
  if isWatching st then st
  else
    fold_left
      (fun st watchPath =>
         if Js.str_eqb (platform P) (lit "win32") && isDriveRoot watchPath
         then st
         else mkState (setWatcher (watchers st) watchPath) (isWatching st)
                (emitted st) (uuids st))
      paths (mkState (watchers st) true (emitted st) (uuids st)).

Definition stopWatching (st : State) : State :=
  if isWatching st
  then mkState [] false (emitted st ++ [WatchingStopped]) (uuids st)
  else st.

End WithPlatform.

Definition getWatchedPaths (st : State) : list str := watchers st.

Definition isCurrentlyWatching (st : State) : bool := isWatching st.

End FileWatcher.

(** ** IpcHandlers: [electron/services/ipc-handlers.ts] *)

Module IpcHandlers.

(** A value received over IPC, as far as the handler inspects it. *)
#[warnings="-register-all"]
Inductive JsVal :=
| JUndefined
| JNull
| JBool (b : bool)
| JNum (z : Z)
| JStr (s : str)
| JArr (l : list JsVal)
| JObj.

(** [IpcIndexRequest] *)
Record IpcIndexRequest := mkIndexRequest {
  paths : JsVal;
  excludePaths : option (list str)
}.

(** [!v] *)
Definition falsy (v : JsVal) : bool :=
  match v with
  | JUndefined | JNull => true
  | JBool b => negb b
  | JNum z => (z =? 0)%Z
  | JStr s => match s with [] => true | _ => false end
  | JArr _ | JObj => false
  end.

(** [Array.isArray(v)] *)
Definition isArray (v : JsVal) : bool :=
  match v with
  | JArr _ => true
  | _ => false
  end.

Definition elements (v : JsVal) : list JsVal :=
  match v with
  | JArr l => l
  | _ => []
  end.

(** [typeof p === 'string' && p.trim().length > 0] *)
Definition validPath (p : JsVal) : option str :=
  match p with
  | JStr s => match Js.trim s with [] => None | _ => Some s end
  | _ => None
  end.

Fixpoint validPathsOf (l : list JsVal) : list str :=
  match l with
  | [] => []
  | p :: l' =>
      match validPath p with
      | Some s => s :: validPathsOf l'
      | None => validPathsOf l'
      end
  end.

(** What the handler sets going before it answers: the indexing run,
    not awaited, and the watchers. *)
Record Started := mkStarted {
  indexed : list str;
  excluded : list str
}.

Definition failure (msg : str) : IpcResponse str :=
  mkIpcResponse false None (Some msg).

Section WithPlatform.

Variable P : Platform.

(** The ['start-indexing'] handler.  It returns the response, the state
    of the indexer once [startIndexing] has reached its first [await],
    the state of the watcher after [startWatching], and the run it has
    started. *)
Definition startIndexingHandler (request : IpcIndexRequest)
    (indexer : FileIndexer.State) (watcher : FileWatcher.State)
  : IpcResponse str * FileIndexer.State * FileWatcher.State * option Started :=
  if FileIndexer.isIndexing indexer then
    (failure (lit "Indexing already in progress"), indexer, watcher, None)
  else if falsy (paths request) || negb (isArray (paths request))
          || Nat.eqb (List.length (elements (paths request))) 0 then
    (failure (lit "No valid paths provided for indexing"),
     indexer, watcher, None)
  else
    match validPathsOf (elements (paths request)) with
    | [] =>
        (failure (lit "No valid paths provided for indexing"),
         indexer, watcher, None)
    | validPaths =>
        let excludePaths :=
          match excludePaths request with Some l => l | None => [] end in
        match FileIndexer.startIndexing_begin indexer with
        | inl _ =>
            (* the rejection is reported on the 'indexing-error' channel *)
            (mkIpcResponse true (Some (lit "Indexing started successfully")) None,
             indexer, FileWatcher.startWatching P validPaths watcher, None)
        | inr indexer' =>
            (mkIpcResponse true (Some (lit "Indexing started successfully")) None,
             indexer', FileWatcher.startWatching P validPaths watcher,
             Some (mkStarted validPaths excludePaths))
        end
    end.

End WithPlatform.

(** [IpcSearchRequest] *)
Record IpcSearchRequest := mkSearchRequest {
  rq_query : str;
  rq_filters : SearchService.FiltersArg;
  rq_limit : option Z;
  rq_offset : option Z
}.

(** The ['search-files'] handler: [limit] defaults to 100 and [offset]
    to 0; [search] does not throw, so the [catch] is never entered. *)
Definition searchFilesHandler (db : option Sqlite.Connection)
    (fuse_search : SearchService.Fuse -> str -> Z -> list FileItem)
    (st : SearchService.State) (now : Z) (request : IpcSearchRequest)
  : IpcResponse SearchResult * SearchService.State * list SearchService.Call :=
  let limit := match rq_limit request with Some l => l | None => 100%Z end in
  let offset := match rq_offset request with Some o => o | None => 0%Z end in
  let '(searchResult, st', calls) :=
    SearchService.search db fuse_search st now (rq_query request)
      (rq_filters request) limit offset in
  (mkIpcResponse true (Some searchResult) None, st', calls).

(** The ['stop-indexing'] handler. *)
Definition stopIndexingHandler (indexer : FileIndexer.State)
    (watcher : FileWatcher.State)
  : IpcResponse str * FileIndexer.State * FileWatcher.State :=
  (mkIpcResponse true (Some (lit "Indexing and file watching stopped")) None,
   FileIndexer.stopIndexing indexer, FileWatcher.stopWatching watcher).

(** The ['get-indexing-progress'] handler. *)
Definition getIndexingProgressHandler (indexer : FileIndexer.State)
  : IpcResponse FileIndexer.IndexingProgress :=
  mkIpcResponse true (Some (FileIndexer.getProgress indexer)) None.

(** The ['get-file-count'] handler. *)
Definition getFileCountHandler (db : option Sqlite.Connection)
  : IpcResponse Z :=
  match DatabaseSqlite3.getFileCount db with
  | inr count => mkIpcResponse true (Some count) None
  | inl (Error message) | inl (TypeError message) =>
      mkIpcResponse false None (Some message)
  end.

(** The drive letters [A] to [Z], each followed by [:\]. *)
Definition driveCandidates : list str :=
  map (fun i => [ascii_of_nat i; ":"; "\"]%char) (seq 65 26).

(** The ['get-system-drives'] handler's list; [access p] tells whether
    [fs.promises.access(p)] succeeds. *)
Definition getSystemDrives (platform : str) (access : str -> bool) : list str :=
  if Js.str_eqb platform (lit "win32") then
    match filter access driveCandidates with
    | [] => [lit "C:\"]
    | drives => drives
    end
  else
    match find access [lit "/"; lit "/home"; lit "/usr"] with
    | Some path => [path]
    | None => [lit "/"]
    end.

End IpcHandlers.

(** ** useSearchCache: [src/unnamed/part_001]

    The cache the renderer keeps in front of ['search-files'].  The
    [Map] is an association list in insertion order with distinct keys;
    [JSON.stringify(filters, sortedKeys)] is a parameter. *)

Module SearchCache.

Record CacheEntry := mkEntry {
  result : SearchResult;
  timestamp : Z;
  entryFilters : SearchFilters
}.

Definition Cache := list (str * CacheEntry).

(** [Map.prototype.get], [delete] and [set]: [set] on a key already
    present keeps the key's place. *)
Fixpoint map_get (key : str) (c : Cache) : option CacheEntry :=
  match c with
  | [] => None
  | (k, v) :: c' => if Js.str_eqb k key then Some v else map_get key c'
  end.

Definition map_delete (key : str) (c : Cache) : Cache :=
  filter (fun kv => negb (Js.str_eqb (fst kv) key)) c.

Fixpoint map_set (key : str) (v : CacheEntry) (c : Cache) : Cache :=
  match c with
  | [] => [(key, v)]
  | (k, x) :: c' =>
      if Js.str_eqb k key then (k, v) :: c' else (k, x) :: map_set key v c'
  end.

Section WithOptions.

Variable maxSize : Z.
Variable ttl : Z.
Variable stringify : SearchFilters -> str.

Definition generateCacheKey (query : str) (filters : SearchFilters) : str :=
  query ++ lit ":" ++ stringify filters.

Definition isExpired (now : Z) (entry : CacheEntry) : bool :=
  (ttl <? now - timestamp entry)%Z.

Definition cleanupExpired (now : Z) (c : Cache) : Cache :=
  filter (fun kv => negb (ttl <? now - timestamp (snd kv))%Z) c.

Definition get (now : Z) (query : str) (filters : SearchFilters) (c : Cache)
  : option SearchResult * Cache :=
  let key := generateCacheKey query filters in
  match map_get key c with
  | None => (None, c)
  | Some entry =>
      if isExpired now entry then (None, map_delete key c)
      else (Some (result entry), c)
  end.

Definition set (now : Z) (query : str) (filters : SearchFilters)
    (r : SearchResult) (c : Cache) : Cache :=
  let key := generateCacheKey query filters in
  (* cache.size > maxSize * 0.8 *)
  let c :=
    if SearchService.q_lt (inject_Z maxSize * (8 # 10))
         (inject_Z (Z.of_nat (List.length c)))
    then cleanupExpired now c else c in
  (* still at the limit: drop the oldest key, unless it is falsy *)
  let c :=
    if (maxSize <=? Z.of_nat (List.length c))%Z then
      match c with
      | (oldestKey, _) :: _ =>
          match oldestKey with
          | [] => c
          | _ => map_delete oldestKey c
          end
      | [] => c
      end
    else c in
  map_set key (mkEntry r now filters) c.

Definition clear (c : Cache) : Cache := [].

Definition invalidate (query : option str) (c : Cache) : Cache :=
  match query with
  | Some ((_ :: _) as q) =>
      filter (fun kv => negb (Js.startsWith (fst kv) (q ++ lit ":"))) c
  | _ => clear c
  end.

(** [getStats]: size, expired and valid. *)
Definition getStats (now : Z) (c : Cache) : Z * Z * Z :=
  let expired :=
    Z.of_nat (List.length (filter (fun kv => isExpired now (snd kv)) c)) in
  (Z.of_nat (List.length c), expired, Z.of_nat (List.length c) - expired)%Z.

End WithOptions.

End SearchCache.

(** ** useSearchHistory: [src/unnamed/part_003]

    The history the renderer keeps of the queries searched; each
    function is the updater the hook passes to [setHistory], or the
    reader of the current [history]. *)

Module SearchHistory.

Record SearchHistoryItem := mkItem {
  h_query : str;
  h_timestamp : Z;
  h_resultCount : option Z
}.

Definition MAX_HISTORY_ITEMS : Z := 50.

(** [addToHistory(query, resultCount)]; [now] is [Date.now()]. *)
Definition addToHistory (now : Z) (query : str) (resultCount : option Z)
    (prev : list SearchHistoryItem) : list SearchHistoryItem :=
  match Js.trim query with
  | [] => prev
  | _ =>
      let filtered :=
        filter (fun item => negb (Js.str_eqb (h_query item) query)) prev in
      let newHistory := mkItem query now resultCount :: filtered in
      Js.slice newHistory 0 MAX_HISTORY_ITEMS
  end.

Definition removeFromHistory (query : str) (prev : list SearchHistoryItem)
  : list SearchHistoryItem :=
  filter (fun item => negb (Js.str_eqb (h_query item) query)) prev.

Definition clearHistory (prev : list SearchHistoryItem)
  : list SearchHistoryItem := [].

(** [getRecentSearches(limit = 10)] *)
Definition getRecentSearches (limit : option Z)
    (history : list SearchHistoryItem) : list SearchHistoryItem :=
  Js.slice history 0 (match limit with Some l => l | None => 10%Z end).

End SearchHistory.

(** ** useFileSearch: [src/unnamed/part_001]

    The request the hook sends for a page, and the page count it derives
    from a result. *)

Module FileSearch.

Definition itemsPerPage : Z := 50.

(** The [IpcSearchRequest] of [performSearch(query, searchFilters, page)],
    [combinedFilters] being [{ ...filters, ...searchFilters }]. *)
Definition request (query : str) (combinedFilters : SearchFilters) (page : Z)
  : IpcHandlers.IpcSearchRequest :=
  let offset := ((page - 1) * itemsPerPage)%Z in
  IpcHandlers.mkSearchRequest (Js.trim query)
    (SearchService.FObject combinedFilters) (Some itemsPerPage) (Some offset).

(** [searchResults ? Math.ceil(searchResults.totalCount / itemsPerPage) : 0] *)
Definition totalPages (searchResults : option SearchResult) : Z :=
  match searchResults with
  | Some r => (- ((- totalCount r) / itemsPerPage))%Z
  | None => 0%Z
  end.

Definition hasNextPage (currentPage : Z) (searchResults : option SearchResult)
  : bool :=
  (currentPage <? totalPages searchResults)%Z.

Definition hasPrevPage (currentPage : Z) : bool := (1 <? currentPage)%Z.

End FileSearch.

(** * Auxiliary definitions and fixtures *)

Module A := DatabaseSqlite3.
Module B := DatabaseBetterSqlite3.

(** The same search terms, read in the other variant's record. *)
Definition termsB (t : A.SearchTerms) : B.SearchTerms :=
  B.mkSearchTerms (A.t_text t) (A.t_type t) (A.t_extension t) (A.t_size t).

(** The rows of the store; a closed store has none to show. *)
Definition rowsOf (db : option Sqlite.Connection) : list Sqlite.Row :=
  match db with
  | Some conn => Sqlite.files conn
  | None => []
  end.

(** An identifier generator for the fixtures. *)
Definition uuidSeq (n : nat) : str := lit "uuid-" ++ [ascii_of_nat (48 + n)].

(** "The supplied roots list is missing, empty, or contains no non-blank
    string": whatever array [v] may be, none of its elements is a string
    with a character that is not white space. *)
Definition NoValidPaths (v : IpcHandlers.JsVal) : Prop :=
  forall l, v = IpcHandlers.JArr l ->
    forall s, In (IpcHandlers.JStr s) l -> Js.trim s = [].

(** One iteration of the second loop of [scanDirectory]. *)
Definition scanChild (P : Platform) (uuidv4 : nat -> str)
    (currentPath rootPath : str) (excludePaths : list str)
    (acc : list FileItem * FileIndexer.State) (e : Dirent)
  : list FileItem * FileIndexer.State :=
  match e with
  | DirEntry n _ =>
      if FileIndexer.skipped P e || FileIndexer.shouldStop (snd acc) then acc
      else FileIndexer.scanDirectory P uuidv4 e (join P currentPath n)
             rootPath excludePaths acc
  | FileEntry _ _ => acc
  end.

(** What the scanner guarantees of a record it collects: it is not a
    directory record, and it lies directly in a directory that passed the
    exclusion filter. *)
Definition Scanned (P : Platform) (excludePaths : list str) (f : FileItem)
  : Prop :=
  isDirectory f = false
  /\ exists currentPath,
       fullPath f = join P currentPath (name f)
       /\ FileIndexer.shouldExcludePath P currentPath excludePaths = false.

(** A row written from a record the scanner collected. *)
Definition FromScan (P : Platform) (excludePaths : list str) (r : Sqlite.Row)
  : Prop :=
  exists f, Scanned P excludePaths f /\ r = A.batchParams f.

(** A project directory holding one file, a script called [build]. *)
Definition projectWithBuildScript : Dirent :=
  DirEntry (lit "proj")
    (inr [FileEntry (lit "build")
            (inr (mkStats 120 1700000000000 1690000000000 false))]).





Definition reportTxt : FileItem :=
  mkFileItem (lit "id-1") (lit "report.txt") (lit "docs")
    (lit "/home/u/docs/report.txt") (lit ".txt") 2048
    1700000000000 1690000000000 false FileType.DOCUMENT.

Definition quarterlyReportTxt : FileItem :=
  mkFileItem (lit "id-2") (lit "quarterly_report.txt") (lit "docs")
    (lit "/home/u/docs/quarterly_report.txt") (lit ".txt") 2048
    1700000000000 1690000000000 false FileType.DOCUMENT.

(** The result [search] builds from the records a strategy retrieved. *)
Definition resultOf (now : Z) (query cleanQuery : str)
    (combined : SearchService.Combined) (limit offset : Z)
    (retrieved : list FileItem) : SearchResult :=
  let results :=
    SearchService.sortResults now
      (SearchService.applyFilters retrieved combined) cleanQuery in
  mkSearchResult (Js.slice results offset (offset + limit))
    (Z.of_nat (List.length results)) query.

(** A store no statement can read: closed, or failing. *)
Definition Unreadable (db : option Sqlite.Connection) : Prop :=
  match db with
  | None => True
  | Some conn => Sqlite.fault conn <> None
  end.

(** A stand-in for Fuse.js that reports every indexed document a match,
    up to the limit. *)
Definition fuseEverything (index : SearchService.Fuse) (query : str)
    (limit : Z) : list FileItem :=
  firstn (Z.to_nat limit) (SearchService.docs index).

(** A store of twelve files, [f00.txt] to [f11.txt], all modified at the
    same time. *)
Definition numbered (n : nat) : Sqlite.Row :=
  let tag := [ascii_of_nat (48 + n / 10); ascii_of_nat (48 + n mod 10)] in
  Sqlite.mkRow (lit "id-" ++ tag) (lit "f" ++ tag ++ lit ".txt") (lit ".")
    (lit "/data/f" ++ tag ++ lit ".txt") (lit ".txt") 100
    1700000000000 1690000000000 0 (lit "document").

Definition twelveFiles : option Sqlite.Connection :=
  Some (Sqlite.mkConnection (map numbered (seq 0 12)) None).

(** A service whose fuzzy index was built at time 0 over [report.txt]. *)
Definition indexedAtZero : SearchService.State :=
  SearchService.mkState
    (Some (SearchService.mkFuse [reportTxt] SearchService.fuseOptions)) 0.

Definition failingStore : option Sqlite.Connection :=
  Some (Sqlite.mkConnection [] (Some (lit "SQLITE_IOERR: disk I/O error"))).

(** Free text: every operator keyword ends in a colon, so a text without
    one holds no operator. *)
Definition colon : ascii := ":"%char.

Definition NoColon (s : str) : Prop := Forall (fun c => c <> colon) s.

(** A matcher that needs a colon at offset [k] of its input. *)
Definition ColonAt (k : nat) (m : Re.matcher) : Prop :=
  forall s n, m s = Some n -> nth_error s k = Some colon.





(** The records of a successful store read; none when it failed. *)
Definition rowsOfItems (r : Exn + list FileItem) : list FileItem :=
  match r with
  | inr l => l
  | inl _ => []
  end.

(** No two rows share a [fullPath], and no two share an [id]: the
    [PRIMARY KEY] and [UNIQUE] constraints of the [files] table. *)
Definition WellKeyed (rows : list Sqlite.Row) : Prop :=
  NoDup (map Sqlite.col_fullPath rows) /\ NoDup (map Sqlite.col_id rows).

(** The [FileType] values [getFileType] gives to what is not a
    directory. *)
Definition plainFileTypes : list str :=
  [FileType.DOCUMENT; FileType.IMAGE; FileType.VIDEO; FileType.AUDIO;
   FileType.ARCHIVE; FileType.CODE; FileType.OTHER].

(** What the first loop of [scanDirectory] guarantees of a record it
    builds: the entry was not hidden, and the derived fields follow from
    the name. *)
Definition Visible (P : Platform) (f : FileItem) : Prop :=
  isDirectory f = false
  /\ Js.startsWith (name f) (lit ".") = false
  /\ Js.startsWith (name f) (lit "$") = false
  /\ extension f = Js.toLowerCase (extname P (name f))
  /\ type f = getFileType P (name f) false
  /\ path f <> [].

(** The same, read off a row of the store. *)
Definition VisibleRow (P : Platform) (r : Sqlite.Row) : Prop :=
  Sqlite.col_isDirectory r = 0%Z
  /\ Js.startsWith (Sqlite.col_name r) (lit ".") = false
  /\ Js.startsWith (Sqlite.col_name r) (lit "$") = false
  /\ Sqlite.col_extension r = Js.toLowerCase (extname P (Sqlite.col_name r))
  /\ In (Sqlite.col_type r) plainFileTypes
  /\ Sqlite.col_path r <> [].

(** A progress report whose percentage lies between 0 and 100. *)
Definition inRange (p : FileIndexer.IndexingProgress) : Prop :=
  (0 <= FileIndexer.p_progress p)%Q /\ (FileIndexer.p_progress p <= 100)%Q.

Definition eventInRange (e : FileIndexer.Event) : Prop :=
  match e with
  | FileIndexer.EvProgress p => inRange p
  | _ => True
  end.

(** The events of a run: more reports in range, on top of what had been
    emitted. *)
Definition Reports (st st' : FileIndexer.State) : Prop :=
  inRange (FileIndexer.currentProgress st) ->
  inRange (FileIndexer.currentProgress st')
  /\ exists evs,
       FileIndexer.emitted st' = FileIndexer.emitted st ++ evs
       /\ Forall eventInRange evs.


(** A tree with one visible file, one hidden file and one hidden
    directory. *)
Definition homeWithHidden : Dirent :=
  DirEntry (lit "home")
    (inr [FileEntry (lit "notes.txt")
            (inr (mkStats 10 1700000000000 1690000000000 false));
          FileEntry (lit ".profile")
            (inr (mkStats 20 1700000000000 1690000000000 false));
          DirEntry (lit ".ssh")
            (inr [FileEntry (lit "id_rsa")
                    (inr (mkStats 30 1700000000000 1690000000000 false))])]).

(** An identifier generator that never repeats. *)
Definition uuidTally (n : nat) : str := repeat "i"%char (S n).

(** A stand-in for [JSON.stringify] in the fixtures: it tells filters
    apart by [includeDirectories] only. *)
Definition sampleStringify (f : SearchFilters) : str :=
  match includeDirectories f with
  | Some true => lit "{dirs:true}"
  | Some false => lit "{dirs:false}"
  | None => lit "{}"
  end.

Definition emptyResult (q : str) : SearchResult := mkSearchResult [] 0 q.

(** A history of three queries, newest first. *)
Definition threeSearches : list SearchHistory.SearchHistoryItem :=
  [SearchHistory.mkItem (lit "report") 3000 (Some 4%Z);
   SearchHistory.mkItem (lit "invoice") 2000 (Some 0%Z);
   SearchHistory.mkItem (lit "photo") 1000 None].


(** A name a query can carry as one word of free text. *)
Definition OneWord (s : str) : Prop :=
  s <> [] /\ NoColon s /\ Forall (fun c => Js.is_space c = false) s.

(** * Properties *)

Unset Implicit Arguments.

Example split_ws_ex :
  Js.split_ws (lit " a  b ") = [lit ""; lit "a"; lit "b"; lit ""].
Proof. reflexivity. Qed.

Example trim_ex : Js.trim (lit "  a b  ") = lit "a b".
Proof. reflexivity. Qed.

Example slice_ex : Js.slice [1;2;3;4;5]%Z 1 (-1) = [2;3;4]%Z.
Proof. reflexivity. Qed.

Example date_ex :
  JsDate.civil_from_days (JsDate.days_from_civil 2024 2 29) = (2024, 2, 29)%Z
  /\ JsDate.days_from_civil 1970 1 1 = 0%Z
  /\ JsDate.days_from_civil 2000 3 1 = 11017%Z
  /\ JsDate.setMonth (JsDate.ofYMD 2024 2 31) 1 = JsDate.ofYMD 2024 2 2.
Proof. repeat split; reflexivity. Qed.

Example parse_ex :
  SearchService.parseSearchOperators 0 (lit "report ext:PDF size:>10mb x") =
  (lit "report   x",
   SearchService.mkOperators (Some [lit ".pdf"]) (Some (inject_Z 10485760))
     None None None None).
Proof. vm_compute. reflexivity. Qed.

Example posix_ex :
  Posix.normalize (lit "/home//u/./proj/../x/") = lit "/home/u/x/"
  /\ Posix.join (lit "/home/u") (lit "a.txt") = lit "/home/u/a.txt"
  /\ Posix.dirname (lit "/home/u/a.txt") = lit "/home/u"
  /\ Posix.dirname (lit "/a") = lit "/"
  /\ Posix.basename (lit "/home/u/a.txt") = lit "a.txt"
  /\ Posix.extname (lit "a.tar.GZ") = lit ".GZ"
  /\ Posix.extname (lit ".bashrc") = lit ""
  /\ Posix.extname (lit "build") = lit ""
  /\ Posix.extname (lit "a.") = lit "."
  /\ Posix.relative (lit "/home/u") (lit "/home/u/docs/x") = lit "docs/x"
  /\ Posix.relative (lit "/home/u") (lit "/home/u") = lit "".
Proof. repeat split; reflexivity. Qed.

(** ** The two DatabaseService variants agree *)

Lemma typeAlias_agree (v : str) : B.typeAlias v = A.typeAlias v.
Proof. reflexivity. Qed.

Lemma parsePart_agree (t : A.SearchTerms) (textParts : list str) (part : str) :
  B.parsePart (termsB t, textParts) part =
  (termsB (fst (A.parsePart (t, textParts) part)),
   snd (A.parsePart (t, textParts) part)).
Proof.
  unfold A.parsePart, B.parsePart.
  destruct (Js.startsWith part (lit "type:")); [reflexivity|].
  destruct (Js.startsWith part (lit "ext:")); [reflexivity|].
  destruct (Js.startsWith part (lit "size:")); reflexivity.
Qed.

Lemma parseLoop_agree (parts : list str) :
  forall (t : A.SearchTerms) (textParts : list str),
    fold_left B.parsePart parts (termsB t, textParts) =
    (termsB (fst (fold_left A.parsePart parts (t, textParts))),
     snd (fold_left A.parsePart parts (t, textParts))).
Proof.
  induction parts as [|part parts IH]; intros t textParts.
  - reflexivity.
  - cbn [fold_left]. rewrite parsePart_agree.
    destruct (A.parsePart (t, textParts) part) as [t' textParts'].
    apply IH.
Qed.

Lemma parseSearchQuery_agree (query : str) :
  B.parseSearchQuery query = termsB (A.parseSearchQuery query).
Proof.
  unfold A.parseSearchQuery, B.parseSearchQuery.
  change (B.mkSearchTerms None None None None)
    with (termsB (A.mkSearchTerms None None None None)).
  rewrite parseLoop_agree.
  destruct (fold_left A.parsePart (Js.split_ws query)
              (A.mkSearchTerms None None None None, [])) as [t textParts].
  destruct textParts; reflexivity.
Qed.

Lemma parseSizeQuery_agree (sizeQuery : str) :
  B.parseSizeQuery sizeQuery = A.parseSizeQuery sizeQuery.
Proof. reflexivity. Qed.

Lemma whereClause_agree (t : A.SearchTerms) :
  B.whereClause (termsB t) = A.whereClause t.
Proof. destruct t; reflexivity. Qed.

(** C9.  The sqlite3 and the better-sqlite3 implementation of
    [DatabaseService.searchFiles] are extensionally equal: on the same
    store and the same query, limit and offset they parse the query into
    the same terms (same [parseSearchQuery], same [parseSizeQuery]), build
    the same WHERE conditions with the same parameters for the same
    directories-first, case-insensitive-name ordered SELECT, and return
    the same list of [FileItem]s or fail with the same error. *)
Theorem searchFiles_variants_agree
    (db : option Sqlite.Connection) (query : str) (limit offset : Z) :
  B.parseSearchQuery query = termsB (A.parseSearchQuery query)
  /\ (forall sizeQuery, B.parseSizeQuery sizeQuery = A.parseSizeQuery sizeQuery)
  /\ B.whereClause (B.parseSearchQuery query)
     = A.whereClause (A.parseSearchQuery query)
  /\ (forall row, B.rowToFileItem row = A.rowToFileItem row)
  /\ B.searchFiles db query limit offset = A.searchFiles db query limit offset.
Proof.
  assert (W : B.whereClause (B.parseSearchQuery query)
              = A.whereClause (A.parseSearchQuery query))
    by (rewrite parseSearchQuery_agree; apply whereClause_agree).
  repeat split; auto using parseSearchQuery_agree.
  unfold A.searchFiles, B.searchFiles.
  destruct db as [conn|]; [|reflexivity].
  rewrite W.
  destruct (A.whereClause (A.parseSearchQuery query)) as [conds ps].
  destruct (Sqlite.all conn conds _) as [e|rows]; reflexivity.
Qed.

(** ** FileWatcher: directory records *)





(** ** IpcHandlers: the start-indexing handler *)

Lemma validPathsOf_nil (l : list IpcHandlers.JsVal) :
  IpcHandlers.validPathsOf l = [] <->
  (forall s, In (IpcHandlers.JStr s) l -> Js.trim s = []).
Proof.
  induction l as [|p l IH]; simpl.
  - split; [intros _ s []|reflexivity].
  - destruct p as [| |b|z|s0|l0|]; simpl;
      try (rewrite IH; split;
           [intros H s [Hs|Hs]; [discriminate Hs|auto] | intros H s Hs; auto]).
    destruct (Js.trim s0) eqn:Ht.
    + rewrite IH. split.
      * intros H s [Hs|Hs]; [injection Hs as <-; exact Ht | auto].
      * intros H s Hs; auto.
    + split; [discriminate|].
      intros H. specialize (H s0 (or_introl eq_refl)). congruence.
Qed.

Lemma no_valid_paths_test (v : IpcHandlers.JsVal) :
  NoValidPaths v <->
  (IpcHandlers.falsy v || negb (IpcHandlers.isArray v)
   || Nat.eqb (List.length (IpcHandlers.elements v)) 0 = true
   \/ IpcHandlers.validPathsOf (IpcHandlers.elements v) = []).
Proof.
  unfold NoValidPaths. destruct v as [| |b|z|s0|l0|];
    try (split; [intros _; left; cbn; rewrite ?orb_true_r; reflexivity
                | intros _ l Hl; discriminate Hl]).
  cbn [IpcHandlers.falsy IpcHandlers.isArray IpcHandlers.elements negb orb].
  rewrite validPathsOf_nil. split.
  - intros H. right. apply (H l0 eq_refl).
  - intros [H|H] l Hl; injection Hl as <-.
    + destruct l0; [intros s []|discriminate H].
    + exact H.
Qed.

(** C8.  The start-indexing handler fails in exactly two cases.  While a
    run is in progress it answers with the error 'Indexing already in
    progress'.  Otherwise, when [paths] is missing, not an array, empty, or
    holds no non-blank string, it answers with the error 'No valid paths
    provided for indexing'.  In both cases nothing is started.  In every
    other case it reports success, and an indexing run over the non-blank
    paths has begun: the indexer's [isIndexing] flag is set. *)
Theorem startIndexing_outcomes (P : Platform)
    (request : IpcHandlers.IpcIndexRequest)
    (indexer : FileIndexer.State) (watcher : FileWatcher.State) :
  let '(response, indexer', _, started) :=
    IpcHandlers.startIndexingHandler P request indexer watcher in
  (FileIndexer.isIndexing indexer = true ->
     response = IpcHandlers.failure (lit "Indexing already in progress")
     /\ started = None /\ indexer' = indexer)
  /\ (FileIndexer.isIndexing indexer = false ->
      NoValidPaths (IpcHandlers.paths request) ->
      response = IpcHandlers.failure (lit "No valid paths provided for indexing")
      /\ started = None /\ indexer' = indexer)
  /\ (FileIndexer.isIndexing indexer = false ->
      ~ NoValidPaths (IpcHandlers.paths request) ->
      success response = true
      /\ error response = None
      /\ started = Some (IpcHandlers.mkStarted
                           (IpcHandlers.validPathsOf
                              (IpcHandlers.elements (IpcHandlers.paths request)))
                           (match IpcHandlers.excludePaths request with
                            | Some l => l
                            | None => []
                            end))
      /\ FileIndexer.isIndexing indexer' = true).
Proof.
  unfold IpcHandlers.startIndexingHandler.
  destruct (FileIndexer.isIndexing indexer) eqn:Hix.
  { split; [auto|split; discriminate]. }
  pose proof (no_valid_paths_test (IpcHandlers.paths request)) as Hnv.
  destruct (IpcHandlers.falsy (IpcHandlers.paths request)
            || negb (IpcHandlers.isArray (IpcHandlers.paths request))
            || Nat.eqb (List.length (IpcHandlers.elements
                                       (IpcHandlers.paths request))) 0) eqn:Ht.
  { split; [discriminate|split; [auto|]].
    intros _ Hn. exfalso. apply Hn, Hnv. auto. }
  destruct (IpcHandlers.validPathsOf
              (IpcHandlers.elements (IpcHandlers.paths request))) eqn:Hv.
  { split; [discriminate|split; [auto|]].
    intros _ Hn. exfalso. apply Hn, Hnv. auto. }
  unfold FileIndexer.startIndexing_begin. rewrite Hix.
  split; [discriminate|split].
  - intros _ Hn. apply Hnv in Hn. destruct Hn; discriminate.
  - intros _ _. auto.
Qed.

Lemma startIndexing_outcomes_witness :
  (* a run in progress *)
  fst (fst (fst (IpcHandlers.startIndexingHandler Posix.linux
      (IpcHandlers.mkIndexRequest
         (IpcHandlers.JArr [IpcHandlers.JStr (lit "/home/u")]) None)
      (FileIndexer.mkState true false
         (FileIndexer.mkProgress true None 0 0) [] 0)
      FileWatcher.initial)))
  = IpcHandlers.failure (lit "Indexing already in progress")
  (* only blank paths *)
  /\ fst (fst (fst (IpcHandlers.startIndexingHandler Posix.linux
      (IpcHandlers.mkIndexRequest
         (IpcHandlers.JArr [IpcHandlers.JStr (lit "  "); IpcHandlers.JNum 3])
         None)
      FileIndexer.initial FileWatcher.initial)))
  = IpcHandlers.failure (lit "No valid paths provided for indexing")
  (* one usable path *)
  /\ success (fst (fst (fst (IpcHandlers.startIndexingHandler Posix.linux
      (IpcHandlers.mkIndexRequest
         (IpcHandlers.JArr [IpcHandlers.JStr (lit "  ");
                            IpcHandlers.JStr (lit "/home/u")])
         (Some [lit "secret"]))
      FileIndexer.initial FileWatcher.initial)))) = true.
Proof.
  split; [|split].
  - pose proof (startIndexing_outcomes Posix.linux
      (IpcHandlers.mkIndexRequest
         (IpcHandlers.JArr [IpcHandlers.JStr (lit "/home/u")]) None)
      (FileIndexer.mkState true false
         (FileIndexer.mkProgress true None 0 0) [] 0)
      FileWatcher.initial) as H.
    destruct (IpcHandlers.startIndexingHandler _ _ _ _) as [[[r i'] w'] s'].
    destruct H as [H _]. apply H. reflexivity.
  - pose proof (startIndexing_outcomes Posix.linux
      (IpcHandlers.mkIndexRequest
         (IpcHandlers.JArr [IpcHandlers.JStr (lit "  "); IpcHandlers.JNum 3])
         None)
      FileIndexer.initial FileWatcher.initial) as H.
    destruct (IpcHandlers.startIndexingHandler _ _ _ _) as [[[r i'] w'] s'].
    destruct H as [_ [H _]]. apply H; [reflexivity|].
    intros l Hl s Hs. injection Hl as <-.
    destruct Hs as [Hs|[Hs|[]]]; [injection Hs as <-; reflexivity|discriminate].
  - pose proof (startIndexing_outcomes Posix.linux
      (IpcHandlers.mkIndexRequest
         (IpcHandlers.JArr [IpcHandlers.JStr (lit "  ");
                            IpcHandlers.JStr (lit "/home/u")])
         (Some [lit "secret"]))
      FileIndexer.initial FileWatcher.initial) as H.
    destruct (IpcHandlers.startIndexingHandler _ _ _ _) as [[[r i'] w'] s'].
    destruct H as [_ [_ H]]. apply H; [reflexivity|].
    intros Hn.
    specialize (Hn _ eq_refl (lit "/home/u") (or_intror (or_introl eq_refl))).
    discriminate Hn.
Defined.

(** ** FileIndexer: what a scan collects and stores *)

Lemma str_eqb_eq (a b : str) : Js.str_eqb a b = true <-> a = b.
Proof.
  revert b. induction a as [|x a IH]; intros [|y b]; simpl;
    try (split; [discriminate|discriminate]); [tauto|].
  rewrite andb_true_iff, Ascii.eqb_eq, IH.
  split; [intros [-> ->]; reflexivity|intros H; injection H; auto].
Qed.

Lemma arr_includes_In (l : list str) (x : str) :
  Js.arr_includes l x = true <-> In x l.
Proof.
  unfold Js.arr_includes. rewrite existsb_exists. split.
  - intros (y & Hy & He). apply str_eqb_eq in He. subst. exact Hy.
  - intros H. exists x. split; [exact H|]. apply str_eqb_eq. reflexivity.
Qed.

Lemma Dirent_nested_ind (Q : Dirent -> Prop) :
  (forall n s, Q (FileEntry n s)) ->
  (forall n e, Q (DirEntry n (inl e))) ->
  (forall n es, Forall Q es -> Q (DirEntry n (inr es))) ->
  forall d, Q d.
Proof.
  intros HF HE HD. fix REC 1. intros [n s|n [e|es]].
  - apply HF.
  - apply HE.
  - apply HD. induction es as [|d es IHes]; constructor.
    + apply REC.
    + exact IHes.
Qed.

Section ScanFacts.

Variable P : Platform.
Variable uuidv4 : nat -> str.
Variables (rootPath : str) (excludePaths : list str).

Lemma scanDirectory_eq (dir : Dirent) (currentPath : str)
    (acc : list FileItem * FileIndexer.State) :
  FileIndexer.scanDirectory P uuidv4 dir currentPath rootPath excludePaths acc =
  if FileIndexer.shouldStop (snd acc) then acc
  else if FileIndexer.shouldExcludePath P currentPath excludePaths then acc
  else match dir with
       | DirEntry _ (inr entries) =>
           fold_left (scanChild P uuidv4 currentPath rootPath excludePaths)
             entries
             (fold_left (FileIndexer.processEntry P uuidv4 currentPath rootPath)
                entries acc)
       | _ => acc
       end.
Proof.
  destruct dir as [n s|n [e|entries]]; cbn [FileIndexer.scanDirectory];
    destruct (FileIndexer.shouldStop (snd acc)); try reflexivity;
    destruct (FileIndexer.shouldExcludePath P currentPath excludePaths);
    reflexivity.
Qed.

Lemma processEntry_Scanned (currentPath : str)
    (acc : list FileItem * FileIndexer.State) (e : Dirent) :
  FileIndexer.shouldExcludePath P currentPath excludePaths = false ->
  Forall (Scanned P excludePaths) (fst acc) ->
  Forall (Scanned P excludePaths)
    (fst (FileIndexer.processEntry P uuidv4 currentPath rootPath acc e)).
Proof.
  intros Hx Hacc. destruct acc as [files st]. unfold FileIndexer.processEntry.
  destruct (FileIndexer.shouldStop st); [exact Hacc|].
  destruct (FileIndexer.skipped P e); [exact Hacc|].
  destruct e as [n [err|stats]|n l]; try exact Hacc.
  cbn [fst]. apply Forall_app. split; [exact Hacc|].
  constructor; [|constructor].
  split; [reflexivity|]. exists currentPath. split; [reflexivity|exact Hx].
Qed.

Lemma processEntries_Scanned (currentPath : str) (entries : list Dirent) :
  FileIndexer.shouldExcludePath P currentPath excludePaths = false ->
  forall acc,
    Forall (Scanned P excludePaths) (fst acc) ->
    Forall (Scanned P excludePaths)
      (fst (fold_left (FileIndexer.processEntry P uuidv4 currentPath rootPath)
              entries acc)).
Proof.
  intros Hx. induction entries as [|e es IH]; intros acc Hacc; [exact Hacc|].
  cbn [fold_left]. apply IH. apply processEntry_Scanned; assumption.
Qed.

Lemma scanDirectory_Scanned (dir : Dirent) :
  forall currentPath acc,
    Forall (Scanned P excludePaths) (fst acc) ->
    Forall (Scanned P excludePaths)
      (fst (FileIndexer.scanDirectory P uuidv4 dir currentPath rootPath
              excludePaths acc)).
Proof.
  induction dir as [n s|n e|n es IHes] using Dirent_nested_ind;
    intros currentPath acc Hacc; rewrite scanDirectory_eq;
    destruct (FileIndexer.shouldStop (snd acc)); try exact Hacc;
    destruct (FileIndexer.shouldExcludePath P currentPath excludePaths) eqn:Hx;
    try exact Hacc.
  pose proof (processEntries_Scanned currentPath es Hx acc Hacc) as H1.
  revert H1.
  generalize (fold_left (FileIndexer.processEntry P uuidv4 currentPath rootPath)
                es acc).
  clear Hacc acc. induction IHes as [|e es He _ IH]; intros acc Hacc;
    [exact Hacc|].
  cbn [fold_left]. apply IH. unfold scanChild.
  destruct e as [m s|m l]; [exact Hacc|].
  destruct (FileIndexer.skipped P (DirEntry m l)
            || FileIndexer.shouldStop (snd acc)); [exact Hacc|].
  apply He. exact Hacc.
Qed.

End ScanFacts.

(** *** The rows a run writes *)

Lemma insert_or_replace_In (r x : Sqlite.Row) (t : list Sqlite.Row) :
  In r (Sqlite.insert_or_replace x t) -> r = x \/ In r t.
Proof.
  unfold Sqlite.insert_or_replace. rewrite in_app_iff, filter_In.
  intros [[H _]|[H|[]]]; auto.
Qed.

Lemma insert_batch_In (batch : list FileItem) :
  forall (t : list Sqlite.Row) (r : Sqlite.Row),
    In r (fold_left (fun t f => Sqlite.insert_or_replace (A.batchParams f) t)
            batch t) ->
    In r t \/ exists f, In f batch /\ r = A.batchParams f.
Proof.
  induction batch as [|f batch IH]; intros t r H; [left; exact H|].
  cbn [fold_left] in H. apply IH in H. destruct H as [H|(g & Hg & ->)].
  - apply insert_or_replace_In in H. destruct H as [->|H]; [|left; exact H].
    right. exists f. split; [left; reflexivity|reflexivity].
  - right. exists g. split; [right; exact Hg|reflexivity].
Qed.

Lemma insertFiles_rows (db db' : option Sqlite.Connection)
    (batch : list FileItem) (r : Sqlite.Row) :
  A.insertFiles db batch = inr db' ->
  In r (rowsOf db') ->
  In r (rowsOf db) \/ exists f, In f batch /\ r = A.batchParams f.
Proof.
  unfold A.insertFiles. destruct db as [conn|]; [|discriminate].
  destruct batch as [|f batch].
  - intros H; injection H as <-. auto.
  - destruct (Sqlite.fault conn); [discriminate|].
    intros H; injection H as H; subst db'. cbn [rowsOf Sqlite.files].
    apply (insert_batch_In (f :: batch)).
Qed.

Lemma batches_In (fuel : nat) :
  forall (files b : list FileItem) (f : FileItem),
    In b (FileIndexer.batches fuel files) -> In f b -> In f files.
Proof.
  induction fuel as [|fuel IH]; intros files b f Hb Hf.
  - destruct files; destruct Hb.
  - destruct files as [|x files]; [destruct Hb|].
    cbn [FileIndexer.batches] in Hb. destruct Hb as [<-|Hb].
    + rewrite <- (firstn_skipn FileIndexer.batchSize (x :: files)).
      apply in_or_app. left. exact Hf.
    + rewrite <- (firstn_skipn FileIndexer.batchSize (x :: files)).
      apply in_or_app. right. eapply IH; eassumption.
Qed.

Section RunFacts.

Variable P : Platform.
Variable uuidv4 : nat -> str.
Variable excludePaths : list str.

Lemma insertBatches_rows (total : nat) (bs : list (list FileItem)) :
  (forall b f, In b bs -> In f b -> Scanned P excludePaths f) ->
  forall acc r,
    In r (rowsOf (fst (fst (fold_left (FileIndexer.insertBatch total) bs acc)))) ->
    In r (rowsOf (fst (fst acc))) \/ FromScan P excludePaths r.
Proof.
  induction bs as [|b bs IH]; intros Hbs acc r H; [left; exact H|].
  cbn [fold_left] in H. apply IH in H.
  2:{ intros b' f Hb' Hf. apply (Hbs b' f); [right; exact Hb'|exact Hf]. }
  destruct H as [H|H]; [|right; exact H].
  destruct acc as [[db st] n]. unfold FileIndexer.insertBatch in H.
  destruct (FileIndexer.shouldStop st); [left; exact H|].
  destruct (A.insertFiles db b) as [e|db'] eqn:Hins; [left; exact H|].
  cbn [fst] in H |- *.
  destruct (insertFiles_rows db db' b r Hins H) as [H'|(f & Hf & ->)];
    [left; exact H'|].
  right. exists f. split; [|reflexivity].
  apply (Hbs b f); [left; reflexivity|exact Hf].
Qed.

Lemma indexPath_rows (root : Dirent) (rootPath : str)
    (db : option Sqlite.Connection) (st : FileIndexer.State) (r : Sqlite.Row) :
  In r (rowsOf (fst (FileIndexer.indexPath P uuidv4 root rootPath excludePaths
                       db st))) ->
  In r (rowsOf db) \/ FromScan P excludePaths r.
Proof.
  unfold FileIndexer.indexPath.
  pose proof (scanDirectory_Scanned P uuidv4 rootPath excludePaths root
                rootPath ([], st) (Forall_nil _)) as Hs.
  destruct (FileIndexer.scanDirectory P uuidv4 root rootPath rootPath
              excludePaths ([], st)) as [files st'].
  cbn [fst] in Hs. destruct files as [|f files]; [auto|].
  set (all := f :: files) in *.
  pose proof (insertBatches_rows (List.length all)
                (FileIndexer.batches (List.length all) all)) as Hb.
  destruct (fold_left (FileIndexer.insertBatch (List.length all))
              (FileIndexer.batches (List.length all) all) (db, st', 0%nat))
    as [[db' st''] n] eqn:Hfold.
  intros H. specialize (Hb (fun b g Hb Hg =>
    proj1 (Forall_forall _ _) Hs g (batches_In _ _ _ g Hb Hg)) (db, st', 0%nat) r).
  rewrite Hfold in Hb. apply Hb. exact H.
Qed.

Lemma indexRoots_rows (roots : list (str * Dirent)) :
  forall (acc : option Sqlite.Connection * FileIndexer.State) (r : Sqlite.Row),
    In r (rowsOf (fst (fold_left
           (fun (acc : option Sqlite.Connection * FileIndexer.State)
                (rt : str * Dirent) =>
              let (db, st) := acc in
              if FileIndexer.shouldStop st then acc
              else FileIndexer.indexPath P uuidv4 (snd rt) (fst rt)
                     excludePaths db st)
           roots acc))) ->
    In r (rowsOf (fst acc)) \/ FromScan P excludePaths r.
Proof.
  induction roots as [|rt roots IH]; intros acc r H; [left; exact H|].
  cbn [fold_left] in H. apply IH in H. destruct H as [H|H]; [|right; exact H].
  destruct acc as [db st]. destruct (FileIndexer.shouldStop st); [left; exact H|].
  apply indexPath_rows in H. exact H.
Qed.

Lemma run_rows (roots : list (str * Dirent)) (rows : list Sqlite.Row)
    (st : FileIndexer.State) :
  Forall (FromScan P excludePaths)
    (rowsOf (fst (FileIndexer.startIndexing_run P uuidv4 roots excludePaths
                    (Some (Sqlite.mkConnection rows None)) st))).
Proof.
  apply Forall_forall. intros r H.
  unfold FileIndexer.startIndexing_run in H.
  cbn [A.clearAll Sqlite.run_delete_all Sqlite.fault] in H.
  match type of H with
  | context [fold_left ?f roots ?a] =>
      pose proof (indexRoots_rows roots a r) as Hr;
      destruct (fold_left f roots a) as [db' st'] eqn:Hfold
  end.
  cbn [fst] in H. cbn [fst rowsOf Sqlite.files] in Hr.
  destruct (Hr H) as [[]|Hs]. exact Hs.
Qed.

End RunFacts.





(** ** FileIndexer: the exclusion filter *)

(** C5, as the code has it.  [shouldExcludePath] excludes a path exactly
    when some token of the default denylist or of the caller's list, lower
    cased, equals a segment of the normalized lower-cased path or occurs in
    that path as a substring, or the path has more than 20 segments.  The
    scanner applies the filter to the directories it enters: every record
    of a scan lies directly in a directory the filter accepted.  The last
    segment of a record's path, the file name, is not put to the filter. *)
Theorem exclusion_filter (P : Platform) (uuidv4 : nat -> str)
    (excludePaths : list str) :
  (forall currentPath : str,
      let normalizedPath := Js.toLowerCase (normalize P currentPath) in
      let pathParts := Js.split_on (sep P) normalizedPath in
      FileIndexer.shouldExcludePath P currentPath excludePaths = true <->
      (exists token,
          In token (FileIndexer.defaultExclusions ++ excludePaths)
          /\ (In (Js.toLowerCase token) pathParts
              \/ Js.includes normalizedPath (Js.toLowerCase token) = true))
      \/ (20 < List.length pathParts)%nat)
  /\ (forall (root : Dirent) (rootPath : str) (st : FileIndexer.State),
         Forall (fun f =>
                   exists currentPath,
                     fullPath f = join P currentPath (name f)
                     /\ FileIndexer.shouldExcludePath P currentPath excludePaths
                        = false)
           (fst (FileIndexer.scanDirectory P uuidv4 root rootPath rootPath
                   excludePaths ([], st))))
  /\ (forall (roots : list (str * Dirent)) (rows : list Sqlite.Row)
             (st : FileIndexer.State),
         Forall (fun r =>
                   exists currentPath,
                     Sqlite.col_fullPath r = join P currentPath (Sqlite.col_name r)
                     /\ FileIndexer.shouldExcludePath P currentPath excludePaths
                        = false)
           (rowsOf (fst (FileIndexer.startIndexing_run P uuidv4 roots
                           excludePaths
                           (Some (Sqlite.mkConnection rows None)) st)))).
Proof.
  split; [|split].
  - intros currentPath normalizedPath pathParts.
    unfold FileIndexer.shouldExcludePath.
    fold normalizedPath. fold pathParts.
    destruct (existsb _ _) eqn:He.
    + split; [intros _; left|reflexivity].
      apply existsb_exists in He. destruct He as (token & Hin & Ht).
      exists token. split; [exact Hin|].
      apply orb_true_iff in Ht. destruct Ht as [Ht|Ht]; [left|right; exact Ht].
      apply arr_includes_In. exact Ht.
    + destruct (Nat.ltb_spec 20%nat (List.length pathParts)) as [Hl|Hl].
      * split; [intros _; right; exact Hl|reflexivity].
      * split; [discriminate|]. intros [(token & Hin & Ht)|Hgt]; [|lia].
        assert (existsb
                  (fun exclusion =>
                     Js.arr_includes pathParts (Js.toLowerCase exclusion)
                     || Js.includes normalizedPath (Js.toLowerCase exclusion))
                  (FileIndexer.defaultExclusions ++ excludePaths) = true) as Hc.
        { apply existsb_exists. exists token. split; [exact Hin|].
          apply orb_true_iff. destruct Ht as [Ht|Ht]; [left|right; exact Ht].
          apply arr_includes_In. exact Ht. }
        rewrite Hc in He. discriminate He.
  - intros root rootPath st.
    eapply Forall_impl;
      [|apply (scanDirectory_Scanned P uuidv4 rootPath excludePaths root
                 rootPath ([], st) (Forall_nil _))].
    intros f [_ H]. exact H.
  - intros roots rows st.
    eapply Forall_impl; [|apply run_rows].
    intros r (f & [_ (cur & Hp & Hx)] & ->). exists cur. split; [|exact Hx].
    unfold A.batchParams. cbn. exact Hp.
Qed.

(** C5, as stated, fails in its consequence: a scan of [/home/u/proj]
    stores the file [/home/u/proj/build], and [build] is a segment of that
    path and a token of the default denylist. *)
Lemma excluded_name_stored_counterexample :
  map Sqlite.col_fullPath
    (rowsOf (fst (FileIndexer.startIndexing_run Posix.linux uuidSeq
                    [(lit "/home/u/proj", projectWithBuildScript)] []
                    (Some (Sqlite.mkConnection [] None)) FileIndexer.initial)))
  = [lit "/home/u/proj/build"]
  /\ In (lit "build") (FileIndexer.defaultExclusions ++ [])
  /\ In (Js.toLowerCase (lit "build"))
        (Js.split_on (sep Posix.linux)
           (Js.toLowerCase (normalize Posix.linux (lit "/home/u/proj/build")))).
Proof.
  split; [vm_compute; reflexivity|split].
  - vm_compute. tauto.
  - vm_compute. tauto.
Qed.

(** ** SearchService: relevance ordering *)

Section SortFacts.

Variable A : Type.
Variable key : A -> Z.

Let le (a b : A) : bool := (key b <=? key a)%Z.
Let R (a b : A) : Prop := (key b <= key a)%Z.

Lemma insert_perm (x : A) (l : list A) :
  Permutation (Stable.insert le x l) (x :: l).
Proof.
  induction l as [|y l IH]; cbn [Stable.insert]; [reflexivity|].
  destruct (le x y); [reflexivity|].
  rewrite IH. apply perm_swap.
Qed.


Lemma insert_sorted (x : A) (l : list A) :
  StronglySorted R l -> StronglySorted R (Stable.insert le x l).
Proof.
  induction 1 as [|y l Hs IH Hy]; cbn [Stable.insert].
  - constructor; constructor.
  - unfold le at 1. destruct (Z.leb_spec (key y) (key x)) as [Hle|Hgt].
    + constructor; [constructor; assumption|].
      constructor; [exact Hle|].
      eapply Forall_impl; [|exact Hy]. unfold R. intros z Hz. lia.
    + constructor; [exact IH|].
      eapply Permutation_Forall; [symmetry; apply insert_perm|].
      constructor; [unfold R; lia|exact Hy].
Qed.

Lemma sort_sorted (l : list A) : StronglySorted R (Stable.sort le l).
Proof.
  induction l as [|x l IH]; cbn [Stable.sort]; [constructor|].
  apply insert_sorted. exact IH.
Qed.



End SortFacts.




(** The whole search at the two fixtures: the store lists
    [quarterly_report.txt] first, the search returns [report.txt] first. *)
Example search_report_example :
  map name
    (rowsOfItems
       (DatabaseSqlite3.searchFiles
          (Some (Sqlite.mkConnection
                   [A.fileParams quarterlyReportTxt; A.fileParams reportTxt]
                   None))
          (lit "report") 200 0))
  = [lit "quarterly_report.txt"; lit "report.txt"]
  /\ map name
       (items (fst (fst (SearchService.search
                           (Some (Sqlite.mkConnection
                                    [A.fileParams quarterlyReportTxt;
                                     A.fileParams reportTxt] None))
                           fuseEverything SearchService.initial 1700000100000
                           (lit "report") SearchService.FUndefined 100 0))))
     = [lit "report.txt"; lit "quarterly_report.txt"].
Proof. split; vm_compute; reflexivity. Qed.

(** ** SearchService: choice of strategy *)

Lemma trimStart_nil (s : str) :
  Js.trimStart s = [] <-> Forall (fun c => Js.is_space c = true) s.
Proof.
  induction s as [|c s IH]; cbn [Js.trimStart].
  - split; [constructor|reflexivity].
  - destruct (Js.is_space c) eqn:Hc.
    + rewrite IH. split; [constructor; assumption|].
      intros H. apply Forall_inv_tail in H. exact H.
    + split; [discriminate|]. intros H. apply Forall_inv in H. congruence.
Qed.


Lemma trimStart_idem (s : str) : Js.trimStart (Js.trimStart s) = Js.trimStart s.
Proof.
  induction s as [|c s IH]; cbn [Js.trimStart]; [reflexivity|].
  destruct (Js.is_space c) eqn:Hc; [exact IH|].
  cbn [Js.trimStart]. rewrite Hc. reflexivity.
Qed.

Lemma trim_nil (s : str) :
  Js.trim s = [] <-> Forall (fun c => Js.is_space c = true) s.
Proof.
  unfold Js.trim, Js.trimEnd. split.
  - intros H. apply (f_equal (@rev ascii)) in H. rewrite rev_involutive in H.
    cbn [rev] in H. apply trimStart_nil in H.
    apply Forall_rev in H. rewrite rev_involutive in H.
    apply trimStart_nil. rewrite <- trimStart_idem. apply trimStart_nil. exact H.
  - intros H. apply trimStart_nil in H. rewrite H. reflexivity.
Qed.

Lemma includes_char (s : str) (c : ascii) :
  Js.includes s [c] = true <-> In c s.
Proof.
  induction s as [|x s IH]; cbn [Js.includes Js.startsWith].
  - split; [discriminate|intros []].
  - rewrite orb_true_iff, IH. cbn [In].
    destruct (Ascii.eqb_spec c x) as [->|Hne]; cbn [andb].
    + split; auto.
    + split; (intros [H|H]; [|auto]); [discriminate H|congruence].
Qed.

Lemma shouldUseFuzzySearch_spec (q : str) :
  SearchService.shouldUseFuzzySearch q = true <->
  (3 < List.length q)%nat
  /\ exists c, In c q
               /\ (c = "*"%char \/ c = "?"%char
                   \/ SearchService.is_plain c = false).
Proof.
  unfold SearchService.shouldUseFuzzySearch.
  rewrite andb_true_iff, Nat.ltb_lt, !orb_true_iff.
  change (lit "*") with ["*"%char]. change (lit "?") with ["?"%char].
  rewrite !includes_char, existsb_exists.
  split; intros [Hl H]; (split; [exact Hl|]).
  - destruct H as [[H|H]|(c & Hc & Hp)].
    + exists "*"%char. auto.
    + exists "?"%char. auto.
    + exists c. rewrite negb_true_iff in Hp. auto.
  - destruct H as (c & Hc & [->|[->|Hp]]); auto.
    right. exists c. rewrite Hp. auto.
Qed.

Lemma fuzzy_query_not_blank (q : str) :
  SearchService.shouldUseFuzzySearch q = true -> Js.trim q <> [].
Proof.
  intros H. apply shouldUseFuzzySearch_spec in H.
  destruct H as (_ & c & Hc & Hp). intros Ht. apply trim_nil in Ht.
  pose proof (proj1 (Forall_forall _ _) Ht c Hc) as Hs.
  destruct Hp as [->|[->|Hp]]; try discriminate Hs.
  unfold SearchService.is_plain in Hp. rewrite Hs in Hp.
  rewrite !orb_true_r in Hp. discriminate Hp.
Qed.

Lemma combineFilters_ok (filters : SearchService.FiltersArg)
    (ops : SearchService.Operators) :
  filters <> SearchService.FNull ->
  exists c, SearchService.combineFilters filters ops = inr c.
Proof.
  intros H. destruct filters; [| contradiction H; reflexivity |];
    eexists; reflexivity.
Qed.

Section SearchFacts.

Variable db : option Sqlite.Connection.
Variable fuse_search : SearchService.Fuse -> str -> Z -> list FileItem.

Lemma search_fuzzy (st : SearchService.State) (now : Z) (query : str)
    (filters : SearchService.FiltersArg) (limit offset : Z)
    (combined : SearchService.Combined) :
  let cleanQuery := fst (SearchService.parseSearchOperators now query) in
  SearchService.combineFilters filters
    (snd (SearchService.parseSearchOperators now query)) = inr combined ->
  SearchService.shouldUseFuzzySearch cleanQuery = true ->
  SearchService.search db fuse_search st now query filters limit offset =
  let '(r, st', calls) :=
    SearchService.fuzzySearch db fuse_search st now cleanQuery limit in
  (resultOf now query cleanQuery combined limit offset r, st', calls).
Proof.
  intros cleanQuery Hc Hfz. subst cleanQuery.
  unfold SearchService.search, SearchService.search_try.
  destruct (SearchService.parseSearchOperators now query) as [clean ops].
  cbn [fst snd] in *. rewrite Hc.
  pose proof (fuzzy_query_not_blank clean Hfz) as Hnb.
  destruct (Js.trim clean) eqn:Ht; [contradiction Hnb; reflexivity|].
  rewrite Hfz.
  destruct (SearchService.fuzzySearch db fuse_search st now clean limit)
    as [[r st'] calls].
  reflexivity.
Qed.

Lemma search_database (st : SearchService.State) (now : Z) (query : str)
    (filters : SearchService.FiltersArg) (limit offset : Z)
    (combined : SearchService.Combined) :
  let cleanQuery := fst (SearchService.parseSearchOperators now query) in
  SearchService.combineFilters filters
    (snd (SearchService.parseSearchOperators now query)) = inr combined ->
  SearchService.shouldUseFuzzySearch cleanQuery = false
  \/ Js.trim cleanQuery = [] ->
  let q := match Js.trim cleanQuery with [] => [] | _ => cleanQuery end in
  SearchService.search db fuse_search st now query filters limit offset =
  (match DatabaseSqlite3.searchFiles db q (limit * 2) offset with
   | inr r => resultOf now query cleanQuery combined limit offset r
   | inl _ => mkSearchResult [] 0 query
   end, st, [SearchService.DbSearchFiles q (limit * 2) offset]).
Proof.
  intros cleanQuery Hc Hfz q. subst cleanQuery q.
  unfold SearchService.search, SearchService.search_try.
  destruct (SearchService.parseSearchOperators now query) as [clean ops].
  cbn [fst snd] in *. rewrite Hc.
  unfold SearchService.searchWithFilters, SearchService.databaseSearch.
  destruct (Js.trim clean) eqn:Ht.
  - destruct (DatabaseSqlite3.searchFiles db [] (limit * 2) offset);
      reflexivity.
  - destruct Hfz as [Hfz|Hfz]; [|discriminate Hfz]. rewrite Hfz.
    destruct (DatabaseSqlite3.searchFiles db clean (limit * 2) offset);
      reflexivity.
Qed.


End SearchFacts.




(** ** SearchService: failures *)

Lemma searchFiles_unreadable (db : option Sqlite.Connection) (q : str)
    (limit offset : Z) :
  Unreadable db -> exists e, A.searchFiles db q limit offset = inl e.
Proof.
  unfold A.searchFiles, Sqlite.all, Unreadable.
  destruct db as [conn|]; [|eexists; reflexivity].
  intros H. destruct (A.whereClause (A.parseSearchQuery q)) as [conds ps].
  destruct (Sqlite.fault conn); [eexists; reflexivity|contradiction H; reflexivity].
Qed.

Lemma sort_nothing (now : Z) (q : str) : SearchService.sortResults now [] q = [].
Proof. unfold SearchService.sortResults. destruct (Js.trim q); reflexivity. Qed.

(** C4, as the code has it.  An exception that reaches the [try] of
    [search] never leaves it: [search] answers with no items, a total of 0
    and the query it was given.  That is the case for a [null] filter
    object, and for a store that cannot be read whenever the clean text is
    blank or goes to the structured database search.  On the fuzzy path a
    store that cannot be read does not raise in [search]: the refresh of
    the index absorbs the failure, and the answer is empty when the service
    holds no index. *)
Theorem search_absorbs_errors (db : option Sqlite.Connection)
    (fuse_search : SearchService.Fuse -> str -> Z -> list FileItem)
    (st : SearchService.State) (now : Z) (query : str)
    (filters : SearchService.FiltersArg) (limit offset : Z) :
  let cleanQuery := fst (SearchService.parseSearchOperators now query) in
  let answer := fst (fst (SearchService.search db fuse_search st now query
                            filters limit offset)) in
  (forall e st' calls,
      SearchService.search_try db fuse_search st now query filters limit offset
      = (inl e, st', calls) ->
      SearchService.search db fuse_search st now query filters limit offset
      = (mkSearchResult [] 0 query, st', calls))
  /\ (filters = SearchService.FNull -> answer = mkSearchResult [] 0 query)
  /\ (filters <> SearchService.FNull -> Unreadable db ->
      Js.trim cleanQuery = []
      \/ SearchService.shouldUseFuzzySearch cleanQuery = false ->
      answer = mkSearchResult [] 0 query)
  /\ (filters <> SearchService.FNull -> Unreadable db ->
      SearchService.shouldUseFuzzySearch cleanQuery = true ->
      SearchService.fuseIndex st = None ->
      answer = mkSearchResult [] 0 query).
Proof.
  intros cleanQuery answer. split; [|split; [|split]].
  - intros e st' calls H. unfold SearchService.search. rewrite H. reflexivity.
  - intros ->. subst answer.
    unfold SearchService.search, SearchService.search_try.
    destruct (SearchService.parseSearchOperators now query) as [clean ops].
    reflexivity.
  - intros Hf Hu Hq. subst answer.
    destruct (combineFilters_ok filters
                (snd (SearchService.parseSearchOperators now query)) Hf)
      as [combined Hc].
    assert (Hq' : SearchService.shouldUseFuzzySearch cleanQuery = false
                  \/ Js.trim cleanQuery = []) by tauto.
    rewrite (search_database db fuse_search st now query filters limit offset
               combined Hc Hq').
    cbn [fst].
    match goal with
    | |- context [A.searchFiles db ?q ?l ?o] =>
        destruct (searchFiles_unreadable db q l o Hu) as [e ->]
    end.
    reflexivity.
  - intros Hf Hu Hfz Hi. subst answer.
    destruct (combineFilters_ok filters
                (snd (SearchService.parseSearchOperators now query)) Hf)
      as [combined Hc].
    rewrite (search_fuzzy db fuse_search st now query filters limit offset
               combined Hc Hfz).
    fold cleanQuery.
    unfold SearchService.fuzzySearch, SearchService.updateFuseIndex.
    rewrite Hi.
    destruct (searchFiles_unreadable db [] 10000 0 Hu) as [e ->].
    rewrite Hi. cbn [fst]. unfold resultOf, SearchService.applyFilters.
    cbn [filter]. rewrite sort_nothing. unfold Js.slice.
    rewrite skipn_nil, firstn_nil. reflexivity.
Qed.

Lemma search_absorbs_errors_witness :
  fst (fst (SearchService.search twelveFiles fuseEverything
              SearchService.initial 1700000000000 (lit "report")
              SearchService.FNull 100 0))
  = mkSearchResult [] 0 (lit "report")
  /\ fst (fst (SearchService.search failingStore fuseEverything
                 SearchService.initial 1700000000000 (lit "report")
                 SearchService.FUndefined 100 0))
     = mkSearchResult [] 0 (lit "report").
Proof.
  split.
  - destruct (search_absorbs_errors twelveFiles fuseEverything
                SearchService.initial 1700000000000 (lit "report")
                SearchService.FNull 100 0) as (_ & H & _).
    apply H. reflexivity.
  - destruct (search_absorbs_errors failingStore fuseEverything
                SearchService.initial 1700000000000 (lit "report")
                SearchService.FUndefined 100 0) as (_ & _ & H & _).
    apply H.
    + discriminate.
    + cbn. discriminate.
    + right. reflexivity.
Defined.

(** C4, as stated, fails: ten minutes after the fuzzy index was built the
    store can no longer be read; the refresh of the index raises inside the
    search, and the search still answers with a record, from the index it
    holds. *)
Lemma stale_index_counterexample :
  A.searchFiles failingStore [] 10000 0
  = inl (Error (lit "SQLITE_IOERR: disk I/O error"))
  /\ SearchService.search failingStore fuseEverything indexedAtZero 600000
       (lit "rep*rt") SearchService.FUndefined 100 0
     = (mkSearchResult [reportTxt] 1 (lit "rep*rt"),
        indexedAtZero,
        [SearchService.DbSearchFiles [] 10000 0;
         SearchService.FuseSearch (lit "rep*rt") 200]).
Proof. split; vm_compute; reflexivity. Qed.

(** ** SearchService: pagination *)

Lemma stable_insert_length (A : Type) (le : A -> A -> bool) (x : A) (l : list A) :
  List.length (Stable.insert le x l) = S (List.length l).
Proof.
  induction l as [|y l IH]; cbn [Stable.insert]; [reflexivity|].
  destruct (le x y); cbn [List.length]; [reflexivity|]. rewrite IH. reflexivity.
Qed.

Lemma stable_sort_length (A : Type) (le : A -> A -> bool) (l : list A) :
  List.length (Stable.sort le l) = List.length l.
Proof.
  induction l as [|x l IH]; cbn [Stable.sort]; [reflexivity|].
  rewrite stable_insert_length, IH. reflexivity.
Qed.

Lemma sortResults_length (now : Z) (l : list FileItem) (q : str) :
  List.length (SearchService.sortResults now l q) = List.length l.
Proof.
  unfold SearchService.sortResults. destruct (Js.trim q);
    apply stable_sort_length.
Qed.

Lemma skipn_last_two (A : Type) (X : list A) (a b : A) :
  skipn (List.length (X ++ [a; b]) - 2) (X ++ [a; b]) = [a; b].
Proof.
  rewrite length_app. cbn [List.length]. rewrite Nat.add_sub.
  rewrite skipn_app, skipn_all, Nat.sub_diag. reflexivity.
Qed.

Lemma searchFiles_length (db : option Sqlite.Connection) (q : str)
    (limit offset : Z) (r : list FileItem) :
  (0 <= limit)%Z ->
  A.searchFiles db q limit offset = inr r ->
  (Z.of_nat (List.length r) <= limit)%Z.
Proof.
  intros Hl. unfold A.searchFiles, Sqlite.all.
  destruct db as [conn|]; [|discriminate].
  destruct (A.whereClause (A.parseSearchQuery q)) as [conds ps].
  destruct (Sqlite.fault conn); [discriminate|].
  assert (E : exists X,
             match conds with
             | [] => [Sqlite.Integer limit; Sqlite.Integer offset]
             | _ :: _ => ps ++ [Sqlite.Integer limit; Sqlite.Integer offset]
             end = X ++ [Sqlite.Integer limit; Sqlite.Integer offset]).
  { destruct conds; [exists []|exists ps]; reflexivity. }
  destruct E as [X ->].
  destruct (negb _); [discriminate|].
  rewrite skipn_last_two.
  intros H. injection H as <-.
  rewrite length_map. unfold Sqlite.limit_offset.
  destruct (Z.ltb_spec limit 0) as [Hn|_]; [lia|].
  pose proof (firstn_le_length (Z.to_nat limit)
                (skipn (Z.to_nat offset)
                   (Stable.sort Sqlite.order_le
                      (filter (Sqlite.eval_where conds
                                 (firstn (List.length
                                            (X ++ [Sqlite.Integer limit;
                                                   Sqlite.Integer offset]) - 2)
                                    (X ++ [Sqlite.Integer limit;
                                           Sqlite.Integer offset])))
                         (Sqlite.files conn))))) as Hf.
  lia.
Qed.

Lemma slice_past_end (A : Type) (l : list A) (start stop : Z) :
  (Z.of_nat (List.length l) <= start)%Z -> Js.slice l start stop = [].
Proof.
  intros H. unfold Js.slice, Js.clamp_index.
  destruct (Z.ltb_spec start 0) as [Hn|_]; [lia|].
  rewrite (Z.min_r start (Z.of_nat (List.length l)) H).
  rewrite Nat2Z.id, skipn_all, firstn_nil.
  reflexivity.
Qed.

(** On the two database paths a page that starts at or beyond twice the
    limit is empty, whatever the store holds: the store returns at most
    [2 * limit] rows from [offset] on, and [slice] then skips [offset] of
    them. *)
Lemma late_pages_empty (db : option Sqlite.Connection)
    (fuse_search : SearchService.Fuse -> str -> Z -> list FileItem)
    (st : SearchService.State) (now : Z) (query : str)
    (filters : SearchService.FiltersArg) (limit offset : Z) :
  (0 <= limit)%Z -> (2 * limit <= offset)%Z ->
  let cleanQuery := fst (SearchService.parseSearchOperators now query) in
  SearchService.shouldUseFuzzySearch cleanQuery = false
  \/ Js.trim cleanQuery = [] ->
  items (fst (fst (SearchService.search db fuse_search st now query filters
                     limit offset))) = [].
Proof.
  intros Hl Ho cleanQuery Hq.
  destruct (SearchService.combineFilters filters
              (snd (SearchService.parseSearchOperators now query)))
    as [e|combined] eqn:Hc.
  { unfold SearchService.search, SearchService.search_try.
    destruct (SearchService.parseSearchOperators now query) as [clean ops].
    cbn [snd] in Hc. rewrite Hc. reflexivity. }
  rewrite (search_database db fuse_search st now query filters limit offset
             combined Hc Hq).
  cbn [fst]. fold cleanQuery.
  match goal with
  | |- context [A.searchFiles db ?q ?l ?o] =>
      destruct (A.searchFiles db q l o) as [e|r] eqn:Hs
  end; [reflexivity|].
  apply searchFiles_length in Hs; [|lia].
  unfold resultOf. cbn [items]. apply slice_past_end.
  rewrite sortResults_length. unfold SearchService.applyFilters.
  pose proof (filter_length_le (SearchService.keep combined) r). lia.
Qed.

(** C1 at twelve stored files, empty query, no filter.  One call with
    limit 100 returns the twelve records.  With limit 10 the page at offset
    0 holds the first ten, and the pages at offsets 10 and 20 are empty:
    the store has already skipped [offset] rows when [slice] skips
    [offset] records again.  The pages together miss [f10.txt] and
    [f11.txt]. *)
Lemma pagination_gap :
  map name
    (items (fst (fst (SearchService.search twelveFiles fuseEverything
                        SearchService.initial 1700000000000 []
                        SearchService.FUndefined 100 0))))
  = map (fun r => Sqlite.col_name (numbered r)) (seq 0 12)
  /\ map name
       (items (fst (fst (SearchService.search twelveFiles fuseEverything
                           SearchService.initial 1700000000000 []
                           SearchService.FUndefined 10 0))))
     = map (fun r => Sqlite.col_name (numbered r)) (seq 0 10)
  /\ items (fst (fst (SearchService.search twelveFiles fuseEverything
                        SearchService.initial 1700000000000 []
                        SearchService.FUndefined 10 10))) = []
  /\ items (fst (fst (SearchService.search twelveFiles fuseEverything
                        SearchService.initial 1700000000000 []
                        SearchService.FUndefined 10 20))) = []
  /\ snd (SearchService.search twelveFiles fuseEverything
            SearchService.initial 1700000000000 []
            SearchService.FUndefined 10 10)
     = [SearchService.DbSearchFiles [] 20 10]
  /\ items (fst (fst (SearchService.search twelveFiles fuseEverything
                        SearchService.initial 1700000000000 []
                        SearchService.FUndefined 10 0)))
     ++ items (fst (fst (SearchService.search twelveFiles fuseEverything
                           SearchService.initial 1700000000000 []
                           SearchService.FUndefined 10 10)))
     ++ items (fst (fst (SearchService.search twelveFiles fuseEverything
                           SearchService.initial 1700000000000 []
                           SearchService.FUndefined 10 20)))
     <> items (fst (fst (SearchService.search twelveFiles fuseEverything
                           SearchService.initial 1700000000000 []
                           SearchService.FUndefined 100 0))).
Proof.
  split; [vm_compute; reflexivity|].
  split; [vm_compute; reflexivity|].
  split; [vm_compute; reflexivity|].
  split; [vm_compute; reflexivity|].
  split; [vm_compute; reflexivity|].
  intros E. apply (f_equal (@List.length FileItem)) in E.
  vm_compute in E. discriminate E.
Qed.

(** ** SearchService: the size operator *)

Lemma lower_char_colon (d : ascii) : Js.lower_char d = colon -> d = colon.
Proof.
  destruct d as [[] [] [] [] [] [] [] []]; vm_compute; intros H;
    first [reflexivity | discriminate H].
Qed.

Lemma prefix_ci_nth (p : str) :
  forall (s r : str) (i : nat) (c : ascii),
    Re.prefix_ci p s = Some r -> nth_error p i = Some c ->
    exists d, nth_error s i = Some d /\ Js.lower_char c = Js.lower_char d.
Proof.
  induction p as [|x p IH]; intros s r i c Hp Hn.
  - destruct i; discriminate Hn.
  - destruct s as [|y s]; [discriminate Hp|]. cbn [Re.prefix_ci] in Hp.
    destruct (Ascii.eqb_spec (Js.lower_char x) (Js.lower_char y)) as [E|E];
      [|discriminate Hp].
    destruct i as [|i]; cbn [nth_error] in *.
    + injection Hn as <-. exists y. auto.
    + eapply IH; eassumption.
Qed.

Lemma prefix_ci_colon (kw s r : str) (k : nat) :
  Re.prefix_ci kw s = Some r -> nth_error kw k = Some colon ->
  nth_error s k = Some colon.
Proof.
  intros Hp Hk. destruct (prefix_ci_nth kw s r k colon Hp Hk) as (d & Hd & El).
  rewrite Hd. f_equal. apply lower_char_colon. symmetry. exact El.
Qed.

Lemma ext_at_colon : ColonAt 3 SearchService.ext_at.
Proof.
  intros s n H. unfold SearchService.ext_at, SearchService.keyword_word_at in H.
  destruct (Re.prefix_ci (lit "ext:") s) as [r|] eqn:Hp; [|discriminate H].
  eapply prefix_ci_colon; [exact Hp|reflexivity].
Qed.

Lemma type_at_colon : ColonAt 4 SearchService.type_at.
Proof.
  intros s n H. unfold SearchService.type_at, SearchService.keyword_word_at in H.
  destruct (Re.prefix_ci (lit "type:") s) as [r|] eqn:Hp; [|discriminate H].
  eapply prefix_ci_colon; [exact Hp|reflexivity].
Qed.

Lemma date_at_colon : ColonAt 4 SearchService.date_at.
Proof.
  intros s n H. unfold SearchService.date_at in H.
  destruct (Re.prefix_ci (lit "date:") s) as [r|] eqn:Hp; [|discriminate H].
  eapply prefix_ci_colon; [exact Hp|reflexivity].
Qed.

Lemma size_at_colon : ColonAt 4 SearchService.size_at.
Proof.
  intros s n H. unfold SearchService.size_at, SearchService.size_groups_at in H.
  destruct (Re.prefix_ci (lit "size:") s) as [r|] eqn:Hp; [|discriminate H].
  eapply prefix_ci_colon; [exact Hp|reflexivity].
Qed.

Lemma NoColon_nth (s : str) (k : nat) : NoColon s -> nth_error s k <> Some colon.
Proof.
  intros H E. apply nth_error_In in E.
  exact (proj1 (Forall_forall _ _) H colon E eq_refl).
Qed.



Lemma fails_without_colon (m : Re.matcher) (k : nat) (s : str) :
  ColonAt k m -> NoColon s -> m s = None.
Proof.
  intros Hm Hn. destruct (m s) as [n|] eqn:E; [|reflexivity].
  exfalso. exact (NoColon_nth s k Hn (Hm _ _ E)).
Qed.

(** Scanning over a stretch on which the matcher fails at every position. *)
Lemma scan_prefix (m : Re.matcher) (pre rest : str) :
  (forall a b, pre = a ++ b -> b <> [] -> m (b ++ rest) = None) ->
  Re.match_all m 0 (pre ++ rest) = Re.match_all m 0 rest
  /\ Re.replace_all m 0 (pre ++ rest) = pre ++ Re.replace_all m 0 rest.
Proof.
  induction pre as [|c pre IH]; intros H; [split; reflexivity|].
  cbn [app Re.match_all Re.replace_all].
  pose proof (H [] (c :: pre) eq_refl ltac:(discriminate)) as H0.
  cbn [app] in H0. rewrite H0.
  destruct IH as [IH1 IH2].
  { intros a b -> Hb. apply (H (c :: a) b eq_refl Hb). }
  rewrite IH1, IH2. split; reflexivity.
Qed.


Lemma scan_plain (m : Re.matcher) (k : nat) (s : str) :
  ColonAt k m -> NoColon s ->
  Re.match_all m 0 s = [] /\ Re.replace_all m 0 s = s.
Proof.
  intros Hm Hn.
  destruct (scan_prefix m s []) as [H1 H2].
  { intros a b -> Hb. rewrite app_nil_r. apply (fails_without_colon m k); [exact Hm|].
    apply Forall_app in Hn. tauto. }
  rewrite app_nil_r in H1, H2. cbn in H1, H2. rewrite app_nil_r in H2. auto.
Qed.







(** *** The size token *)













Lemma startsWith_app (p : str) :
  forall s, Js.startsWith s p = true -> exists r, s = p ++ r.
Proof.
  induction p as [|x p IH]; intros s H; [exists s; reflexivity|].
  destruct s as [|y s]; [discriminate H|]. cbn [Js.startsWith] in H.
  apply andb_true_iff in H. destruct H as [E H]. apply Ascii.eqb_eq in E.
  destruct (IH s H) as [r ->]. exists r. subst. reflexivity.
Qed.







(** ** The store: keys stay unique *)

(** Deleting rows keeps a column free of repetitions. *)
Lemma kept_rows_distinct (column : Sqlite.Row -> str)
    (kept : Sqlite.Row -> bool) (rows : list Sqlite.Row) :
  NoDup (map column rows) -> NoDup (map column (filter kept rows)).
Proof.
  induction rows as [|r rows IH]; cbn [map filter]; intros H; [constructor|].
  apply NoDup_cons_iff in H. destruct H as [Hr Hrows].
  destruct (kept r); cbn [map]; [|auto].
  constructor; [|auto]. intros Hin. apply Hr.
  apply in_map_iff in Hin. destruct Hin as (y & Hy & Hin).
  apply filter_In in Hin. apply in_map_iff. exists y. tauto.
Qed.

Lemma insert_or_replace_WellKeyed (r : Sqlite.Row) (t : list Sqlite.Row) :
  WellKeyed t -> WellKeyed (Sqlite.insert_or_replace r t).
Proof.
  intros [Hp Hi]. unfold WellKeyed, Sqlite.insert_or_replace.
  rewrite !map_app. cbn [map].
  split; (apply NoDup_app; [apply kept_rows_distinct; assumption
                           | repeat constructor; intros []
                           | ]);
    intros x Hx [Hr|[]]; subst x; apply in_map_iff in Hx;
    destruct Hx as (y & Hy & Hin); apply filter_In in Hin;
    destruct Hin as [_ Hin]; apply negb_true_iff, orb_false_iff in Hin;
    destruct Hin as [H1 H2].
  - rewrite Hy in H2. rewrite (proj2 (str_eqb_eq _ _) eq_refl) in H2.
    discriminate H2.
  - rewrite Hy in H1. rewrite (proj2 (str_eqb_eq _ _) eq_refl) in H1.
    discriminate H1.
Qed.

Lemma filter_WellKeyed (p : Sqlite.Row -> bool) (t : list Sqlite.Row) :
  WellKeyed t -> WellKeyed (filter p t).
Proof. intros [Hp Hi]. split; apply kept_rows_distinct; assumption. Qed.

Lemma insertFile_WellKeyed (db db' : option Sqlite.Connection) (f : FileItem) :
  A.insertFile db f = inr db' -> WellKeyed (rowsOf db) -> WellKeyed (rowsOf db').
Proof.
  unfold A.insertFile, Sqlite.run_insert. destruct db as [[rows [msg|]]|];
    try discriminate.
  intros H; injection H as H; subst db'. apply insert_or_replace_WellKeyed.
Qed.

Lemma insert_batch_WellKeyed (batch : list FileItem) :
  forall rows, WellKeyed rows ->
    WellKeyed (fold_left (fun t f => Sqlite.insert_or_replace (A.batchParams f) t)
                 batch rows).
Proof.
  induction batch as [|g batch IH]; intros rows Hw; [exact Hw|].
  cbn [fold_left]. apply IH. apply insert_or_replace_WellKeyed. exact Hw.
Qed.

Lemma insertFiles_WellKeyed (db db' : option Sqlite.Connection)
    (batch : list FileItem) :
  A.insertFiles db batch = inr db' -> WellKeyed (rowsOf db) ->
  WellKeyed (rowsOf db').
Proof.
  unfold A.insertFiles. destruct db as [[rows flt]|]; [|discriminate].
  destruct batch as [|f batch]; [intros H; injection H as H; subst db'; auto|].
  cbn [Sqlite.fault]. destruct flt; [discriminate|].
  intros H; injection H as H; subst db'. cbn [rowsOf Sqlite.files].
  apply (insert_batch_WellKeyed (f :: batch)).
Qed.

Lemma deleteFile_WellKeyed (db db' : option Sqlite.Connection) (p : str) :
  A.deleteFile db p = inr db' -> WellKeyed (rowsOf db) -> WellKeyed (rowsOf db').
Proof.
  unfold A.deleteFile, Sqlite.run_delete_by_fullPath.
  destruct db as [[rows [msg|]]|]; try discriminate.
  intros H; injection H as H; subst db'. apply filter_WellKeyed.
Qed.

Lemma clearAll_WellKeyed (db db' : option Sqlite.Connection) :
  A.clearAll db = inr db' -> WellKeyed (rowsOf db').
Proof.
  unfold A.clearAll, Sqlite.run_delete_all.
  destruct db as [[rows [msg|]]|]; try discriminate.
  intros H; injection H as H; subst db'. split; constructor.
Qed.

Lemma handle_WellKeyed (P : Platform) (uuidv4 : nat -> str) (watchPath : str)
    (ev : FileWatcher.FsEvent) (stat : Exn + Stats)
    (db : option Sqlite.Connection) (st : FileWatcher.State) :
  WellKeyed (rowsOf db) ->
  WellKeyed (rowsOf (fst (FileWatcher.handle P uuidv4 watchPath ev stat db st))).
Proof.
  intros Hw.
  assert (U : forall announce filePath,
             WellKeyed (rowsOf (fst (FileWatcher.upsert P uuidv4 announce stat
                                       filePath watchPath db st)))).
  { intros announce filePath. unfold FileWatcher.upsert.
    destruct (FileWatcher.createFileItem _ _ _ _ _ _) as [e|item]; [exact Hw|].
    destruct (A.insertFile db item) as [e|db'] eqn:Hi; [exact Hw|].
    cbn [fst]. eapply insertFile_WellKeyed; eassumption. }
  assert (D : forall announce filePath,
             WellKeyed (rowsOf (fst (FileWatcher.remove announce filePath db st)))).
  { intros announce filePath. unfold FileWatcher.remove.
    destruct (A.deleteFile db filePath) as [e|db'] eqn:Hd; [exact Hw|].
    cbn [fst]. eapply deleteFile_WellKeyed; eassumption. }
  destruct ev; cbn [FileWatcher.handle]; auto.
Qed.

Lemma indexPath_WellKeyed (P : Platform) (uuidv4 : nat -> str) (root : Dirent)
    (rootPath : str) (excludePaths : list str) (db : option Sqlite.Connection)
    (st : FileIndexer.State) :
  WellKeyed (rowsOf db) ->
  WellKeyed (rowsOf (fst (FileIndexer.indexPath P uuidv4 root rootPath
                            excludePaths db st))).
Proof.
  intros Hw. unfold FileIndexer.indexPath.
  destruct (FileIndexer.scanDirectory _ _ _ _ _ _ _) as [files st'].
  destruct files as [|f files]; [exact Hw|].
  generalize (FileIndexer.batches (List.length (f :: files)) (f :: files)).
  generalize (List.length (f :: files)). intros total bs.
  assert (G : forall acc,
             WellKeyed (rowsOf (fst (fst acc))) ->
             WellKeyed (rowsOf (fst (fst (fold_left
                          (FileIndexer.insertBatch total) bs acc))))).
  { induction bs as [|b bs IH]; intros acc Ha; [exact Ha|].
    cbn [fold_left]. apply IH. destruct acc as [[d s] n].
    unfold FileIndexer.insertBatch. destruct (FileIndexer.shouldStop s);
      [exact Ha|].
    destruct (A.insertFiles d b) as [e|d'] eqn:Hi; [exact Ha|].
    cbn [fst] in *. eapply insertFiles_WellKeyed; eassumption. }
  specialize (G (db, st', 0%nat) Hw).
  destruct (fold_left _ bs _) as [[d s] n]. exact G.
Qed.

(** X1.  Whatever the watcher and the indexer do to a store whose rows have
    distinct [fullPath]s and distinct [id]s, the rows stay that way: no
    two stored records ever share a full path. *)
Theorem store_keys_stay_unique (P : Platform) (uuidv4 : nat -> str)
    (db : option Sqlite.Connection) :
  WellKeyed (rowsOf db) ->
  (forall watchPath ev stat st,
      WellKeyed (rowsOf (fst (FileWatcher.handle P uuidv4 watchPath ev stat
                                db st))))
  /\ (forall roots excludePaths st,
         WellKeyed (rowsOf (fst (FileIndexer.startIndexing_run P uuidv4 roots
                                   excludePaths db st)))).
Proof.
  intros Hw. split.
  - intros. apply handle_WellKeyed. exact Hw.
  - intros roots excludePaths st. unfold FileIndexer.startIndexing_run.
    destruct (A.clearAll db) as [e|db0] eqn:Hc; [exact Hw|].
    apply clearAll_WellKeyed in Hc.
    match goal with
    | |- context [fold_left ?f roots ?a] =>
        assert (G : forall acc, WellKeyed (rowsOf (fst acc)) ->
                      WellKeyed (rowsOf (fst (fold_left f roots acc))))
    end.
    { induction roots as [|r roots IH]; intros acc Ha; [exact Ha|].
      cbn [fold_left]. apply IH. destruct acc as [d s].
      destruct (FileIndexer.shouldStop s); [exact Ha|].
      apply indexPath_WellKeyed. exact Ha. }
    specialize (G (db0, st) Hc).
    destruct (fold_left _ roots _) as [d s]. exact G.
Qed.

Lemma store_keys_stay_unique_witness :
  WellKeyed
    (rowsOf (fst (FileWatcher.handle Posix.linux uuidSeq (lit "/data")
                    (FileWatcher.add (lit "/data/f03.txt"))
                    (inr (mkStats 7 1700000000001 1690000000000 false))
                    twelveFiles FileWatcher.initial))).
Proof.
  assert (Hw : WellKeyed (rowsOf twelveFiles)).
  { split; vm_compute; repeat (constructor; [cbn; intuition discriminate|]);
      constructor. }
  destruct (store_keys_stay_unique Posix.linux uuidSeq twelveFiles Hw) as [H _].
  apply H.
Defined.

(** ** The store: what is written can be read, what is deleted is gone *)

Lemma stable_insert_perm (A : Type) (le : A -> A -> bool) (x : A) (l : list A) :
  Permutation (Stable.insert le x l) (x :: l).
Proof.
  induction l as [|y l IH]; cbn [Stable.insert]; [reflexivity|].
  destruct (le x y); [reflexivity|]. rewrite IH. apply perm_swap.
Qed.

Lemma stable_sort_perm (A : Type) (le : A -> A -> bool) (l : list A) :
  Permutation (Stable.sort le l) l.
Proof.
  induction l as [|x l IH]; cbn [Stable.sort]; [reflexivity|].
  rewrite stable_insert_perm. constructor. exact IH.
Qed.

Lemma where_nothing (rows : list Sqlite.Row) :
  filter (Sqlite.eval_where [] []) rows = rows.
Proof.
  induction rows as [|r rows IH]; [reflexivity|].
  change (filter (Sqlite.eval_where [] []) (r :: rows))
    with (r :: filter (Sqlite.eval_where [] []) rows).
  rewrite IH. reflexivity.
Qed.

Lemma rowToFileItem_fileParams (f : FileItem) :
  A.rowToFileItem (A.fileParams f) = f.
Proof. destruct f as [? ? ? ? ? ? ? ? [] ?]; reflexivity. Qed.

(** An empty query reads the whole table, in the store's order. *)
Lemma searchFiles_everything (rows : list Sqlite.Row) (limit offset : Z) :
  A.searchFiles (Some (Sqlite.mkConnection rows None)) [] limit offset
  = inr (map A.rowToFileItem
           (Sqlite.limit_offset (Stable.sort Sqlite.order_le rows) limit offset)).
Proof.
  unfold A.searchFiles.
  change (A.whereClause (A.parseSearchQuery [])) with
    (@nil Sqlite.Cond, @nil Sqlite.Value).
  unfold Sqlite.all. cbn [Sqlite.fault Sqlite.files Sqlite.placeholders fold_right
                            List.length Nat.eqb negb Nat.sub skipn firstn].
  rewrite where_nothing. reflexivity.
Qed.

(** X2.  Insert, then look up.  A record written with [insertFile] to a healthy
    store is returned, field for field, by the next [searchFiles] with an
    empty query and a limit above the number of rows, and it is the only
    record returned for its full path. *)
Theorem insertFile_then_searchFiles (rows : list Sqlite.Row) (f : FileItem)
    (limit : Z) :
  (Z.of_nat (List.length rows) < limit)%Z ->
  exists db' found,
    A.insertFile (Some (Sqlite.mkConnection rows None)) f = inr db'
    /\ A.searchFiles db' [] limit 0 = inr found
    /\ In f found
    /\ (forall g, In g found -> fullPath g = fullPath f -> g = f).
Proof.
  intros Hl. eexists. eexists. split; [reflexivity|].
  rewrite searchFiles_everything. split; [reflexivity|].
  unfold Sqlite.limit_offset. destruct (Z.ltb_spec limit 0) as [Hn|_]; [lia|].
  change (Z.to_nat 0) with 0%nat. cbn [skipn].
  assert (Hlen : (List.length (Stable.sort Sqlite.order_le
                                 (Sqlite.insert_or_replace (A.fileParams f) rows))
                  <= Z.to_nat limit)%nat).
  { rewrite stable_sort_length. unfold Sqlite.insert_or_replace.
    rewrite length_app. cbn [List.length].
    pose proof (filter_length_le
                  (fun x => negb (Js.str_eqb (Sqlite.col_id x)
                                    (Sqlite.col_id (A.fileParams f))
                                  || Js.str_eqb (Sqlite.col_fullPath x)
                                       (Sqlite.col_fullPath (A.fileParams f))))
                  rows). lia. }
  rewrite firstn_all2 by exact Hlen.
  split.
  - rewrite <- (rowToFileItem_fileParams f) at 1. apply in_map.
    apply (Permutation_in _ (Permutation_sym (stable_sort_perm _ _ _))).
    unfold Sqlite.insert_or_replace. apply in_or_app. right. left. reflexivity.
  - intros g Hg Hp. apply in_map_iff in Hg. destruct Hg as (r & <- & Hr).
    apply (Permutation_in _ (stable_sort_perm _ _ _)) in Hr.
    unfold Sqlite.insert_or_replace in Hr. apply in_app_or in Hr.
    destruct Hr as [Hr|[<-|[]]]; [|apply rowToFileItem_fileParams].
    apply filter_In in Hr. destruct Hr as [_ Hr].
    apply negb_true_iff, orb_false_iff in Hr. destruct Hr as [_ Hr].
    cbn in Hp, Hr. rewrite Hp in Hr.
    rewrite (proj2 (str_eqb_eq _ _) eq_refl) in Hr. discriminate Hr.
Qed.

Lemma insertFile_then_searchFiles_witness :
  exists db' found,
    A.insertFile twelveFiles reportTxt = inr db'
    /\ A.searchFiles db' [] 100 0 = inr found
    /\ In reportTxt found.
Proof.
  destruct (insertFile_then_searchFiles (map numbered (seq 0 12)) reportTxt 100
              ltac:(vm_compute; reflexivity)) as (db' & found & H1 & H2 & H3 & _).
  exists db', found. auto.
Defined.

(** X3.  Create, then delete.  On a healthy store, an [add] (or [change], or
    [addDir]) event for a path followed by the [unlink] (or [unlinkDir])
    event for the same path leaves no row for that path, and brings in no
    row that was not there before. *)
Theorem created_then_deleted (P : Platform) (uuidv4 : nat -> str)
    (watchPath filePath : str) (stat : Exn + Stats) (rows : list Sqlite.Row)
    (st : FileWatcher.State) (created deleted : FileWatcher.FsEvent) :
  In created [FileWatcher.add filePath; FileWatcher.change filePath;
              FileWatcher.addDir filePath] ->
  In deleted [FileWatcher.unlink filePath; FileWatcher.unlinkDir filePath] ->
  let after_create :=
    FileWatcher.handle P uuidv4 watchPath created stat
      (Some (Sqlite.mkConnection rows None)) st in
  let after_delete :=
    FileWatcher.handle P uuidv4 watchPath deleted stat
      (fst after_create) (snd after_create) in
  Forall (fun r => Sqlite.col_fullPath r <> filePath /\ In r rows)
    (rowsOf (fst after_delete)).
Proof.
  intros Hc Hd after_create after_delete.
  assert (C : exists rows',
             fst after_create = Some (Sqlite.mkConnection rows' None)
             /\ forall r, In r rows' ->
                  In r rows \/ Sqlite.col_fullPath r = filePath).
  { subst after_create.
    assert (U : forall announce,
               exists rows',
                 fst (FileWatcher.upsert P uuidv4 announce stat filePath
                        watchPath (Some (Sqlite.mkConnection rows None)) st)
                 = Some (Sqlite.mkConnection rows' None)
                 /\ forall r, In r rows' ->
                      In r rows \/ Sqlite.col_fullPath r = filePath).
    { intros announce. unfold FileWatcher.upsert, FileWatcher.createFileItem.
      destruct stat as [e|stats]; [exists rows; auto|].
      cbn [A.insertFile Sqlite.run_insert Sqlite.fault Sqlite.files fst].
      eexists. split; [reflexivity|].
      intros r Hr. apply insert_or_replace_In in Hr.
      destruct Hr as [->|Hr]; auto. }
    destruct Hc as [<-|[<-|[<-|[]]]]; apply U. }
  destruct C as (rows' & E & Hrows').
  assert (D : forall announce,
             Forall (fun r => Sqlite.col_fullPath r <> filePath /\ In r rows)
               (rowsOf (fst (FileWatcher.remove announce filePath
                               (fst after_create) (snd after_create))))).
  { intros announce. rewrite E. unfold FileWatcher.remove.
    cbn [A.deleteFile Sqlite.run_delete_by_fullPath Sqlite.fault Sqlite.files
           fst rowsOf].
    apply Forall_forall. intros r Hr. apply filter_In in Hr.
    destruct Hr as [Hin Hne]. apply negb_true_iff in Hne.
    assert (Hp : Sqlite.col_fullPath r <> filePath).
    { intros Heq. rewrite Heq, (proj2 (str_eqb_eq _ _) eq_refl) in Hne.
      discriminate Hne. }
    split; [exact Hp|]. destruct (Hrows' r Hin); [assumption|contradiction]. }
  subst after_delete. destruct Hd as [<-|[<-|[]]]; apply D.
Qed.

Lemma created_then_deleted_witness :
  rowsOf (fst (FileWatcher.handle Posix.linux uuidSeq (lit "/data")
                 (FileWatcher.unlink (lit "/data/new.txt"))
                 (inr (mkStats 7 1700000000001 1690000000000 false))
                 (fst (FileWatcher.handle Posix.linux uuidSeq (lit "/data")
                         (FileWatcher.add (lit "/data/new.txt"))
                         (inr (mkStats 7 1700000000001 1690000000000 false))
                         (Some (Sqlite.mkConnection [] None))
                         FileWatcher.initial))
                 (snd (FileWatcher.handle Posix.linux uuidSeq (lit "/data")
                         (FileWatcher.add (lit "/data/new.txt"))
                         (inr (mkStats 7 1700000000001 1690000000000 false))
                         (Some (Sqlite.mkConnection [] None))
                         FileWatcher.initial))))
  = [].
Proof.
  pose proof (created_then_deleted Posix.linux uuidSeq (lit "/data")
                (lit "/data/new.txt")
                (inr (mkStats 7 1700000000001 1690000000000 false)) []
                FileWatcher.initial (FileWatcher.add (lit "/data/new.txt"))
                (FileWatcher.unlink (lit "/data/new.txt"))
                (or_introl eq_refl) (or_introl eq_refl)) as H.
  cbv zeta in H.
  destruct (rowsOf _) as [|r l]; [reflexivity|].
  apply Forall_inv in H. destruct H as [_ []].
Defined.

(** ** FileIndexer: a general principle for scans *)

Section ScanSteps.

Variable P : Platform.
Variable uuidv4 : nat -> str.
Variables (rootPath : str) (excludePaths : list str).

(** A relation between the scanner's accumulator before and after. *)
Variable R : list FileItem * FileIndexer.State ->
             list FileItem * FileIndexer.State -> Prop.

Hypothesis R_refl : forall acc, R acc acc.
Hypothesis R_trans : forall a b c, R a b -> R b c -> R a c.
Hypothesis R_step : forall currentPath acc e,
  FileIndexer.shouldExcludePath P currentPath excludePaths = false ->
  R acc (FileIndexer.processEntry P uuidv4 currentPath rootPath acc e).

Lemma processEntries_rel (currentPath : str) (entries : list Dirent) :
  FileIndexer.shouldExcludePath P currentPath excludePaths = false ->
  forall acc,
    R acc (fold_left (FileIndexer.processEntry P uuidv4 currentPath rootPath)
             entries acc).
Proof.
  intros Hx. induction entries as [|e es IH]; intros acc; [apply R_refl|].
  cbn [fold_left]. eapply R_trans; [apply R_step; exact Hx|apply IH].
Qed.

Lemma scanDirectory_rel (dir : Dirent) :
  forall currentPath acc,
    R acc (FileIndexer.scanDirectory P uuidv4 dir currentPath rootPath
             excludePaths acc).
Proof.
  induction dir as [n s|n e|n es IHes] using Dirent_nested_ind;
    intros currentPath acc; rewrite scanDirectory_eq;
    destruct (FileIndexer.shouldStop (snd acc)); try apply R_refl;
    destruct (FileIndexer.shouldExcludePath P currentPath excludePaths) eqn:Hx;
    try apply R_refl.
  eapply R_trans; [apply (processEntries_rel currentPath es Hx)|].
  generalize (fold_left (FileIndexer.processEntry P uuidv4 currentPath rootPath)
                es acc).
  clear acc. induction IHes as [|e es He _ IH]; intros acc; [apply R_refl|].
  cbn [fold_left]. eapply R_trans; [|apply IH]. unfold scanChild.
  destruct e as [m s|m l]; [apply R_refl|].
  destruct (FileIndexer.skipped P (DirEntry m l)
            || FileIndexer.shouldStop (snd acc)); [apply R_refl|].
  apply He.
Qed.

End ScanSteps.

(** ** FileIndexer: batches *)

Lemma batches_concat (fuel : nat) :
  forall files,
    (List.length files <= fuel)%nat ->
    concat (FileIndexer.batches fuel files) = files.
Proof.
  induction fuel as [|fuel IH]; intros files Hl.
  - destruct files; [reflexivity|cbn in Hl; lia].
  - destruct files as [|x files]; [reflexivity|].
    cbn [FileIndexer.batches concat]. rewrite IH.
    + apply firstn_skipn.
    + rewrite length_skipn. unfold FileIndexer.batchSize.
      cbn [List.length] in *. lia.
Qed.

Lemma batches_sizes (fuel : nat) :
  forall files,
    Forall (fun b => (0 < List.length b <= FileIndexer.batchSize)%nat)
      (FileIndexer.batches fuel files).
Proof.
  induction fuel as [|fuel IH]; intros files.
  - destruct files; constructor.
  - destruct files as [|x files]; [constructor|].
    cbn [FileIndexer.batches]. constructor; [|apply IH].
    rewrite length_firstn. unfold FileIndexer.batchSize.
    cbn [List.length]. lia.
Qed.

(** X4.  The batches of [indexPath].  Put end to end, the slices
    [files.slice(i, i + 500)] give back the collected files in order; no
    slice is empty and none holds more than 500 records. *)
Theorem batches_partition (files : list FileItem) :
  concat (FileIndexer.batches (List.length files) files) = files
  /\ Forall (fun b => (0 < List.length b <= 500)%nat)
       (FileIndexer.batches (List.length files) files).
Proof.
  split; [apply batches_concat; lia|apply batches_sizes].
Qed.

(** ** FileIndexer: a stop request *)

Lemma indexRoots_stopped (P : Platform) (uuidv4 : nat -> str)
    (excludePaths : list str) (roots : list (str * Dirent))
    (db : option Sqlite.Connection) (st : FileIndexer.State) :
  FileIndexer.shouldStop st = true ->
  fold_left
    (fun (acc : option Sqlite.Connection * FileIndexer.State)
         (r : str * Dirent) =>
       let (db, st) := acc in
       if FileIndexer.shouldStop st then acc
       else FileIndexer.indexPath P uuidv4 (snd r) (fst r) excludePaths db st)
    roots (db, st) = (db, st).
Proof.
  intros Hs. induction roots as [|r roots IH]; [reflexivity|].
  cbn [fold_left]. rewrite Hs. exact IH.
Qed.

(** X5.  A stop request that is pending when the run starts (it came in while
    the store was being cleared).  No directory is read: a scan returns
    what it was given.  The run leaves the store empty, and still reports
    100 percent and completion. *)
Theorem stop_request_honoured (P : Platform) (uuidv4 : nat -> str)
    (roots : list (str * Dirent)) (excludePaths : list str)
    (rows : list Sqlite.Row) (st : FileIndexer.State) :
  FileIndexer.shouldStop st = true ->
  (forall dir currentPath rootPath files,
     FileIndexer.scanDirectory P uuidv4 dir currentPath rootPath excludePaths
       (files, st) = (files, st))
  /\ FileIndexer.startIndexing_run P uuidv4 roots excludePaths
       (Some (Sqlite.mkConnection rows None)) st
     = (Some (Sqlite.mkConnection [] None),
        let progress :=
          FileIndexer.mkProgress false
            (FileIndexer.p_currentPath (FileIndexer.currentProgress st))
            (FileIndexer.p_filesProcessed (FileIndexer.currentProgress st))
            100 in
        FileIndexer.mkState false true progress
          (FileIndexer.emitted st
           ++ [FileIndexer.EvProgress progress; FileIndexer.EvComplete])
          (FileIndexer.uuids st)).
Proof.
  intros Hs. split.
  - intros dir currentPath rootPath files. rewrite scanDirectory_eq.
    cbn [snd]. rewrite Hs. reflexivity.
  - unfold FileIndexer.startIndexing_run.
    cbn [A.clearAll Sqlite.run_delete_all Sqlite.fault].
    rewrite indexRoots_stopped by exact Hs.
    unfold FileIndexer.emit, FileIndexer.setProgress.
    cbn [FileIndexer.isIndexing FileIndexer.shouldStop
           FileIndexer.currentProgress FileIndexer.emitted FileIndexer.uuids].
    rewrite Hs, <- app_assoc. reflexivity.
Qed.

Lemma stop_request_honoured_witness :
  rowsOf (fst (FileIndexer.startIndexing_run Posix.linux uuidSeq
                 [(lit "/home", homeWithHidden)] []
                 twelveFiles
                 (FileIndexer.stopIndexing FileIndexer.initial)))
  = [].
Proof.
  unfold twelveFiles.
  rewrite (proj2 (stop_request_honoured Posix.linux uuidSeq
                    [(lit "/home", homeWithHidden)] []
                    (map numbered (seq 0 12))
                    (FileIndexer.stopIndexing FileIndexer.initial) eq_refl)).
  reflexivity.
Defined.

(** ** FileIndexer: the records of a run, in general *)

Section RunRecords.

Variable P : Platform.
Variable uuidv4 : nat -> str.
Variable excludePaths : list str.

(** A property every record built by the first loop has. *)
Variable Q : FileItem -> Prop.

Hypothesis Q_step : forall currentPath rootPath acc e,
  Forall Q (fst acc) ->
  Forall Q (fst (FileIndexer.processEntry P uuidv4 currentPath rootPath acc e)).

Lemma scanDirectory_records (dir : Dirent) (currentPath rootPath : str)
    (acc : list FileItem * FileIndexer.State) :
  Forall Q (fst acc) ->
  Forall Q (fst (FileIndexer.scanDirectory P uuidv4 dir currentPath rootPath
                   excludePaths acc)).
Proof.
  apply (scanDirectory_rel P uuidv4 rootPath excludePaths
           (fun a b => Forall Q (fst a) -> Forall Q (fst b))); auto.
Qed.

Lemma insertBatches_records (total : nat) (bs : list (list FileItem)) :
  (forall b f, In b bs -> In f b -> Q f) ->
  forall acc r,
    In r (rowsOf (fst (fst (fold_left (FileIndexer.insertBatch total) bs acc)))) ->
    In r (rowsOf (fst (fst acc))) \/ exists f, Q f /\ r = A.batchParams f.
Proof.
  induction bs as [|b bs IH]; intros Hbs acc r H; [left; exact H|].
  cbn [fold_left] in H. apply IH in H.
  2:{ intros b' f Hb' Hf. apply (Hbs b' f); [right; exact Hb'|exact Hf]. }
  destruct H as [H|H]; [|right; exact H].
  destruct acc as [[db st] n]. unfold FileIndexer.insertBatch in H.
  destruct (FileIndexer.shouldStop st); [left; exact H|].
  destruct (A.insertFiles db b) as [e|db'] eqn:Hins; [left; exact H|].
  cbn [fst] in H |- *.
  destruct (insertFiles_rows db db' b r Hins H) as [H'|(f & Hf & ->)];
    [left; exact H'|].
  right. exists f. split; [|reflexivity].
  apply (Hbs b f); [left; reflexivity|exact Hf].
Qed.

Lemma indexPath_records (root : Dirent) (rootPath : str)
    (db : option Sqlite.Connection) (st : FileIndexer.State) (r : Sqlite.Row) :
  In r (rowsOf (fst (FileIndexer.indexPath P uuidv4 root rootPath excludePaths
                       db st))) ->
  In r (rowsOf db) \/ exists f, Q f /\ r = A.batchParams f.
Proof.
  unfold FileIndexer.indexPath.
  pose proof (scanDirectory_records root rootPath rootPath ([], st)
                (Forall_nil _)) as Hs.
  destruct (FileIndexer.scanDirectory P uuidv4 root rootPath rootPath
              excludePaths ([], st)) as [files st'].
  cbn [fst] in Hs. destruct files as [|f files]; [auto|].
  set (all := f :: files) in *.
  pose proof (insertBatches_records (List.length all)
                (FileIndexer.batches (List.length all) all)) as Hb.
  destruct (fold_left (FileIndexer.insertBatch (List.length all))
              (FileIndexer.batches (List.length all) all) (db, st', 0%nat))
    as [[db' st''] n] eqn:Hfold.
  intros H. specialize (Hb (fun b g Hb Hg =>
    proj1 (Forall_forall _ _) Hs g (batches_In _ _ _ g Hb Hg)) (db, st', 0%nat) r).
  rewrite Hfold in Hb. apply Hb. exact H.
Qed.

Lemma indexRoots_records (roots : list (str * Dirent)) :
  forall (acc : option Sqlite.Connection * FileIndexer.State) (r : Sqlite.Row),
    In r (rowsOf (fst (fold_left
           (fun (acc : option Sqlite.Connection * FileIndexer.State)
                (rt : str * Dirent) =>
              let (db, st) := acc in
              if FileIndexer.shouldStop st then acc
              else FileIndexer.indexPath P uuidv4 (snd rt) (fst rt)
                     excludePaths db st)
           roots acc))) ->
    In r (rowsOf (fst acc)) \/ exists f, Q f /\ r = A.batchParams f.
Proof.
  induction roots as [|rt roots IH]; intros acc r H; [left; exact H|].
  cbn [fold_left] in H. apply IH in H. destruct H as [H|H]; [|right; exact H].
  destruct acc as [db st]. destruct (FileIndexer.shouldStop st); [left; exact H|].
  apply indexPath_records in H. exact H.
Qed.

Lemma run_records (roots : list (str * Dirent)) (rows : list Sqlite.Row)
    (st : FileIndexer.State) :
  Forall (fun r => exists f, Q f /\ r = A.batchParams f)
    (rowsOf (fst (FileIndexer.startIndexing_run P uuidv4 roots excludePaths
                    (Some (Sqlite.mkConnection rows None)) st))).
Proof.
  apply Forall_forall. intros r H.
  unfold FileIndexer.startIndexing_run in H.
  cbn [A.clearAll Sqlite.run_delete_all Sqlite.fault] in H.
  match type of H with
  | context [fold_left ?f roots ?a] =>
      pose proof (indexRoots_records roots a r) as Hr;
      destruct (fold_left f roots a) as [db' st'] eqn:Hfold
  end.
  cbn [fst] in H. cbn [fst rowsOf Sqlite.files] in Hr.
  destruct (Hr H) as [[]|Hs]. exact Hs.
Qed.

End RunRecords.

(** ** FileIndexer: hidden entries, and the derived fields *)

Lemma getFileType_plain (P : Platform) (fileName : str) :
  In (getFileType P fileName false) plainFileTypes.
Proof.
  unfold getFileType, plainFileTypes.
  repeat match goal with
         | |- context [if ?b then _ else _] => destruct b
         end; cbn [In]; tauto.
Qed.

Lemma processEntry_Visible (P : Platform) (uuidv4 : nat -> str)
    (currentPath rootPath : str) (acc : list FileItem * FileIndexer.State)
    (e : Dirent) :
  Forall (Visible P) (fst acc) ->
  Forall (Visible P)
    (fst (FileIndexer.processEntry P uuidv4 currentPath rootPath acc e)).
Proof.
  intros Hacc. destruct acc as [files st]. unfold FileIndexer.processEntry.
  destruct (FileIndexer.shouldStop st); [exact Hacc|].
  destruct (FileIndexer.skipped P e) eqn:Hk; [exact Hacc|].
  destruct e as [n [err|stats]|n l]; try exact Hacc.
  cbn [fst]. apply Forall_app. split; [exact Hacc|].
  constructor; [|constructor].
  unfold FileIndexer.skipped in Hk. cbn [entryName] in Hk.
  apply orb_false_iff in Hk. destruct Hk as [Hk _].
  apply orb_false_iff in Hk. destruct Hk as [Hdot Hdollar].
  unfold Visible. cbn [isDirectory name extension type path].
  repeat split; try assumption.
  unfold orDot. destruct (relative P rootPath _); discriminate.
Qed.

(** X6.  What a run leaves in a healthy store.  Every row is a file row whose
    name starts neither with a dot nor with a dollar sign, whose
    extension is the lower-cased extension of its name, whose type is
    one of the seven file types (never [directory], never the
    ['unknown'] default of [insertFiles]) and whose relative path is not
    empty. *)
Theorem indexed_rows_visible (P : Platform) (uuidv4 : nat -> str)
    (roots : list (str * Dirent)) (excludePaths : list str)
    (rows : list Sqlite.Row) (st : FileIndexer.State) :
  Forall (VisibleRow P)
    (rowsOf (fst (FileIndexer.startIndexing_run P uuidv4 roots excludePaths
                    (Some (Sqlite.mkConnection rows None)) st))).
Proof.
  eapply Forall_impl;
    [|apply (run_records P uuidv4 excludePaths (Visible P)
               (processEntry_Visible P uuidv4) roots rows st)].
  intros r (f & (Hd & Hdot & Hdollar & He & Ht & Hp) & ->).
  unfold VisibleRow, A.batchParams.
  cbn [Sqlite.col_isDirectory Sqlite.col_name Sqlite.col_extension
         Sqlite.col_type Sqlite.col_path].
  rewrite Hd. repeat split; try assumption.
  pose proof (getFileType_plain P (name f)) as Hin. rewrite <- Ht in Hin.
  destruct (type f) as [|c t]; [|exact Hin].
  unfold plainFileTypes in Hin. cbn in Hin.
  repeat destruct Hin as [Hin|Hin]; try discriminate Hin. destruct Hin.
Qed.

(** ** FileIndexer: every collected file reaches the store *)











(** ** FileIndexer: progress reports *)

Lemma Reports_refl (st : FileIndexer.State) : Reports st st.
Proof.
  intros H. split; [exact H|]. exists []. rewrite app_nil_r. auto.
Qed.

Lemma Reports_trans (a b c : FileIndexer.State) :
  Reports a b -> Reports b c -> Reports a c.
Proof.
  intros H1 H2 Ha. destruct (H1 Ha) as (Hb & e1 & E1 & F1).
  destruct (H2 Hb) as (Hc & e2 & E2 & F2). split; [exact Hc|].
  exists (e1 ++ e2). rewrite E2, E1, app_assoc. split; [reflexivity|].
  apply Forall_app. auto.
Qed.

Lemma processEntry_Reports (P : Platform) (uuidv4 : nat -> str)
    (currentPath rootPath : str) (acc : list FileItem * FileIndexer.State)
    (e : Dirent) :
  Reports (snd acc)
    (snd (FileIndexer.processEntry P uuidv4 currentPath rootPath acc e)).
Proof.
  destruct acc as [files st]. unfold FileIndexer.processEntry.
  destruct (FileIndexer.shouldStop st); [apply Reports_refl|].
  destruct (FileIndexer.skipped P e); [apply Reports_refl|].
  destruct e as [n [err|stats]|n l]; try apply Reports_refl.
  cbn [snd]. intros Hr.
  destruct (_ =? 0)%Z; unfold FileIndexer.emit, FileIndexer.setProgress;
    cbn [FileIndexer.currentProgress FileIndexer.emitted].
  - split; [exact Hr|]. eexists [_]. split; [reflexivity|].
    constructor; [exact Hr|constructor].
  - split; [exact Hr|]. exists []. rewrite app_nil_r. auto.
Qed.

Lemma scanDirectory_Reports (P : Platform) (uuidv4 : nat -> str)
    (dir : Dirent) (currentPath rootPath : str) (excludePaths : list str)
    (acc : list FileItem * FileIndexer.State) :
  Reports (snd acc)
    (snd (FileIndexer.scanDirectory P uuidv4 dir currentPath rootPath
            excludePaths acc)).
Proof.
  apply (scanDirectory_rel P uuidv4 rootPath excludePaths
           (fun a b => Reports (snd a) (snd b))).
  - intros a. apply Reports_refl.
  - intros a b c. apply Reports_trans.
  - intros cp a e _. apply processEntry_Reports.
Qed.

Lemma percentage_in_range (done total : nat) :
  let pct := (inject_Z (Z.of_nat done) / inject_Z (Z.of_nat total) * 100)%Q in
  (0 <= (if Qle_bool 95 pct then 95 else pct))%Q
  /\ ((if Qle_bool 95 pct then 95 else pct) <= 100)%Q.
Proof.
  intros pct. destruct (Qle_bool 95 pct) eqn:E.
  - split; discriminate.
  - split.
    + unfold pct. apply Qmult_le_0_compat; [|discriminate].
      apply Qmult_le_0_compat.
      * change 0%Q with (inject_Z 0). rewrite <- Zle_Qle. lia.
      * apply Qinv_le_0_compat. change 0%Q with (inject_Z 0).
        rewrite <- Zle_Qle. lia.
    + destruct (Qlt_le_dec pct 95) as [Hlt|Hle].
      * apply Qlt_le_weak. eapply Qlt_trans; [exact Hlt|reflexivity].
      * apply Qle_bool_iff in Hle. congruence.
Qed.

Lemma insertBatch_Reports (total : nat)
    (acc : option Sqlite.Connection * FileIndexer.State * nat)
    (batch : list FileItem) :
  Reports (snd (fst acc))
    (snd (fst (FileIndexer.insertBatch total acc batch))).
Proof.
  destruct acc as [[db st] n]. unfold FileIndexer.insertBatch.
  destruct (FileIndexer.shouldStop st); [apply Reports_refl|].
  destruct (A.insertFiles db batch) as [e|db']; [apply Reports_refl|].
  cbn [fst snd]. intros _.
  unfold FileIndexer.emit, FileIndexer.setProgress.
  cbn [FileIndexer.currentProgress FileIndexer.emitted].
  assert (Hr : inRange
            (FileIndexer.mkProgress
               (FileIndexer.p_isIndexing (FileIndexer.currentProgress st))
               (Some (lit "Indexed "
                      ++ Js.numberToString (n + List.length batch)
                      ++ lit "/" ++ Js.numberToString total ++ lit " files"))
               (Z.of_nat (n + List.length batch))
               (if Qle_bool 95
                     (inject_Z (Z.of_nat (n + List.length batch))
                      / inject_Z (Z.of_nat total) * 100)
                then 95
                else inject_Z (Z.of_nat (n + List.length batch))
                     / inject_Z (Z.of_nat total) * 100))).
  { apply percentage_in_range. }
  split; [exact Hr|]. eexists [_]. split; [reflexivity|].
  constructor; [exact Hr|constructor].
Qed.

Lemma insertBatches_Reports (total : nat) (bs : list (list FileItem)) :
  forall acc,
    Reports (snd (fst acc))
      (snd (fst (fold_left (FileIndexer.insertBatch total) bs acc))).
Proof.
  induction bs as [|b bs IH]; intros acc; [apply Reports_refl|].
  cbn [fold_left]. eapply Reports_trans; [apply insertBatch_Reports|apply IH].
Qed.

Lemma indexPath_Reports (P : Platform) (uuidv4 : nat -> str) (root : Dirent)
    (rootPath : str) (excludePaths : list str)
    (db : option Sqlite.Connection) (st : FileIndexer.State) :
  Reports st
    (snd (FileIndexer.indexPath P uuidv4 root rootPath excludePaths db st)).
Proof.
  unfold FileIndexer.indexPath.
  pose proof (scanDirectory_Reports P uuidv4 root rootPath rootPath
                excludePaths ([], st)) as Hs.
  destruct (FileIndexer.scanDirectory P uuidv4 root rootPath rootPath
              excludePaths ([], st)) as [files st'].
  cbn [snd] in Hs. destruct files as [|f files]; [exact Hs|].
  pose proof (insertBatches_Reports (List.length (f :: files))
                (FileIndexer.batches (List.length (f :: files)) (f :: files))
                (db, st', 0%nat)) as Hb.
  destruct (fold_left _ _ _) as [[db' st''] n]. cbn [fst snd] in *.
  eapply Reports_trans; eassumption.
Qed.

Lemma indexRoots_Reports (P : Platform) (uuidv4 : nat -> str)
    (excludePaths : list str) (roots : list (str * Dirent)) :
  forall acc : option Sqlite.Connection * FileIndexer.State,
    Reports (snd acc)
      (snd (fold_left
              (fun (acc : option Sqlite.Connection * FileIndexer.State)
                   (rt : str * Dirent) =>
                 let (db, st) := acc in
                 if FileIndexer.shouldStop st then acc
                 else FileIndexer.indexPath P uuidv4 (snd rt) (fst rt)
                        excludePaths db st)
              roots acc)).
Proof.
  induction roots as [|rt roots IH]; intros acc; [apply Reports_refl|].
  cbn [fold_left]. eapply Reports_trans; [|apply IH].
  destruct acc as [db st].
  destruct (FileIndexer.shouldStop st); [apply Reports_refl|].
  apply indexPath_Reports.
Qed.

(** X8.  The reports of a run.  Started on an indexer that is not indexing,
    [startIndexing] returns; what it emits begins with a report at
    0 percent and ends with [complete] or with [error]; every percentage
    reported in between lies between 0 and 100; and the indexer is left
    not indexing, ready for the next run. *)
Theorem run_reports_in_range (P : Platform) (uuidv4 : nat -> str)
    (roots : list (str * Dirent)) (excludePaths : list str)
    (db : option Sqlite.Connection) (st : FileIndexer.State) :
  FileIndexer.isIndexing st = false ->
  exists db' st' mid final,
    FileIndexer.startIndexing P uuidv4 roots excludePaths db st
    = inr (db', st')
    /\ FileIndexer.emitted st'
       = FileIndexer.emitted st
         ++ FileIndexer.EvProgress (FileIndexer.mkProgress true None 0 0)
            :: mid ++ [final]
    /\ Forall eventInRange mid
    /\ (final = FileIndexer.EvComplete \/ exists e, final = FileIndexer.EvError e)
    /\ FileIndexer.isCurrentlyIndexing st' = false
    /\ FileIndexer.p_isIndexing (FileIndexer.getProgress st') = false.
Proof.
  intros Hi. unfold FileIndexer.startIndexing, FileIndexer.startIndexing_begin.
  rewrite Hi. unfold FileIndexer.startIndexing_run.
  destruct (A.clearAll db) as [err|db1].
  - do 2 eexists. exists [], (FileIndexer.EvError err).
    split; [reflexivity|].
    unfold FileIndexer.emit, FileIndexer.setProgress.
    cbn [FileIndexer.emitted FileIndexer.isCurrentlyIndexing
           FileIndexer.isIndexing FileIndexer.getProgress
           FileIndexer.currentProgress FileIndexer.p_isIndexing app].
    rewrite <- app_assoc. cbn [app].
    repeat split; eauto.
  - match goal with
    | |- context [fold_left ?f roots ?a] =>
        pose proof (indexRoots_Reports P uuidv4 excludePaths roots a) as Hr;
        destruct (fold_left f roots a) as [db2 st2]
    end.
    cbn [snd] in Hr. destruct Hr as (_ & evs & E & F).
    { unfold FileIndexer.emit. cbn [FileIndexer.currentProgress].
      split; discriminate. }
    do 2 eexists.
    exists (evs ++ [FileIndexer.EvProgress
                      (FileIndexer.mkProgress false
                         (FileIndexer.p_currentPath
                            (FileIndexer.currentProgress st2))
                         (FileIndexer.p_filesProcessed
                            (FileIndexer.currentProgress st2)) 100)]),
      FileIndexer.EvComplete.
    split; [reflexivity|].
    unfold FileIndexer.emit, FileIndexer.setProgress in *.
    cbn [FileIndexer.emitted FileIndexer.isCurrentlyIndexing
           FileIndexer.isIndexing FileIndexer.getProgress
           FileIndexer.currentProgress FileIndexer.p_isIndexing] in *.
    rewrite E, <- !app_assoc. cbn [app].
    split; [reflexivity|]. split.
    + apply Forall_app. split; [exact F|]. constructor; [|constructor].
      split; discriminate.
    + auto.
Qed.

Lemma run_reports_in_range_witness :
  exists db' st',
    FileIndexer.startIndexing Posix.linux uuidTally
      [(lit "/home", homeWithHidden)] [] twelveFiles FileIndexer.initial
    = inr (db', st')
    /\ FileIndexer.isCurrentlyIndexing st' = false.
Proof.
  destruct (run_reports_in_range Posix.linux uuidTally
              [(lit "/home", homeWithHidden)] [] twelveFiles
              FileIndexer.initial eq_refl)
    as (db' & st' & mid & final & E & _ & _ & _ & Hi & _).
  exists db', st'. split; assumption.
Defined.

(** ** SearchService: queries without operators, searches without filters *)

Lemma parse_plain (now : Z) (q : str) :
  NoColon q ->
  SearchService.parseSearchOperators now q = (q, SearchService.no_operators).
Proof.
  intros H. unfold SearchService.parseSearchOperators.
  rewrite (proj1 (scan_plain SearchService.ext_at 3 q ext_at_colon H)).
  rewrite (proj1 (scan_plain SearchService.size_at 4 q size_at_colon H)).
  rewrite (proj1 (scan_plain SearchService.date_at 4 q date_at_colon H)).
  rewrite (proj1 (scan_plain SearchService.type_at 4 q type_at_colon H)).
  reflexivity.
Qed.

(** X9.  A query without a colon holds no operator: [parseSearchOperators]
    returns it as typed, with no operator set.  Searched with no filter
    (the default [{}], or an object with no field), the combined filters
    then let every record through. *)
Theorem plain_query_unfiltered (now : Z) (q : str)
    (filters : SearchService.FiltersArg) :
  NoColon q ->
  filters = SearchService.FUndefined
  \/ filters = SearchService.FObject no_filters ->
  SearchService.parseSearchOperators now q = (q, SearchService.no_operators)
  /\ exists combined,
       SearchService.combineFilters filters SearchService.no_operators
       = inr combined
       /\ forall files, SearchService.applyFilters files combined = files.
Proof.
  intros Hq Hf. split; [apply parse_plain; exact Hq|].
  destruct Hf as [-> | ->]; eexists; (split; [reflexivity|]);
    intros files; unfold SearchService.applyFilters;
    induction files as [|f files IH]; cbn [filter]; try reflexivity;
    rewrite IH; reflexivity.
Qed.

Lemma plain_query_unfiltered_witness :
  SearchService.parseSearchOperators 1700000000000 (lit "annual report")
  = (lit "annual report", SearchService.no_operators).
Proof.
  apply (plain_query_unfiltered 1700000000000 (lit "annual report")
           SearchService.FUndefined).
  - unfold NoColon. repeat constructor; discriminate.
  - left. reflexivity.
Defined.

(** ** SearchService: what the combined filters let through *)

Lemma q_nonzero_false (q : Q) : SearchService.q_nonzero q = false -> (q == 0)%Q.
Proof.
  unfold SearchService.q_nonzero. intros H. apply negb_false_iff in H.
  apply Qeq_bool_iff. exact H.
Qed.

Lemma q_nonzero_true (q : Q) : ~ (q == 0)%Q -> SearchService.q_nonzero q = true.
Proof.
  intros H. destruct (SearchService.q_nonzero q) eqn:E; [reflexivity|].
  contradiction H. apply q_nonzero_false. exact E.
Qed.

Lemma q_lt_false (a b : Q) : SearchService.q_lt a b = false -> (b <= a)%Q.
Proof.
  unfold SearchService.q_lt. intros H. apply negb_false_iff in H.
  apply Qle_bool_iff. exact H.
Qed.

Lemma orZero_le (x : option Q) (m : Q) :
  x = Some m -> (m <= 0)%Q \/ (m <= SearchService.orZero x)%Q.
Proof.
  intros ->. unfold SearchService.orZero.
  destruct (SearchService.q_nonzero m) eqn:E.
  - right. apply Qle_refl.
  - left. apply q_nonzero_false in E. rewrite E. apply Qle_refl.
Qed.

Lemma math_max_ge (a b : Q) :
  (a <= SearchService.math_max a b)%Q /\ (b <= SearchService.math_max a b)%Q.
Proof.
  unfold SearchService.math_max. destruct (Qle_bool a b) eqn:E.
  - apply Qle_bool_iff in E. split; [exact E|apply Qle_refl].
  - split; [apply Qle_refl|].
    destruct (Qlt_le_dec b a) as [H|H]; [apply Qlt_le_weak; exact H|].
    apply Qle_bool_iff in H. congruence.
Qed.

Lemma kept_above_min (lo : Q) (file : FileItem) (m : Q) :
  (0 <= size file)%Z ->
  (SearchService.q_nonzero lo
   && SearchService.q_lt (inject_Z (size file)) lo)
  = false ->
  (m <= 0)%Q \/ (m <= lo)%Q ->
  (m <= inject_Z (size file))%Q.
Proof.
  intros Hs Hk Hm.
  assert (H0 : (0 <= inject_Z (size file))%Q).
  { change 0%Q with (inject_Z 0). rewrite <- Zle_Qle. exact Hs. }
  destruct Hm as [Hm|Hm]; [eapply Qle_trans; eassumption|].
  apply andb_false_iff in Hk. destruct Hk as [Hk|Hk].
  - apply q_nonzero_false in Hk. rewrite Hk in Hm.
    eapply Qle_trans; eassumption.
  - apply q_lt_false in Hk. eapply Qle_trans; eassumption.
Qed.

Lemma math_min_le (a b : QInf) (M : Q) :
  a = Fin M \/ b = Fin M ->
  exists x, SearchService.math_min a b = Fin x
            /\ (x <= M)%Q
            /\ (a = Fin x \/ b = Fin x).
Proof.
  unfold SearchService.math_min.
  intros [-> | ->].
  - destruct b as [y|].
    + destruct (Qle_bool M y) eqn:E.
      * exists M. split; [reflexivity|]. split; [apply Qle_refl|auto].
      * exists y. split; [reflexivity|]. split; [|auto].
        destruct (Qlt_le_dec y M) as [H|H]; [apply Qlt_le_weak; exact H|].
        apply Qle_bool_iff in H. congruence.
    + exists M. split; [reflexivity|]. split; [apply Qle_refl|auto].
  - destruct a as [x|].
    + destruct (Qle_bool x M) eqn:E.
      * exists x. split; [reflexivity|]. split; [|auto].
        apply Qle_bool_iff. exact E.
      * exists M. split; [reflexivity|]. split; [apply Qle_refl|auto].
    + exists M. split; [reflexivity|]. split; [apply Qle_refl|auto].
Qed.

Lemma orInfinity_Fin (x : option Q) (q : Q) :
  SearchService.orInfinity x = Fin q ->
  SearchService.q_nonzero q = true.
Proof.
  unfold SearchService.orInfinity. destruct x as [y|]; [|discriminate].
  destruct (SearchService.q_nonzero y) eqn:E; [|discriminate].
  intros H. injection H as <-. exact E.
Qed.

Lemma kept_below_max (x y : option Q) (file : FileItem) (M : Q) :
  match SearchService.math_min (SearchService.orInfinity x)
          (SearchService.orInfinity y) with
  | Fin m =>
      SearchService.q_nonzero m && SearchService.q_lt m (inject_Z (size file))
  | Infinity => false
  end = false ->
  x = Some M \/ y = Some M -> ~ (M == 0)%Q ->
  (inject_Z (size file) <= M)%Q.
Proof.
  intros Hk Hx HM.
  destruct (math_min_le (SearchService.orInfinity x)
              (SearchService.orInfinity y) M) as (m & E & Hle & Hm).
  { unfold SearchService.orInfinity.
    destruct Hx as [-> | ->]; rewrite (q_nonzero_true M HM); auto. }
  rewrite E in Hk.
  assert (Hnz : SearchService.q_nonzero m = true).
  { destruct Hm as [Hm|Hm]; apply orInfinity_Fin in Hm; exact Hm. }
  rewrite Hnz in Hk. cbn [andb] in Hk. apply q_lt_false in Hk.
  eapply Qle_trans; eassumption.
Qed.

(** X10.  What a record that passes [applyFilters] satisfies, in terms of the
    panel's filters and the query's operators.  Size bounds from both
    sides hold together (a bound of 0 is no bound); the lists of types
    and of extensions of both sides are pooled; a date bound from the
    query replaces the one from the panel. *)
Theorem kept_record_meets_filters (f : SearchFilters)
    (ops : SearchService.Operators) (combined : SearchService.Combined)
    (file : FileItem) :
  SearchService.combineFilters (SearchService.FObject f) ops = inr combined ->
  SearchService.keep combined file = true ->
  (0 <= size file)%Z ->
  (forall m, sizeMin f = Some m \/ SearchService.op_sizeMin ops = Some m ->
     (m <= inject_Z (size file))%Q)
  /\ (forall M, sizeMax f = Some M \/ SearchService.op_sizeMax ops = Some M ->
        ~ (M == 0)%Q -> (inject_Z (size file) <= M)%Q)
  /\ (SearchService.orEmpty (fileTypes f)
      ++ SearchService.orEmpty (SearchService.op_fileTypes ops) <> [] ->
      In (type file)
        (SearchService.orEmpty (fileTypes f)
         ++ SearchService.orEmpty (SearchService.op_fileTypes ops)))
  /\ (SearchService.orEmpty (extensions f)
      ++ SearchService.orEmpty (SearchService.op_extensions ops) <> [] ->
      In (extension file)
        (SearchService.orEmpty (extensions f)
         ++ SearchService.orEmpty (SearchService.op_extensions ops)))
  /\ (forall d,
        SearchService.orElse (SearchService.op_dateModifiedFrom ops)
          (dateModifiedFrom f) = Some d ->
        (d <= dateModified file)%Z)
  /\ (forall d,
        SearchService.orElse (SearchService.op_dateModifiedTo ops)
          (dateModifiedTo f) = Some d ->
        (dateModified file <= d)%Z)
  /\ (includeDirectories f = Some false -> isDirectory file = false).
Proof.
  intros Hc Hk Hs. cbn [SearchService.combineFilters] in Hc.
  injection Hc as <-. unfold SearchService.keep in Hk.
  cbn [SearchService.c_fileTypes SearchService.c_extensions
         SearchService.c_sizeMin SearchService.c_sizeMax
         SearchService.c_dateModifiedFrom SearchService.c_dateModifiedTo
         SearchService.c_includeDirectories] in Hk.
  set (types := SearchService.orEmpty (fileTypes f)
                ++ SearchService.orEmpty (SearchService.op_fileTypes ops)) in *.
  set (exts := SearchService.orEmpty (extensions f)
               ++ SearchService.orEmpty (SearchService.op_extensions ops)) in *.
  destruct (match types with
            | _ :: _ => negb (Js.arr_includes types (type file))
            | [] => false
            end) eqn:Ht; [discriminate Hk|].
  destruct (match exts with
            | _ :: _ => negb (Js.arr_includes exts (extension file))
            | [] => false
            end) eqn:He; [discriminate Hk|].
  destruct (SearchService.q_nonzero _ && SearchService.q_lt _ _) eqn:Hmin;
    [discriminate Hk|].
  destruct (match SearchService.math_min _ _ with
            | Fin _ => _
            | Infinity => false
            end) eqn:Hmax; [discriminate Hk|].
  destruct (match SearchService.orElse (SearchService.op_dateModifiedFrom ops) _
            with Some _ => _ | None => false end) eqn:Hfrom;
    [discriminate Hk|].
  destruct (match SearchService.orElse (SearchService.op_dateModifiedTo ops) _
            with Some _ => _ | None => false end) eqn:Hto;
    [discriminate Hk|].
  destruct (match includeDirectories f with
            | Some false => isDirectory file
            | _ => false
            end) eqn:Hdir; [discriminate Hk|].
  clear Hk. split; [|split; [|split; [|split; [|split; [|split]]]]].
  - intros m Hm. apply (kept_above_min _ file m Hs Hmin).
    destruct (math_max_ge (SearchService.orZero (sizeMin f))
                (SearchService.orZero (SearchService.op_sizeMin ops)))
      as [H1 H2].
    destruct Hm as [Hm|Hm]; destruct (orZero_le _ m Hm) as [H|H]; auto;
      right; eapply Qle_trans; eassumption.
  - intros M HM Hnz. exact (kept_below_max _ _ file M Hmax HM Hnz).
  - intros Hne. destruct types as [|t types]; [contradiction Hne; reflexivity|].
    apply negb_false_iff in Ht. apply arr_includes_In. exact Ht.
  - intros Hne. destruct exts as [|t exts]; [contradiction Hne; reflexivity|].
    apply negb_false_iff in He. apply arr_includes_In. exact He.
  - intros d Hd. rewrite Hd in Hfrom. apply Z.ltb_ge in Hfrom. exact Hfrom.
  - intros d Hd. rewrite Hd in Hto. apply Z.ltb_ge in Hto. exact Hto.
  - intros Hd. rewrite Hd in Hdir. exact Hdir.
Qed.

Lemma kept_record_meets_filters_witness :
  (inject_Z 1000 <= inject_Z (size reportTxt))%Q.
Proof.
  refine (proj1 (kept_record_meets_filters
                   (mkSearchFilters None None (Some (inject_Z 1000)) None
                      None None None)
                   SearchService.no_operators _ reportTxt eq_refl _ _)
            (inject_Z 1000) (or_introl eq_refl)).
  - vm_compute. reflexivity.
  - vm_compute. discriminate.
Defined.

(** ** SearchService: the shape of every result *)

Lemma slice_In (A : Type) (l : list A) (start stop : Z) (x : A) :
  In x (Js.slice l start stop) -> In x l.
Proof.
  unfold Js.slice. set (a := Z.to_nat _). set (n := Z.to_nat _). intros H.
  rewrite <- (firstn_skipn n l). apply in_or_app. right.
  rewrite <- (firstn_skipn a (skipn n l)). apply in_or_app. left. exact H.
Qed.

Lemma slice_length (A : Type) (l : list A) (start stop : Z) :
  (start <= stop)%Z ->
  (Z.of_nat (List.length (Js.slice l start stop)) <= stop - start)%Z.
Proof.
  intros Hle. unfold Js.slice. rewrite length_firstn, length_skipn.
  unfold Js.clamp_index.
  destruct (Z.ltb_spec start 0), (Z.ltb_spec stop 0); lia.
Qed.

Lemma slice_length_le (A : Type) (l : list A) (start stop : Z) :
  (List.length (Js.slice l start stop) <= List.length l)%nat.
Proof.
  unfold Js.slice. rewrite length_firstn, length_skipn. lia.
Qed.

Lemma sortResults_perm (now : Z) (l : list FileItem) (q : str) :
  Permutation (SearchService.sortResults now l q) l.
Proof.
  unfold SearchService.sortResults. destruct (Js.trim q);
    apply stable_sort_perm.
Qed.

Section ResultFacts.

Variable db : option Sqlite.Connection.
Variable fuse_search : SearchService.Fuse -> str -> Z -> list FileItem.

(** [search] answers with the empty result, or with the result built
    from what one of its strategies retrieved. *)
Lemma search_shape (st : SearchService.State) (now : Z) (q : str)
    (filters : SearchService.FiltersArg) (limit offset : Z) :
  let r := fst (fst (SearchService.search db fuse_search st now q filters
                       limit offset)) in
  r = mkSearchResult [] 0 q
  \/ exists combined retrieved,
       SearchService.combineFilters filters
         (snd (SearchService.parseSearchOperators now q)) = inr combined
       /\ r = resultOf now q (fst (SearchService.parseSearchOperators now q))
                combined limit offset retrieved.
Proof.
  unfold SearchService.search, SearchService.search_try.
  destruct (SearchService.parseSearchOperators now q) as [clean ops].
  cbn [fst snd].
  destruct (SearchService.combineFilters filters ops) as [e|combined];
    [left; reflexivity|].
  unfold SearchService.searchWithFilters, SearchService.databaseSearch.
  destruct (Js.trim clean) eqn:Ht.
  - destruct (A.searchFiles db [] (limit * 2) offset) as [e|r];
      [left; reflexivity|].
    right. exists combined, r. split; reflexivity.
  - destruct (SearchService.shouldUseFuzzySearch clean).
    + destruct (SearchService.fuzzySearch db fuse_search st now clean limit)
        as [[r st'] calls].
      right. exists combined, r. split; reflexivity.
    + destruct (A.searchFiles db clean (limit * 2) offset) as [e|r];
        [left; reflexivity|].
      right. exists combined, r. split; reflexivity.
Qed.

End ResultFacts.

(** X11.  Every answer of [search] for a limit that is not negative, whatever
    the store, the fuzzy index and the other arguments.  It echoes the
    query as typed; it holds at most [limit] records, and never more than
    the total it reports; and every record in it passes the combined
    filters. *)
Theorem search_result_bounds (db : option Sqlite.Connection)
    (fuse_search : SearchService.Fuse -> str -> Z -> list FileItem)
    (st : SearchService.State) (now : Z) (q : str)
    (filters : SearchService.FiltersArg) (limit offset : Z) :
  (0 <= limit)%Z ->
  let r := fst (fst (SearchService.search db fuse_search st now q filters
                       limit offset)) in
  query r = q
  /\ (Z.of_nat (List.length (items r)) <= limit)%Z
  /\ (Z.of_nat (List.length (items r)) <= totalCount r)%Z
  /\ forall combined,
       SearchService.combineFilters filters
         (snd (SearchService.parseSearchOperators now q)) = inr combined ->
       Forall (fun file => SearchService.keep combined file = true) (items r).
Proof.
  intros Hl r.
  destruct (search_shape db fuse_search st now q filters limit offset)
    as [E|(combined & retrieved & Hc & E)]; fold r in E; rewrite E.
  - cbn [query items totalCount List.length].
    repeat split; try lia. intros c _. constructor.
  - unfold resultOf. cbn [query items totalCount].
    split; [reflexivity|]. split; [|split].
    + pose proof (slice_length _
                    (SearchService.sortResults now
                       (SearchService.applyFilters retrieved combined)
                       (fst (SearchService.parseSearchOperators now q)))
                    offset (offset + limit) ltac:(lia)) as H.
      replace (offset + limit - offset)%Z with limit in H by lia. exact H.
    + apply inj_le. apply slice_length_le.
    + intros c Hc'. rewrite Hc in Hc'. injection Hc' as <-.
      apply Forall_forall. intros file Hin. apply slice_In in Hin.
      apply (Permutation_in _ (sortResults_perm _ _ _)) in Hin.
      unfold SearchService.applyFilters in Hin. apply filter_In in Hin.
      exact (proj2 Hin).
Qed.

Lemma search_result_bounds_witness :
  (Z.of_nat (List.length
               (items (fst (fst (SearchService.search twelveFiles
                                   fuseEverything SearchService.initial
                                   1700000000000 (lit "f0")
                                   SearchService.FUndefined 5 0))))) <= 5)%Z.
Proof.
  apply (search_result_bounds twelveFiles fuseEverything SearchService.initial
           1700000000000 (lit "f0") SearchService.FUndefined 5 0).
  lia.
Defined.

(** ** SearchService: browsing *)

Lemma StronglySorted_app (A : Type) (R : A -> A -> Prop) (l1 l2 : list A) :
  StronglySorted R (l1 ++ l2) -> StronglySorted R l1 /\ StronglySorted R l2.
Proof.
  induction l1 as [|x l1 IH]; cbn [app]; intros H.
  - split; [constructor|exact H].
  - apply StronglySorted_inv in H. destruct H as [H Hx].
    destruct (IH H) as [H1 H2]. split; [|exact H2].
    constructor; [exact H1|]. apply Forall_app in Hx. exact (proj1 Hx).
Qed.

Lemma slice_sorted (A : Type) (R : A -> A -> Prop) (l : list A)
    (start stop : Z) :
  StronglySorted R l -> StronglySorted R (Js.slice l start stop).
Proof.
  intros H. unfold Js.slice.
  set (a := Z.to_nat _). set (n := Z.to_nat _).
  rewrite <- (firstn_skipn n l) in H. apply StronglySorted_app in H.
  destruct H as [_ H].
  rewrite <- (firstn_skipn a (skipn n l)) in H. apply StronglySorted_app in H.
  exact (proj1 H).
Qed.

(** X12.  Browsing.  When nothing is left of the query once its operators are
    taken out, the page [search] returns is ordered by modification
    date, newest first. *)
Theorem browse_newest_first (db : option Sqlite.Connection)
    (fuse_search : SearchService.Fuse -> str -> Z -> list FileItem)
    (st : SearchService.State) (now : Z) (q : str)
    (filters : SearchService.FiltersArg) (limit offset : Z) :
  Js.trim (fst (SearchService.parseSearchOperators now q)) = [] ->
  StronglySorted (fun a b => (dateModified b <= dateModified a)%Z)
    (items (fst (fst (SearchService.search db fuse_search st now q filters
                        limit offset)))).
Proof.
  intros Ht.
  destruct (search_shape db fuse_search st now q filters limit offset)
    as [E|(combined & retrieved & _ & E)]; cbv zeta in E; rewrite E.
  - constructor.
  - unfold resultOf. cbn [items]. apply slice_sorted.
    unfold SearchService.sortResults. rewrite Ht.
    apply (sort_sorted FileItem dateModified).
Qed.

Lemma browse_newest_first_witness :
  StronglySorted (fun a b => (dateModified b <= dateModified a)%Z)
    (items (fst (fst (SearchService.search twelveFiles fuseEverything
                        SearchService.initial 1700000000000
                        (lit "ext:txt") SearchService.FUndefined 5 0)))).
Proof.
  apply browse_newest_first. vm_compute. reflexivity.
Defined.

(** ** SearchService: the fuzzy index while it is fresh *)

(** X13.  A fuzzy search within five minutes of the last index build does not
    read the store at all: the answer is the same whatever the store
    holds by then, the only back-end call is the one to Fuse, and the
    index is left as it was.  Files added, changed or removed in the
    meantime show up in fuzzy results only after the index is rebuilt. *)
Theorem fresh_index_ignores_store (db db' : option Sqlite.Connection)
    (fuse_search : SearchService.Fuse -> str -> Z -> list FileItem)
    (st : SearchService.State) (now : Z) (q : str)
    (filters : SearchService.FiltersArg) (limit offset : Z)
    (index : SearchService.Fuse) :
  SearchService.fuseIndex st = Some index ->
  (now - SearchService.lastIndexUpdate st < SearchService.indexUpdateThreshold)%Z ->
  SearchService.shouldUseFuzzySearch
    (fst (SearchService.parseSearchOperators now q)) = true ->
  SearchService.search db fuse_search st now q filters limit offset
  = SearchService.search db' fuse_search st now q filters limit offset
  /\ snd (fst (SearchService.search db fuse_search st now q filters limit
                 offset)) = st
  /\ forall text l o,
       ~ In (SearchService.DbSearchFiles text l o)
           (snd (SearchService.search db fuse_search st now q filters limit
                   offset)).
Proof.
  intros Hi Hfresh Hfz.
  assert (E : forall d,
             SearchService.search d fuse_search st now q filters limit offset
           = match SearchService.combineFilters filters
                     (snd (SearchService.parseSearchOperators now q)) with
             | inl _ => (mkSearchResult [] 0 q, st, [])
             | inr combined =>
                 (resultOf now q
                    (fst (SearchService.parseSearchOperators now q))
                    combined limit offset
                    (fuse_search index
                       (fst (SearchService.parseSearchOperators now q))
                       (limit * 2)%Z),
                  st,
                  [SearchService.FuseSearch
                     (fst (SearchService.parseSearchOperators now q))
                     (limit * 2)%Z])
             end).
  { intros d. unfold SearchService.search, SearchService.search_try.
    destruct (SearchService.parseSearchOperators now q) as [clean ops].
    cbn [fst snd] in *.
    destruct (SearchService.combineFilters filters ops) as [e|combined];
      [reflexivity|].
    pose proof (fuzzy_query_not_blank clean Hfz) as Hnb.
    destruct (Js.trim clean) eqn:Ht; [contradiction Hnb; reflexivity|].
    rewrite Hfz.
    unfold SearchService.fuzzySearch, SearchService.updateFuseIndex.
    rewrite Hi. apply Z.ltb_lt in Hfresh. rewrite Hfresh, Hi. reflexivity. }
  rewrite (E db), (E db'). split; [reflexivity|].
  destruct (SearchService.combineFilters filters _) as [e|combined];
    cbn [fst snd]; (split; [reflexivity|]).
  - intros text l o [].
  - intros text l o [H|[]]. discriminate H.
Qed.

Lemma fresh_index_ignores_store_witness :
  SearchService.search twelveFiles fuseEverything indexedAtZero 60000
    (lit "rep*rt") SearchService.FUndefined 5 0
  = SearchService.search failingStore fuseEverything indexedAtZero 60000
      (lit "rep*rt") SearchService.FUndefined 5 0.
Proof.
  apply (fresh_index_ignores_store twelveFiles failingStore fuseEverything
           indexedAtZero 60000 (lit "rep*rt") SearchService.FUndefined 5 0
           (SearchService.mkFuse [reportTxt] SearchService.fuseOptions)).
  - reflexivity.
  - vm_compute. reflexivity.
  - vm_compute. reflexivity.
Defined.

(** ** SearchService: what reaches the store's own query parser *)

Lemma split_ws_aux_parts (s : str) :
  forall in_sep,
    Forall (fun part => (List.length part <= List.length s)%nat
                        /\ forall c, In c part -> In c s)
      (Js.split_ws_aux in_sep s).
Proof.
  induction s as [|x s IH]; intros in_sep; cbn [Js.split_ws_aux].
  - constructor; [|constructor]. split; [lia|auto].
  - assert (Hmono : forall b,
               Forall (fun part => (List.length part <= List.length (x :: s))%nat
                                   /\ forall c, In c part -> In c (x :: s))
                 (Js.split_ws_aux b s)).
    { intros b. eapply Forall_impl; [|apply (IH b)].
      cbn [List.length]. intros part [Hl Hc]. split; [lia|].
      intros c Hin. right. auto. }
    destruct (Js.is_space x).
    + destruct in_sep; [apply Hmono|].
      constructor; [|apply Hmono]. split; [cbn; lia|intros c []].
    + pose proof (IH false) as H.
      destruct (Js.split_ws_aux false s) as [|w ws].
      * constructor; [|constructor]. split; [cbn; lia|].
        intros c [<-|[]]. left. reflexivity.
      * apply Forall_cons_iff in H. destruct H as [[Hl Hc] Hws].
        constructor.
        -- split; [cbn [List.length]; lia|].
           intros c [<-|Hin]; [left; reflexivity|right; auto].
        -- eapply Forall_impl; [|exact Hws].
           cbn [List.length]. intros part [Hl' Hc']. split; [lia|].
           intros c Hin. right. auto.
Qed.

Lemma startsWith_parts (s p : str) :
  Js.startsWith s p = true ->
  (List.length p <= List.length s)%nat /\ forall c, In c p -> In c s.
Proof.
  intros H. destruct (startsWith_app p s H) as [r ->].
  rewrite length_app. split; [lia|]. intros c Hc. apply in_or_app. auto.
Qed.

Lemma quiet_part (acc : A.SearchTerms * list str) (part : str) :
  (List.length part <= 3)%nat \/ ~ In colon part ->
  exists textParts,
    A.parsePart acc part = (fst acc, textParts).
Proof.
  intros Hq. destruct acc as [terms textParts]. unfold A.parsePart.
  assert (Hno : forall p, (3 < List.length p)%nat -> In colon p ->
                  Js.startsWith part p = false).
  { intros p Hl Hc. destruct (Js.startsWith part p) eqn:E; [|reflexivity].
    apply startsWith_parts in E. destruct E as [El Ec].
    destruct Hq as [Hq|Hq]; [lia|]. contradiction Hq. auto. }
  rewrite (Hno (lit "type:")), (Hno (lit "ext:")), (Hno (lit "size:"));
    try (cbn; lia); try (cbn; unfold colon; tauto).
  eexists. reflexivity.
Qed.

Lemma quiet_parts (parts : list str) :
  Forall (fun part => (List.length part <= 3)%nat \/ ~ In colon part) parts ->
  forall acc, fst (fold_left A.parsePart parts acc) = fst acc.
Proof.
  induction 1 as [|part parts Hp _ IH]; intros acc; [reflexivity|].
  cbn [fold_left]. rewrite IH.
  destruct (quiet_part acc part Hp) as [tp ->]. reflexivity.
Qed.

Lemma quiet_query (q : str) :
  (List.length q <= 3)%nat \/ ~ In colon q ->
  A.t_type (A.parseSearchQuery q) = None
  /\ A.t_extension (A.parseSearchQuery q) = None
  /\ A.t_size (A.parseSearchQuery q) = None.
Proof.
  intros Hq. unfold A.parseSearchQuery.
  assert (Hparts : Forall (fun part => (List.length part <= 3)%nat
                                       \/ ~ In colon part) (Js.split_ws q)).
  { eapply Forall_impl; [|apply (split_ws_aux_parts q false)].
    intros part [Hl Hc]. destruct Hq as [Hq|Hq]; [left; lia|right].
    intros Hin. apply Hq. auto. }
  pose proof (quiet_parts (Js.split_ws q) Hparts
                (A.mkSearchTerms None None None None, [])) as E.
  destruct (fold_left A.parsePart (Js.split_ws q) _) as [terms textParts].
  cbn [fst] in E. subst terms. destruct textParts; cbn; auto.
Qed.

Lemma not_fuzzy_quiet (q : str) :
  SearchService.shouldUseFuzzySearch q = false ->
  (List.length q <= 3)%nat \/ ~ In colon q.
Proof.
  intros H. destruct (Nat.ltb_spec 3 (List.length q)) as [Hl|Hl];
    [right|left; exact Hl].
  intros Hin.
  assert (Hf : SearchService.shouldUseFuzzySearch q = true);
    [|congruence].
  apply shouldUseFuzzySearch_spec. split; [exact Hl|].
  exists colon. split; [exact Hin|]. right. right. reflexivity.
Qed.

Lemma fuzzySearch_calls (db : option Sqlite.Connection)
    (fuse_search : SearchService.Fuse -> str -> Z -> list FileItem)
    (st : SearchService.State) (now : Z) (q : str) (limit : Z)
    (text : str) (l o : Z) :
  In (SearchService.DbSearchFiles text l o)
    (snd (SearchService.fuzzySearch db fuse_search st now q limit)) ->
  text = [].
Proof.
  unfold SearchService.fuzzySearch, SearchService.updateFuseIndex.
  destruct (match SearchService.fuseIndex st with
            | Some _ => _
            | None => false
            end).
  - destruct (SearchService.fuseIndex st); cbn [snd]; intros H.
    + destruct H as [H|[]]. discriminate H.
    + destruct H.
  - destruct (A.searchFiles db [] 10000 0) as [e|allFiles].
    + destruct (SearchService.fuseIndex st); cbn [snd]; intros H.
      * destruct H as [H|[H|[]]]; [|discriminate H].
        injection H as <-. reflexivity.
      * destruct H as [H|[]]. injection H as <-. reflexivity.
    + cbn [SearchService.fuseIndex snd]. intros H.
      destruct H as [H|[H|[]]]; [|discriminate H].
      injection H as <-. reflexivity.
Qed.

(** X14.  The store's own operator syntax is out of reach from [search].
    Whatever the query, every text that [search] passes to
    [DatabaseService.searchFiles] is one in which that service's
    [parseSearchQuery] finds no [type:], [ext:] or [size:] term: a text
    with such a term holds a colon and is longer than three characters,
    and goes to the fuzzy index instead. *)
Theorem store_queries_carry_no_operator (db : option Sqlite.Connection)
    (fuse_search : SearchService.Fuse -> str -> Z -> list FileItem)
    (st : SearchService.State) (now : Z) (q : str)
    (filters : SearchService.FiltersArg) (limit offset : Z) :
  forall text l o,
    In (SearchService.DbSearchFiles text l o)
      (snd (SearchService.search db fuse_search st now q filters limit
              offset)) ->
    A.t_type (A.parseSearchQuery text) = None
    /\ A.t_extension (A.parseSearchQuery text) = None
    /\ A.t_size (A.parseSearchQuery text) = None.
Proof.
  intros text l o. unfold SearchService.search, SearchService.search_try.
  destruct (SearchService.parseSearchOperators now q) as [clean ops].
  destruct (SearchService.combineFilters filters ops) as [e|combined];
    [intros []|].
  unfold SearchService.searchWithFilters, SearchService.databaseSearch.
  assert (Hnil : forall calls : list SearchService.Call,
             calls = [SearchService.DbSearchFiles [] (limit * 2)%Z offset] ->
             In (SearchService.DbSearchFiles text l o) calls ->
             text = []).
  { intros calls -> [H|[]]. injection H as <-. reflexivity. }
  destruct (Js.trim clean) eqn:Ht.
  - destruct (A.searchFiles db [] (limit * 2)%Z offset); cbn [snd];
      intros H; rewrite (Hnil _ eq_refl H); apply quiet_query; left; cbn; lia.
  - destruct (SearchService.shouldUseFuzzySearch clean) eqn:Hfz.
    + pose proof (fuzzySearch_calls db fuse_search st now clean limit text l o)
        as Hcalls.
      destruct (SearchService.fuzzySearch db fuse_search st now clean limit)
        as [[r st'] calls].
      cbn [snd] in *. intros H. rewrite (Hcalls H).
      apply quiet_query. left. cbn. lia.
    + destruct (A.searchFiles db clean (limit * 2)%Z offset); cbn [snd];
        intros [H|[]]; injection H as <-; apply quiet_query;
        apply not_fuzzy_quiet; exact Hfz.
Qed.

Lemma store_queries_carry_no_operator_witness :
  A.t_type (A.parseSearchQuery (lit "a:b")) = None
  /\ A.t_extension (A.parseSearchQuery (lit "a:b")) = None
  /\ A.t_size (A.parseSearchQuery (lit "a:b")) = None.
Proof.
  apply (store_queries_carry_no_operator twelveFiles fuseEverything
           SearchService.initial 1700000000000 (lit "a:b")
           SearchService.FUndefined 5 0 (lit "a:b") 10 0).
  vm_compute. left. reflexivity.
Defined.

(** ** DatabaseService: the statement [searchFiles] builds *)

Lemma whereClause_arity (t : A.SearchTerms) :
  List.length (snd (A.whereClause t))
  = fold_right (fun c n => (Sqlite.arity c + n)%nat) 0%nat
      (fst (A.whereClause t)).
Proof.
  assert (Happ : forall cs c,
             fold_right (fun c n => (Sqlite.arity c + n)%nat) 0%nat (cs ++ [c])
             = (fold_right (fun c n => (Sqlite.arity c + n)%nat) 0%nat cs
                + Sqlite.arity c)%nat).
  { intros cs c. induction cs as [|x cs IH]; cbn [app fold_right]; lia. }
  unfold A.whereClause.
  destruct (A.truthy (A.t_type t)); destruct (A.truthy (A.t_extension t));
    destruct (A.truthy (A.t_size t)) as [sz|];
    try (unfold A.parseSizeQuery;
         destruct (A.sizeQueryGroups sz) as [[[o v] u]|]);
    destruct (A.truthy (A.t_text t));
    cbn [fst snd]; rewrite ?Happ, ?length_app;
    repeat match goal with
           | |- context [if ?b then _ else _] => destruct b
           end;
    reflexivity.
Qed.

Lemma placeholders_sum (cs : list Sqlite.Cond) :
  Sqlite.placeholders cs
  = (fold_right (fun c n => (Sqlite.arity c + n)%nat) 0%nat cs + 2)%nat.
Proof.
  unfold Sqlite.placeholders.
  induction cs as [|c cs IH]; cbn [fold_right]; lia.
Qed.

(** On a healthy store the statement always runs: the parameters bound
    are as many as the placeholders, whatever the query. *)
Lemma searchFiles_healthy (rows : list Sqlite.Row) (q : str)
    (limit offset : Z) :
  A.searchFiles (Some (Sqlite.mkConnection rows None)) q limit offset
  = inr (map A.rowToFileItem
           (Sqlite.limit_offset
              (Stable.sort Sqlite.order_le
                 (filter (Sqlite.eval_where
                            (fst (A.whereClause (A.parseSearchQuery q)))
                            (snd (A.whereClause (A.parseSearchQuery q))))
                    rows))
              limit offset)).
Proof.
  unfold A.searchFiles, Sqlite.all. cbn [Sqlite.fault Sqlite.files].
  pose proof (whereClause_arity (A.parseSearchQuery q)) as Har.
  destruct (A.whereClause (A.parseSearchQuery q)) as [conds ps].
  cbn [fst snd] in *.
  assert (E : match conds with
              | [] => [Sqlite.Integer limit; Sqlite.Integer offset]
              | _ :: _ => ps ++ [Sqlite.Integer limit; Sqlite.Integer offset]
              end = ps ++ [Sqlite.Integer limit; Sqlite.Integer offset]).
  { destruct conds; [|reflexivity].
    destruct ps; [reflexivity|discriminate Har]. }
  rewrite E, placeholders_sum, length_app, <- Har. cbn [List.length].
  rewrite Nat.eqb_refl. cbn [negb].
  rewrite Nat.add_sub, skipn_app, skipn_all, Nat.sub_diag.
  cbn [skipn app]. rewrite firstn_app, firstn_all, Nat.sub_diag.
  cbn [firstn]. rewrite app_nil_r. reflexivity.
Qed.





(** ** DatabaseService: the [type:] term *)

Lemma upper_char_not_lower (c : ascii) :
  Js.is_lower (Js.upper_char c) = false.
Proof.
  destruct c as [[] [] [] [] [] [] [] []]; vm_compute; reflexivity.
Qed.

Lemma toUpperCase_no_lower (s : str) :
  Forall (fun c => Js.is_lower c = false) (Js.toUpperCase s).
Proof.
  unfold Js.toUpperCase. apply Forall_forall. intros c Hc.
  apply in_map_iff in Hc. destruct Hc as (d & <- & _).
  apply upper_char_not_lower.
Qed.

Lemma typeAlias_no_lower (v : str) :
  Forall (fun c => Js.is_lower c = false) (A.typeAlias v).
Proof.
  unfold A.typeAlias.
  repeat match goal with
         | |- context [if ?b then _ else _] => destruct b
         end;
    try apply toUpperCase_no_lower;
    repeat constructor.
Qed.

Lemma parsed_type_no_lower (parts : list str) :
  forall acc,
    (forall t, A.t_type (fst acc) = Some t ->
       Forall (fun c => Js.is_lower c = false) t) ->
    forall t, A.t_type (fst (fold_left A.parsePart parts acc)) = Some t ->
      Forall (fun c => Js.is_lower c = false) t.
Proof.
  induction parts as [|part parts IH]; intros acc Hacc; [exact Hacc|].
  cbn [fold_left]. apply IH. destruct acc as [terms textParts].
  unfold A.parsePart. cbn [fst] in Hacc.
  repeat match goal with
         | |- context [if ?b then _ else _] => destruct b
         end; cbn [fst A.t_type]; try exact Hacc.
  intros t H. injection H as H. subst t. apply typeAlias_no_lower.
Qed.

(** X16.  The [type:] term of [DatabaseService.searchFiles] finds nothing in an
    index.  The term is compared in upper case ([type:image] asks for
    [IMAGE]), and a stored type that holds a lower-case letter, as every
    value of [FileType] does, differs from it: whatever else the query
    says, the result is empty. *)
Theorem type_term_finds_nothing (rows : list Sqlite.Row) (q t : str)
    (limit offset : Z) :
  A.t_type (A.parseSearchQuery q) = Some t ->
  t <> [] ->
  Forall (fun r => exists c, In c (Sqlite.col_type r) /\ Js.is_lower c = true)
    rows ->
  A.searchFiles (Some (Sqlite.mkConnection rows None)) q limit offset = inr [].
Proof.
  intros Ht Hne Hrows. rewrite searchFiles_healthy.
  assert (Hup : Forall (fun c => Js.is_lower c = false) t).
  { revert Ht. unfold A.parseSearchQuery.
    pose proof (parsed_type_no_lower (Js.split_ws q)
                  (A.mkSearchTerms None None None None, [])) as H.
    destruct (fold_left A.parsePart (Js.split_ws q) _) as [terms textParts].
    cbn [fst] in H. intros Ht. apply H; [discriminate|].
    destruct textParts; exact Ht. }
  assert (Hnone : filter (Sqlite.eval_where
                            (fst (A.whereClause (A.parseSearchQuery q)))
                            (snd (A.whereClause (A.parseSearchQuery q))))
                    rows = []).
  { assert (Hw : exists cs ps,
               A.whereClause (A.parseSearchQuery q)
               = (Sqlite.TypeEq :: cs, Sqlite.Text t :: ps)).
    { unfold A.whereClause. rewrite Ht.
      destruct t as [|c0 t0]; [contradiction Hne; reflexivity|].
      cbn [A.truthy fst snd app].
      destruct (A.truthy (A.t_extension _));
        destruct (A.truthy (A.t_size _)) as [sz|];
        try destruct (A.parseSizeQuery sz) as [[cond params]|];
        destruct (A.truthy (A.t_text _));
        cbn [fst snd app]; do 2 eexists; reflexivity. }
    destruct Hw as (cs & ps & ->). cbn [fst snd].
    induction Hrows as [|r rows (c & Hc & Hl) _ IH]; [reflexivity|].
    cbn [filter Sqlite.eval_where Sqlite.arity firstn Sqlite.eval_cond
           Sqlite.text_eq].
    destruct (Js.str_eqb (Sqlite.col_type r) t) eqn:E; [|exact IH].
    apply str_eqb_eq in E. rewrite E in Hc.
    pose proof (proj1 (Forall_forall _ _) Hup c Hc). congruence. }
  rewrite Hnone. cbn [Stable.sort]. unfold Sqlite.limit_offset.
  rewrite skipn_nil. destruct (limit <? 0)%Z; [reflexivity|].
  rewrite firstn_nil. reflexivity.
Qed.

Lemma type_term_finds_nothing_witness :
  A.searchFiles twelveFiles (lit "type:document") 100 0 = inr [].
Proof.
  apply (type_term_finds_nothing (map numbered (seq 0 12))
           (lit "type:document") (lit "DOCUMENT") 100 0).
  - vm_compute. reflexivity.
  - discriminate.
  - repeat constructor; exists "d"%char; (split; [vm_compute; tauto|reflexivity]).
Defined.

(** ** FileWatcher: a change event *)

Lemma one_row_per_path (rows : list Sqlite.Row) (p : str) :
  NoDup (map Sqlite.col_fullPath rows) ->
  (exists r, In r rows /\ Sqlite.col_fullPath r = p) ->
  S (List.length
       (filter (fun x => negb (Js.str_eqb (Sqlite.col_fullPath x) p)) rows))
  = List.length rows.
Proof.
  induction rows as [|x rows IH]; intros Hnd (r & Hr & Hp); [destruct Hr|].
  cbn [map] in Hnd. apply NoDup_cons_iff in Hnd. destruct Hnd as [Hx Hnd].
  cbn [filter List.length].
  destruct (Js.str_eqb (Sqlite.col_fullPath x) p) eqn:E; cbn [negb].
  - apply str_eqb_eq in E. f_equal.
    assert (Hall : forallb
                     (fun y => negb (Js.str_eqb (Sqlite.col_fullPath y) p))
                     rows = true).
    { apply forallb_forall. intros y Hy. apply negb_true_iff.
      destruct (Js.str_eqb (Sqlite.col_fullPath y) p) eqn:Ey; [|reflexivity].
      apply str_eqb_eq in Ey. exfalso. apply Hx. rewrite E, <- Ey.
      apply in_map. exact Hy. }
    clear -Hall. induction rows as [|y rows IH]; [reflexivity|].
    cbn [forallb] in Hall. apply andb_true_iff in Hall.
    destruct Hall as [Hy Hall]. cbn [filter]. rewrite Hy.
    cbn [List.length]. f_equal. apply IH. exact Hall.
  - cbn [List.length]. f_equal. apply IH; [exact Hnd|].
    destruct Hr as [<-|Hr].
    + rewrite Hp in E. rewrite (proj2 (str_eqb_eq _ _) eq_refl) in E.
      discriminate E.
    + exists r. auto.
Qed.

(** X17.  A change event replaces, it does not add.  In a store whose keys are
    unique and that holds a row for the path, a [change] event for that
    path (with [fs.stat] succeeding and an identifier not yet in the
    store) leaves the number of rows as it was; the one row for the path
    is the new one, which carries the new identifier and the sizes and
    dates just read. *)
Theorem change_event_replaces (P : Platform) (uuidv4 : nat -> str)
    (watchPath filePath : str) (stats : Stats) (rows : list Sqlite.Row)
    (st : FileWatcher.State) :
  WellKeyed rows ->
  (exists r, In r rows /\ Sqlite.col_fullPath r = filePath) ->
  ~ In (uuidv4 (FileWatcher.uuids st)) (map Sqlite.col_id rows) ->
  let db' :=
    fst (FileWatcher.handle P uuidv4 watchPath (FileWatcher.change filePath)
           (inr stats) (Some (Sqlite.mkConnection rows None)) st) in
  A.getFileCount db' = inr (Z.of_nat (List.length rows))
  /\ forall r, In r (rowsOf db') -> Sqlite.col_fullPath r = filePath ->
       Sqlite.col_id r = uuidv4 (FileWatcher.uuids st)
       /\ Sqlite.col_size r = st_size stats
       /\ Sqlite.col_dateModified r = st_mtime stats.
Proof.
  intros [Hpaths Hids] Hrow Hfresh db'. subst db'.
  cbn [FileWatcher.handle]. unfold FileWatcher.upsert.
  cbn [FileWatcher.createFileItem A.insertFile Sqlite.run_insert Sqlite.fault
         Sqlite.files fst A.getFileCount Sqlite.count rowsOf].
  set (new := A.fileParams _).
  assert (Hfilter : filter (fun x => negb (Js.str_eqb (Sqlite.col_id x)
                                             (Sqlite.col_id new)
                                           || Js.str_eqb (Sqlite.col_fullPath x)
                                                (Sqlite.col_fullPath new)))
                      rows
                    = filter (fun x => negb (Js.str_eqb (Sqlite.col_fullPath x)
                                               filePath)) rows).
  { apply filter_ext_in. intros x Hx. subst new.
    cbn [A.fileParams Sqlite.col_id Sqlite.col_fullPath id fullPath].
    destruct (Js.str_eqb (Sqlite.col_id x) (uuidv4 (FileWatcher.uuids st)))
      eqn:E; [|reflexivity].
    apply str_eqb_eq in E. exfalso. apply Hfresh. rewrite <- E.
    apply in_map. exact Hx. }
  split.
  - f_equal. f_equal. unfold Sqlite.insert_or_replace.
    rewrite Hfilter, length_app. cbn [List.length].
    rewrite Nat.add_1_r. apply one_row_per_path; assumption.
  - intros r Hr Hp. unfold Sqlite.insert_or_replace in Hr.
    rewrite Hfilter in Hr. apply in_app_or in Hr.
    destruct Hr as [Hr|[<-|[]]].
    + apply filter_In in Hr. destruct Hr as [_ Hr].
      rewrite Hp, (proj2 (str_eqb_eq _ _) eq_refl) in Hr. discriminate Hr.
    + subst new. cbn. auto.
Qed.

Lemma change_event_replaces_witness :
  A.getFileCount
    (fst (FileWatcher.handle Posix.linux uuidTally (lit "/data")
            (FileWatcher.change (lit "/data/f03.txt"))
            (inr (mkStats 4096 1700000000777 1690000000000 false))
            twelveFiles FileWatcher.initial))
  = inr 12%Z.
Proof.
  refine (proj1 (change_event_replaces Posix.linux uuidTally (lit "/data")
                   (lit "/data/f03.txt")
                   (mkStats 4096 1700000000777 1690000000000 false)
                   (map numbered (seq 0 12)) FileWatcher.initial _ _ _)).
  - split; vm_compute; repeat constructor; cbn; intuition discriminate.
  - exists (numbered 3). split; [vm_compute; tauto|reflexivity].
  - vm_compute. intuition discriminate.
Defined.

(** ** FileWatcher: starting and stopping *)

Lemma startWatching_flag (P : Platform) (paths : list str) :
  forall st,
    FileWatcher.isWatching st = true ->
    FileWatcher.isWatching
      (fold_left
         (fun st watchPath =>
            if Js.str_eqb (platform P) (lit "win32")
               && FileWatcher.isDriveRoot watchPath
            then st
            else FileWatcher.mkState
                   (FileWatcher.setWatcher (FileWatcher.watchers st) watchPath)
                   (FileWatcher.isWatching st) (FileWatcher.emitted st)
                   (FileWatcher.uuids st))
         paths st) = true.
Proof.
  induction paths as [|p paths IH]; intros st Hst; [exact Hst|].
  cbn [fold_left]. apply IH.
  destruct (Js.str_eqb (platform P) (lit "win32") && FileWatcher.isDriveRoot p);
    [exact Hst|exact Hst].
Qed.

(** X18.  Only the first call counts.  Once [startWatching] has run, a further
    call changes nothing, whatever paths it names: a second
    ['start-indexing'] request with other roots leaves the watcher on the
    roots of the first, until [stopWatching] is called. *)
Theorem watching_starts_once (P : Platform) (first second : list str)
    (st : FileWatcher.State) :
  FileWatcher.startWatching P second (FileWatcher.startWatching P first st)
  = FileWatcher.startWatching P first st
  /\ FileWatcher.isCurrentlyWatching (FileWatcher.startWatching P first st)
     = true.
Proof.
  assert (H : FileWatcher.isWatching (FileWatcher.startWatching P first st)
              = true).
  { unfold FileWatcher.startWatching.
    destruct (FileWatcher.isWatching st) eqn:E; [exact E|].
    apply startWatching_flag. reflexivity. }
  split; [|exact H].
  unfold FileWatcher.startWatching at 1. rewrite H. reflexivity.
Qed.

Lemma setWatcher_NoDup (keys : list str) (watchPath : str) :
  NoDup keys -> NoDup (FileWatcher.setWatcher keys watchPath).
Proof.
  intros H. unfold FileWatcher.setWatcher.
  destruct (Js.arr_includes keys watchPath) eqn:E; [exact H|].
  apply NoDup_app; [exact H|repeat constructor; intros []|].
  intros x Hx [<-|[]].
  apply arr_includes_In in Hx. congruence.
Qed.

Lemma setWatcher_In (keys : list str) (watchPath x : str) :
  In x (FileWatcher.setWatcher keys watchPath) <-> In x keys \/ x = watchPath.
Proof.
  unfold FileWatcher.setWatcher.
  destruct (Js.arr_includes keys watchPath) eqn:E.
  - apply arr_includes_In in E. split; [auto|].
    intros [H| ->]; assumption.
  - rewrite in_app_iff. cbn [In]. intuition.
Qed.

(** X19.  What is watched after a start from rest.  From a watcher that is not
    watching and holds no path, [startWatching] leaves a list without
    repetition that holds exactly the paths asked for, less, on Windows,
    the drive roots ([C:\] and the like), which are never watched. *)
Theorem watched_paths_after_start (P : Platform) (paths : list str)
    (st : FileWatcher.State) :
  FileWatcher.isWatching st = false ->
  FileWatcher.watchers st = [] ->
  let watched :=
    FileWatcher.getWatchedPaths (FileWatcher.startWatching P paths st) in
  NoDup watched
  /\ forall p,
       In p watched <->
       In p paths
       /\ (Js.str_eqb (platform P) (lit "win32") && FileWatcher.isDriveRoot p)
          = false.
Proof.
  intros Hw Hk watched. subst watched.
  unfold FileWatcher.getWatchedPaths, FileWatcher.startWatching.
  rewrite Hw.
  set (step := fun (st : FileWatcher.State) (watchPath : str) => _).
  assert (H : forall st0,
             NoDup (FileWatcher.watchers st0) ->
             NoDup (FileWatcher.watchers (fold_left step paths st0))
             /\ forall p,
                  In p (FileWatcher.watchers (fold_left step paths st0)) <->
                  In p (FileWatcher.watchers st0)
                  \/ (In p paths
                      /\ (Js.str_eqb (platform P) (lit "win32")
                          && FileWatcher.isDriveRoot p) = false)).
  { induction paths as [|x paths IH]; intros st0 Hnd.
    - cbn [fold_left]. split; [exact Hnd|]. intros p. cbn [In]. tauto.
    - cbn [fold_left].
      destruct (IH (step st0 x)) as [IH1 IH2].
      + unfold step.
        destruct (Js.str_eqb (platform P) (lit "win32")
                  && FileWatcher.isDriveRoot x); [exact Hnd|].
        cbn [FileWatcher.watchers]. apply setWatcher_NoDup. exact Hnd.
      + split; [exact IH1|]. intros p. rewrite IH2. unfold step.
        destruct (Js.str_eqb (platform P) (lit "win32")
                  && FileWatcher.isDriveRoot x) eqn:E.
        * cbn [In]. split; [tauto|].
          intros [H|[[<-|H] Hd]]; [tauto|congruence|tauto].
        * cbn [FileWatcher.watchers In]. rewrite setWatcher_In.
          split.
          -- intros [[H| ->]|H]; [tauto| |tauto].
             right. split; [auto|exact E].
          -- intros [H|[[<-|H] Hd]]; auto. }
  destruct (H (FileWatcher.mkState (FileWatcher.watchers st) true
                 (FileWatcher.emitted st) (FileWatcher.uuids st))) as [H1 H2].
  { cbn [FileWatcher.watchers]. rewrite Hk. constructor. }
  split; [exact H1|]. intros p. rewrite H2. cbn [FileWatcher.watchers].
  rewrite Hk. cbn [In]. tauto.
Qed.

Lemma watched_paths_after_start_witness :
  NoDup (FileWatcher.getWatchedPaths
           (FileWatcher.startWatching Posix.linux
              [lit "/home"; lit "/data"; lit "/home"] FileWatcher.initial)).
Proof.
  apply (watched_paths_after_start Posix.linux
           [lit "/home"; lit "/data"; lit "/home"] FileWatcher.initial);
    reflexivity.
Defined.

(** ** IpcHandlers: the drives offered *)

(** X22.  ['get-system-drives'] never answers with an empty list.  Off
    Windows the list holds exactly one path, one of [/], [/home] and
    [/usr]; on Windows it holds drive roots only.  A path in the list is
    accessible, unless it is the fallback ([/], or [C:\]) given when
    nothing was. *)
Theorem system_drives_never_empty (platform : str) (access : str -> bool) :
  let drives := IpcHandlers.getSystemDrives platform access in
  drives <> []
  /\ (platform <> lit "win32" ->
      exists p, drives = [p] /\ In p [lit "/"; lit "/home"; lit "/usr"])
  /\ (platform = lit "win32" ->
      Forall (fun d => In d IpcHandlers.driveCandidates) drives)
  /\ Forall (fun d => access d = true \/ d = lit "/" \/ d = lit "C:\") drives.
Proof.
  intros drives. subst drives. unfold IpcHandlers.getSystemDrives.
  destruct (Js.str_eqb platform (lit "win32")) eqn:E.
  - apply str_eqb_eq in E.
    destruct (filter access IpcHandlers.driveCandidates) as [|d ds] eqn:F.
    + split; [discriminate|]. split; [intros H; contradiction|].
      split; [intros _; constructor; [vm_compute; tauto|constructor]|].
      constructor; [right; right; reflexivity|constructor].
    + split; [discriminate|]. split; [intros H; contradiction|].
      split.
      * intros _. rewrite <- F. apply Forall_forall. intros x Hx.
        apply filter_In in Hx. exact (proj1 Hx).
      * rewrite <- F. apply Forall_forall. intros x Hx.
        apply filter_In in Hx. left. exact (proj2 Hx).
  - assert (Hne : platform <> lit "win32").
    { intros ->. rewrite (proj2 (str_eqb_eq _ _) eq_refl) in E.
      discriminate E. }
    destruct (find access [lit "/"; lit "/home"; lit "/usr"]) as [p|] eqn:F.
    + apply find_some in F. destruct F as [Hin Hacc].
      split; [discriminate|]. split; [intros _; exists p; auto|].
      split; [intros H; contradiction|].
      constructor; [left; exact Hacc|constructor].
    + split; [discriminate|].
      split; [intros _; exists (lit "/"); cbn; auto|].
      split; [intros H; contradiction|].
      constructor; [right; left; reflexivity|constructor].
Qed.

(** ** useSearchCache *)

Section CacheFacts.

Variable maxSize : Z.
Variable ttl : Z.
Variable stringify : SearchFilters -> str.

Lemma map_get_set (key : str) (v : SearchCache.CacheEntry)
    (c : SearchCache.Cache) :
  SearchCache.map_get key (SearchCache.map_set key v c) = Some v.
Proof.
  induction c as [|[k x] c IH]; cbn [SearchCache.map_set SearchCache.map_get].
  - rewrite (proj2 (str_eqb_eq _ _) eq_refl). reflexivity.
  - destruct (Js.str_eqb k key) eqn:E; cbn [SearchCache.map_get]; rewrite E;
      [reflexivity|exact IH].
Qed.

Lemma map_set_length (key : str) (v : SearchCache.CacheEntry)
    (c : SearchCache.Cache) :
  (List.length (SearchCache.map_set key v c) <= S (List.length c))%nat.
Proof.
  induction c as [|[k x] c IH]; cbn [SearchCache.map_set List.length]; [lia|].
  destruct (Js.str_eqb k key); cbn [List.length]; lia.
Qed.

Lemma map_set_keys (key : str) (v : SearchCache.CacheEntry)
    (c : SearchCache.Cache) :
  key <> [] ->
  Forall (fun kv => fst kv <> []) c ->
  Forall (fun kv => fst kv <> []) (SearchCache.map_set key v c).
Proof.
  intros Hk. induction 1 as [|[k x] c Hx Hc IH]; cbn [SearchCache.map_set].
  - repeat constructor. exact Hk.
  - destruct (Js.str_eqb k key); constructor; auto.
Qed.

(** X23.  What was just cached is found.  A [get] for the same query and
    filters, no later than [ttl] after the [set], returns the result
    stored, and leaves the cache as it is. *)
Theorem cache_set_then_get (now later : Z) (query : str)
    (filters : SearchFilters) (r : SearchResult) (c : SearchCache.Cache) :
  (later - now <= ttl)%Z ->
  SearchCache.get ttl stringify later query filters
    (SearchCache.set maxSize ttl stringify now query filters r c)
  = (Some r, SearchCache.set maxSize ttl stringify now query filters r c).
Proof.
  intros Hl. unfold SearchCache.get, SearchCache.set.
  rewrite map_get_set. unfold SearchCache.isExpired.
  cbn [SearchCache.timestamp SearchCache.result].
  destruct (Z.ltb_spec ttl (later - now)); [lia|reflexivity].
Qed.

(** X24.  The cache stays within its bound.  With a bound of at least one, a
    cache of at most [maxSize] entries, none under the empty key, is
    again such a cache after [set]. *)
Theorem cache_stays_within_bound (now : Z) (query : str)
    (filters : SearchFilters) (r : SearchResult) (c : SearchCache.Cache) :
  (1 <= maxSize)%Z ->
  (Z.of_nat (List.length c) <= maxSize)%Z ->
  Forall (fun kv => fst kv <> []) c ->
  let c' := SearchCache.set maxSize ttl stringify now query filters r c in
  (Z.of_nat (List.length c') <= maxSize)%Z
  /\ Forall (fun kv => fst kv <> []) c'.
Proof.
  intros Hm Hl Hk c'. subst c'. unfold SearchCache.set.
  set (c1 := if SearchService.q_lt _ _ then _ else c).
  assert (H1 : (List.length c1 <= List.length c)%nat
               /\ Forall (fun kv => fst kv <> []) c1).
  { subst c1. destruct (SearchService.q_lt _ _); [|split; [lia|exact Hk]].
    unfold SearchCache.cleanupExpired. split; [apply filter_length_le|].
    apply Forall_forall. intros kv Hkv. apply filter_In in Hkv.
    exact (proj1 (Forall_forall _ _) Hk kv (proj1 Hkv)). }
  destruct H1 as [Hl1 Hk1].
  set (c2 := if (maxSize <=? Z.of_nat (List.length c1))%Z then _ else c1).
  assert (H2 : (Z.of_nat (List.length c2) < maxSize)%Z
               /\ Forall (fun kv => fst kv <> []) c2).
  { subst c2. destruct (Z.leb_spec maxSize (Z.of_nat (List.length c1)));
      [|split; [lia|exact Hk1]].
    destruct c1 as [|[k0 v0] c1]; [cbn [List.length] in *; lia|].
    apply Forall_cons_iff in Hk1. destruct Hk1 as [Hk0 Hk1].
    cbn [fst] in Hk0. destruct k0 as [|a k0]; [contradiction Hk0; reflexivity|].
    unfold SearchCache.map_delete. cbn [filter fst].
    rewrite (proj2 (str_eqb_eq _ _) eq_refl). cbn [negb].
    split.
    - pose proof (filter_length_le
                    (fun kv : str * SearchCache.CacheEntry =>
                       negb (Js.str_eqb (fst kv) (a :: k0))) c1).
      cbn [List.length] in *. lia.
    - apply Forall_forall. intros kv Hkv. apply filter_In in Hkv.
      exact (proj1 (Forall_forall _ _) Hk1 kv (proj1 Hkv)). }
  destruct H2 as [Hl2 Hk2]. split.
  - pose proof (map_set_length
                  (SearchCache.generateCacheKey stringify query filters)
                  (SearchCache.mkEntry r now filters) c2). lia.
  - apply map_set_keys; [|exact Hk2].
    unfold SearchCache.generateCacheKey. destruct query; discriminate.
Qed.

Lemma map_get_dropped (prefix key : str) (c : SearchCache.Cache) :
  SearchCache.map_get key
    (filter (fun kv => negb (Js.startsWith (fst kv) prefix)) c)
  = if Js.startsWith key prefix then None else SearchCache.map_get key c.
Proof.
  induction c as [|[k x] c IH]; cbn [filter fst SearchCache.map_get].
  - destruct (Js.startsWith key prefix); reflexivity.
  - destruct (Js.str_eqb k key) eqn:E.
    + apply str_eqb_eq in E. subst k.
      destruct (Js.startsWith key prefix) eqn:S; cbn [negb].
      * rewrite IH. try rewrite S. reflexivity.
      * cbn [SearchCache.map_get].
        rewrite (proj2 (str_eqb_eq _ _) eq_refl). reflexivity.
    + destruct (Js.startsWith k prefix); cbn [negb]; [exact IH|].
      cbn [SearchCache.map_get]. rewrite E. exact IH.
Qed.

Lemma startsWith_self (p r : str) : Js.startsWith (p ++ r) p = true.
Proof.
  induction p as [|c p IH]; [reflexivity|].
  cbn [app Js.startsWith]. rewrite Ascii.eqb_refl. exact IH.
Qed.

(** X25.  Invalidating a query.  After [invalidate(query)] with a query that
    is not empty, a [get] for that query finds nothing, whatever the
    filters; an entry whose key does not start with the query and a
    colon is found as before. *)
Theorem cache_invalidate_query (now : Z) (query : str) (c : SearchCache.Cache) :
  query <> [] ->
  (forall filters,
     fst (SearchCache.get ttl stringify now query filters
            (SearchCache.invalidate (Some query) c)) = None)
  /\ (forall key,
        Js.startsWith key (query ++ lit ":") = false ->
        SearchCache.map_get key (SearchCache.invalidate (Some query) c)
        = SearchCache.map_get key c).
Proof.
  intros Hq. destruct query as [|a q]; [contradiction Hq; reflexivity|].
  cbn [SearchCache.invalidate]. split.
  - intros filters. unfold SearchCache.get. rewrite map_get_dropped.
    unfold SearchCache.generateCacheKey.
    rewrite (app_assoc (a :: q) (lit ":") (stringify filters)).
    rewrite startsWith_self. reflexivity.
  - intros key Hk. rewrite map_get_dropped, Hk. reflexivity.
Qed.

End CacheFacts.

Lemma cache_set_then_get_witness :
  fst (SearchCache.get 600000 sampleStringify 1000 (lit "report") no_filters
         (SearchCache.set 50 600000 sampleStringify 0 (lit "report")
            no_filters (emptyResult (lit "report")) []))
  = Some (emptyResult (lit "report")).
Proof.
  rewrite (cache_set_then_get 50 600000 sampleStringify 0 1000 (lit "report")
             no_filters (emptyResult (lit "report")) []).
  - reflexivity.
  - lia.
Defined.

Lemma cache_stays_within_bound_witness :
  (Z.of_nat (List.length
               (SearchCache.set 1 600000 sampleStringify 5 (lit "b")
                  no_filters (emptyResult (lit "b"))
                  (SearchCache.set 1 600000 sampleStringify 0 (lit "a")
                     no_filters (emptyResult (lit "a")) []))) <= 1)%Z.
Proof.
  apply (cache_stays_within_bound 1 600000 sampleStringify 5 (lit "b")
           no_filters (emptyResult (lit "b"))
           (SearchCache.set 1 600000 sampleStringify 0 (lit "a")
              no_filters (emptyResult (lit "a")) [])).
  - lia.
  - vm_compute. discriminate.
  - repeat constructor. discriminate.
Defined.

Lemma cache_invalidate_query_witness :
  fst (SearchCache.get 600000 sampleStringify 1000 (lit "report") no_filters
         (SearchCache.invalidate (Some (lit "report"))
            (SearchCache.set 50 600000 sampleStringify 0 (lit "report")
               no_filters (emptyResult (lit "report")) [])))
  = None.
Proof.
  apply (cache_invalidate_query 600000 sampleStringify 1000 (lit "report")).
  discriminate.
Defined.

(** ** useSearchHistory *)

Lemma slice_prefix (T : Type) (l : list T) (stop : Z) :
  (0 <= stop)%Z -> Js.slice l 0 stop = firstn (Z.to_nat stop) l.
Proof.
  intros H. unfold Js.slice, Js.clamp_index.
  change (0 <? 0)%Z with false. cbv iota.
  destruct (Z.ltb_spec stop 0) as [Hn|_]; [lia|].
  rewrite (Z.min_l 0 (Z.of_nat (List.length l))) by lia.
  change (Z.to_nat 0) with 0%nat. cbn [skipn]. rewrite Z.sub_0_r.
  destruct (Z.le_ge_cases stop (Z.of_nat (List.length l))) as [Hle|Hge].
  - rewrite Z.min_l by exact Hle. reflexivity.
  - rewrite Z.min_r by exact Hge. rewrite Nat2Z.id.
    rewrite firstn_all, firstn_all2 by lia. reflexivity.
Qed.

Lemma firstn_NoDup (T : Type) (n : nat) (l : list T) :
  NoDup l -> NoDup (firstn n l).
Proof.
  intros H. rewrite <- (firstn_skipn n l) in H.
  apply NoDup_app_remove_r in H. exact H.
Qed.

(** X26.  The history stays tidy.  Adding a query to a history that holds no
    query twice and at most 50 entries gives such a history again.  When
    the query is not blank it comes first, stamped with the current
    time, and what follows are earlier entries for other queries, in
    their former order. *)
Theorem history_stays_tidy (now : Z) (query : str) (resultCount : option Z)
    (prev : list SearchHistory.SearchHistoryItem) :
  NoDup (map SearchHistory.h_query prev) ->
  (List.length prev <= 50)%nat ->
  let history := SearchHistory.addToHistory now query resultCount prev in
  NoDup (map SearchHistory.h_query history)
  /\ (List.length history <= 50)%nat
  /\ (Js.trim query <> [] ->
      history
      = SearchHistory.mkItem query now resultCount
        :: firstn 49 (SearchHistory.removeFromHistory query prev)).
Proof.
  intros Hnd Hl history. subst history. unfold SearchHistory.addToHistory.
  destruct (Js.trim query) as [|a t] eqn:Ht.
  - split; [exact Hnd|]. split; [exact Hl|]. intros H. contradiction H.
    reflexivity.
  - rewrite slice_prefix by (unfold SearchHistory.MAX_HISTORY_ITEMS; lia).
    change (Z.to_nat SearchHistory.MAX_HISTORY_ITEMS) with (S 49).
    rewrite firstn_cons. fold (SearchHistory.removeFromHistory query prev).
    split; [|split].
    + cbn [map SearchHistory.h_query]. constructor.
      * intros Hin. apply in_map_iff in Hin. destruct Hin as (x & Hx & Hin).
        assert (Hin' : In x (SearchHistory.removeFromHistory query prev)).
        { rewrite <- (firstn_skipn 49 (SearchHistory.removeFromHistory query prev)).
          apply in_or_app. left. exact Hin. }
        unfold SearchHistory.removeFromHistory in Hin'.
        apply filter_In in Hin'. destruct Hin' as [_ Hne].
        rewrite Hx, (proj2 (str_eqb_eq _ _) eq_refl) in Hne. discriminate Hne.
      * rewrite <- firstn_map. apply firstn_NoDup.
        unfold SearchHistory.removeFromHistory.
        clear -Hnd. induction prev as [|x prev IH]; [constructor|].
        cbn [map] in Hnd. apply NoDup_cons_iff in Hnd.
        destruct Hnd as [Hx Hnd]. cbn [filter].
        destruct (negb _); cbn [map]; [|auto].
        constructor; [|auto]. intros Hin. apply Hx.
        apply in_map_iff in Hin. destruct Hin as (y & Hy & Hin).
        apply filter_In in Hin. apply in_map_iff. exists y. tauto.
    + cbn [List.length]. rewrite length_firstn. lia.
    + intros _. reflexivity.
Qed.

Lemma history_stays_tidy_witness :
  map SearchHistory.h_query
    (SearchHistory.addToHistory 4000 (lit "photo") (Some 7%Z) threeSearches)
  = [lit "photo"; lit "report"; lit "invoice"].
Proof.
  assert (H1 : NoDup (map SearchHistory.h_query threeSearches)).
  { vm_compute. repeat constructor; cbn; intuition discriminate. }
  assert (H2 : (List.length threeSearches <= 50)%nat).
  { vm_compute. lia. }
  rewrite (proj2 (proj2 (history_stays_tidy 4000 (lit "photo") (Some 7%Z)
                            threeSearches H1 H2))).
  - reflexivity.
  - vm_compute. discriminate.
Defined.

(** ** useFileSearch: the pager *)

Lemma ceil_pages (total : Z) :
  (total <= 100)%Z -> (- ((- total) / 50) <= 2)%Z.
Proof.
  intros H. assert ((- 2 <= (- total) / 50)%Z); [|lia].
  apply Z.div_le_lower_bound; lia.
Qed.

(** X27.  The pager offers two pages, at most.  When the query the hook sends
    is one [search] answers from the store (blank, or not fuzzy), the
    total it reports is capped by the 100 rows the store hands back, so
    the page count derived from it never exceeds 2, however many files
    match; and a request for page 3 or beyond comes back empty. *)
Theorem pager_offers_two_pages (db : option Sqlite.Connection)
    (fuse_search : SearchService.Fuse -> str -> Z -> list FileItem)
    (st : SearchService.State) (now : Z) (text : str)
    (combinedFilters : SearchFilters) (page : Z) :
  let cleanQuery :=
    fst (SearchService.parseSearchOperators now (Js.trim text)) in
  SearchService.shouldUseFuzzySearch cleanQuery = false
  \/ Js.trim cleanQuery = [] ->
  exists r,
    fst (fst (IpcHandlers.searchFilesHandler db fuse_search st now
                (FileSearch.request text combinedFilters page)))
    = mkIpcResponse true (Some r) None
    /\ (FileSearch.totalPages (Some r) <= 2)%Z
    /\ FileSearch.hasNextPage 2 (Some r) = false
    /\ ((3 <= page)%Z -> items r = []).
Proof.
  intros cleanQuery Hq.
  unfold IpcHandlers.searchFilesHandler, FileSearch.request.
  cbn [IpcHandlers.rq_query IpcHandlers.rq_filters IpcHandlers.rq_limit
         IpcHandlers.rq_offset].
  pose proof (late_pages_empty db fuse_search st now (Js.trim text)
                (SearchService.FObject combinedFilters)
                FileSearch.itemsPerPage
                ((page - 1) * FileSearch.itemsPerPage)) as Hlate.
  pose proof (search_database db fuse_search st now (Js.trim text)
                (SearchService.FObject combinedFilters)
                FileSearch.itemsPerPage
                ((page - 1) * FileSearch.itemsPerPage)) as Hdb.
  cbv zeta in Hlate, Hdb. fold cleanQuery in Hlate, Hdb.
  destruct (combineFilters_ok (SearchService.FObject combinedFilters)
              (snd (SearchService.parseSearchOperators now (Js.trim text))))
    as [combined Hc]; [discriminate|].
  specialize (Hdb combined Hc Hq).
  destruct (SearchService.search db fuse_search st now (Js.trim text)
              (SearchService.FObject combinedFilters) FileSearch.itemsPerPage
              ((page - 1) * FileSearch.itemsPerPage)) as [[r st'] calls].
  cbn [fst] in *. exists r. split; [reflexivity|].
  assert (Htotal : (totalCount r <= 100)%Z).
  { injection Hdb as Hr _ _. rewrite Hr.
    match goal with
    | |- context [A.searchFiles db ?q ?l ?o] =>
        destruct (A.searchFiles db q l o) as [e|found] eqn:Hs
    end; [cbn [totalCount]; lia|].
    apply searchFiles_length in Hs;
      [|unfold FileSearch.itemsPerPage; lia].
    unfold resultOf. cbn [totalCount]. rewrite sortResults_length.
    unfold SearchService.applyFilters.
    pose proof (filter_length_le (SearchService.keep combined) found).
    unfold FileSearch.itemsPerPage in Hs. lia. }
  pose proof (ceil_pages (totalCount r) Htotal) as Hpages.
  split; [exact Hpages|]. split.
  - unfold FileSearch.hasNextPage. apply Z.ltb_ge. exact Hpages.
  - intros Hp. apply Hlate; [unfold FileSearch.itemsPerPage; lia| |exact Hq].
    unfold FileSearch.itemsPerPage. lia.
Qed.

Lemma pager_offers_two_pages_witness :
  exists r,
    fst (fst (IpcHandlers.searchFilesHandler twelveFiles fuseEverything
                SearchService.initial 1700000000000
                (FileSearch.request (lit " f0 ") no_filters 3)))
    = mkIpcResponse true (Some r) None
    /\ items r = [].
Proof.
  destruct (pager_offers_two_pages twelveFiles fuseEverything
              SearchService.initial 1700000000000 (lit " f0 ") no_filters 3)
    as (r & Hr & _ & _ & He).
  - left. vm_compute. reflexivity.
  - exists r. split; [exact Hr|]. apply He. lia.
Defined.

(** ** FileWatcher: what is announced *)


(** ** DatabaseService: a stored file is found by its name *)

Lemma like_percent (p s : str) :
  Sqlite.like ("%"%char :: p) s
  = Sqlite.like p s
    || match s with
       | [] => false
       | _ :: s' => Sqlite.like ("%"%char :: p) s'
       end.
Proof. destruct s; reflexivity. Qed.

Lemma like_then_any (s : str) : Sqlite.like (s ++ lit "%") s = true.
Proof.
  induction s as [|c s IH]; [reflexivity|].
  cbn [app]. destruct (Ascii.eqb c "%"%char) eqn:E.
  - apply Ascii.eqb_eq in E. subst c.
    rewrite like_percent, like_percent, IH. apply orb_true_r.
  - cbn [Sqlite.like]. rewrite E, Ascii.eqb_refl, orb_true_r. exact IH.
Qed.

Lemma like_contains (s : str) :
  Sqlite.like (lit "%" ++ s ++ lit "%") s = true.
Proof.
  change (lit "%" ++ s ++ lit "%") with ("%"%char :: (s ++ lit "%")).
  rewrite like_percent, like_then_any. reflexivity.
Qed.

Lemma split_ws_word (s : str) :
  Forall (fun c => Js.is_space c = false) s ->
  Js.split_ws_aux false s = [s].
Proof.
  induction 1 as [|c s Hc _ IH]; [reflexivity|].
  cbn [Js.split_ws_aux]. rewrite Hc, IH. reflexivity.
Qed.

Lemma parseSearchQuery_word (s : str) :
  OneWord s ->
  A.parseSearchQuery s = A.mkSearchTerms (Some s) None None None.
Proof.
  intros (Hne & Hc & Hs). unfold A.parseSearchQuery, Js.split_ws.
  rewrite (split_ws_word s Hs). cbn [fold_left].
  assert (Hno : forall p, In colon p -> Js.startsWith s p = false).
  { intros p Hp. destruct (Js.startsWith s p) eqn:E; [|reflexivity].
    apply startsWith_parts in E. destruct E as [_ E].
    exfalso. exact (proj1 (Forall_forall _ _) Hc _ (E _ Hp) eq_refl). }
  unfold A.parsePart.
  rewrite (Hno (lit "type:")) by (cbn; unfold colon; tauto).
  rewrite (Hno (lit "ext:")) by (cbn; unfold colon; tauto).
  rewrite (Hno (lit "size:")) by (cbn; unfold colon; tauto).
  reflexivity.
Qed.

(** X21.  A stored file is found by its name.  In a healthy store, a query
    that is the name of a row (one word, without a colon) returns that
    row's record, when the limit exceeds the number of rows. *)
Theorem stored_file_found_by_name (rows : list Sqlite.Row) (r : Sqlite.Row)
    (limit : Z) :
  In r rows ->
  OneWord (Sqlite.col_name r) ->
  (Z.of_nat (List.length rows) < limit)%Z ->
  exists found,
    A.searchFiles (Some (Sqlite.mkConnection rows None)) (Sqlite.col_name r)
      limit 0 = inr found
    /\ In (A.rowToFileItem r) found.
Proof.
  intros Hr Hw Hl. eexists. split; [apply searchFiles_healthy|].
  apply in_map. unfold Sqlite.limit_offset.
  destruct (Z.ltb_spec limit 0) as [Hn|_]; [lia|].
  change (Z.to_nat 0) with 0%nat. cbn [skipn].
  rewrite firstn_all2.
  - apply (Permutation_in _ (Permutation_sym (stable_sort_perm _ _ _))).
    apply filter_In. split; [exact Hr|].
    rewrite (parseSearchQuery_word _ Hw).
    destruct Hw as (Hne & _ & _).
    destruct (Sqlite.col_name r) as [|c n] eqn:En;
      [contradiction Hne; reflexivity|].
    cbn [A.whereClause A.truthy A.t_type A.t_extension A.t_size A.t_text
           fst snd app Sqlite.eval_where Sqlite.arity firstn skipn
           Sqlite.eval_cond Sqlite.text_like].
    rewrite En.
    change (lit "%" ++ c :: n ++ lit "%")
      with (lit "%" ++ (c :: n) ++ lit "%").
    rewrite (like_contains (c :: n)). reflexivity.
  - rewrite stable_sort_length.
    pose proof (filter_length_le
                  (Sqlite.eval_where
                     (fst (A.whereClause (A.parseSearchQuery (Sqlite.col_name r))))
                     (snd (A.whereClause (A.parseSearchQuery (Sqlite.col_name r)))))
                  rows). lia.
Qed.

Lemma stored_file_found_by_name_witness :
  exists found,
    A.searchFiles twelveFiles (lit "f07.txt") 100 0 = inr found
    /\ In (A.rowToFileItem (numbered 7)) found.
Proof.
  apply (stored_file_found_by_name (map numbered (seq 0 12)) (numbered 7) 100).
  - vm_compute. tauto.
  - split; [discriminate|].
    split; repeat constructor; discriminate.
  - vm_compute. reflexivity.
Defined.
